(** * Career guidance app: sanitizer, validator, throttle, history, exporters

    A shallow embedding of [app.py].  Python strings are lists of Unicode
    code points, the session state is a record threaded through the form
    handler, exceptions are an explicit result type, and the calls into
    libraries that the script does not define (the generative service,
    reportlab, the Unicode tables of [re] and [str]) are parameters of the
    sections that use them. *)

From Stdlib Require Import String Ascii.
From Stdlib Require Import List ZArith NArith Bool Lia.
Import ListNotations.

Set Warnings "-register-all".

(** ** Python strings *)

(** A Python [str] is a sequence of code points; [len] counts them. *)
Definition char := N.
Definition pystr := list char.

Definition len (s : pystr) : nat := List.length s.

(** An ASCII literal of the script as a [pystr]. *)
Definition lit (s : string) : pystr := map N_of_ascii (list_ascii_of_string s).

Definition newline : pystr := [10%N].

Definition pystr_eqb (a b : pystr) : bool :=
  if list_eq_dec N.eq_dec a b then true else false.

Definition in_range (lo hi c : char) : bool := (lo <=? c)%N && (c <=? hi)%N.
Arguments in_range (lo hi c)%_N.

(** [0-9A-Za-z_]: what [\w] matches below 128. *)
Definition ascii_word (c : char) : bool :=
  in_range 48 57 c || in_range 65 90 c || in_range 97 122 c || (c =? 95)%N.

(** Tab, LF, VT, FF, CR, the four separators 0x1C-0x1F and the space:
    what [\s] and [str.strip] treat as whitespace below 128. *)
Definition ascii_space (c : char) : bool :=
  in_range 9 13 c || in_range 28 31 c || (c =? 32)%N.

Definition ascii_letter (c : char) : bool :=
  in_range 65 90 c || in_range 97 122 c.

Definition ascii_upper (c : char) : char :=
  if in_range 97 122 c then (c - 32)%N else c.

Definition ascii_lower (c : char) : char :=
  if in_range 65 90 c then (c + 32)%N else c.

(** [str.title] on ASCII text: a letter that follows a letter is lowered,
    any other letter is raised. *)
Fixpoint ascii_title (previous_is_cased : bool) (s : pystr) : pystr :=
  match s with
  | [] => []
  | c :: s' =>
      (if previous_is_cased then ascii_lower c else ascii_upper c)
        :: ascii_title (ascii_letter c) s'
  end.

Section App.

Set Default Proof Using "Type".

(** ** Sanitizer *)

(** The Unicode database, for the code points from 128 on: the word and
    whitespace classes of [re] (the same whitespace class drives
    [str.strip]) and title casing of text that is not pure ASCII. *)
Variable uni_word : char -> bool.
Variable uni_space : char -> bool.
Variable uni_title : pystr -> pystr.

Definition is_word (c : char) : bool :=
  if (c <? 128)%N then ascii_word c else uni_word c.

Definition is_space (c : char) : bool :=
  if (c <? 128)%N then ascii_space c else uni_space c.

(** The complement of the character class [[^\w\s@.,-]]. *)
Definition allowed (c : char) : bool :=
  is_word c || is_space c
  || (c =? 64)%N || (c =? 46)%N || (c =? 44)%N || (c =? 45)%N.

(** [re.sub(r'[^\w\s@.,-]', '', text)] *)
Definition re_sub_disallowed (text : pystr) : pystr := filter allowed text.

(** [re.search(r'[^\w\s@.,-]', text)] as a truth value *)
Definition re_search_disallowed (text : pystr) : bool :=
  existsb (fun c => negb (allowed c)) text.

Fixpoint lstrip (s : pystr) : pystr :=
  match s with
  | [] => []
  | c :: s' => if is_space c then lstrip s' else s
  end.

Definition rstrip (s : pystr) : pystr := rev (lstrip (rev s)).

Definition strip (s : pystr) : pystr := rstrip (lstrip s).

(** [clean_input]: [None] stands for Python's [None]; it and the empty
    string are the falsy texts. *)
Definition clean_input (text : option pystr) : pystr :=
  match text with
  | Some ((_ :: _) as t) => strip (re_sub_disallowed t)
  | _ => []
  end.

(** ** Validator *)

Definition replace_underscore (s : pystr) : pystr :=
  map (fun c => if (c =? 95)%N then 32%N else c) s.

Definition py_title (s : pystr) : pystr :=
  if forallb (fun c => (c <? 128)%N) s then ascii_title false s else uni_title s.

Definition field_title (field : pystr) : pystr :=
  py_title (replace_underscore field).

Definition too_short_msg (field : pystr) : pystr :=
  field_title field ++ lit " too short (min 3 chars)".

Definition too_long_msg (field : pystr) : pystr :=
  field_title field ++ lit " exceeds 500 chars".

Definition invalid_name_msg : pystr := lit "Invalid characters in name".

(** A keyword dictionary: keys in insertion order. *)
Definition kwargs := list (pystr * pystr).

Fixpoint dict_get (d : kwargs) (key default : pystr) : pystr :=
  match d with
  | [] => default
  | (k, v) :: d' => if pystr_eqb k key then v else dict_get d' key default
  end.

(** One turn of the loop over [kwargs.items()]. *)
Definition validate_field (errors : list pystr) (item : pystr * pystr) : list pystr :=
  let '(field, value) := item in
  let errors :=
    if len value <? 3 then errors ++ [too_short_msg field] else errors in
  let errors :=
    if 500 <? len value then errors ++ [too_long_msg field] else errors in
  errors.

Definition validate_inputs (kw : kwargs) : list pystr :=
  let errors := fold_left validate_field kw [] in
  if re_search_disallowed (dict_get kw (lit "user_name") [])
  then errors ++ [invalid_name_msg]
  else errors.

(** ** Session state *)

(** A naive [datetime]: microseconds on the local clock. *)
Definition datetime := Z.

(** The [seconds] field of the normalised [timedelta] [later - earlier]:
    days, seconds in [0, 86400) and microseconds in [0, 10^6). *)
Definition timedelta_seconds (later earlier : datetime) : Z :=
  (((later - earlier) mod 86400000000) / 1000000)%Z.
#[global] Arguments timedelta_seconds (later earlier)%_Z.

(** The five form fields, raw as typed or cleaned. *)
Record profile := {
  user_name : pystr;
  education : pystr;
  skills : pystr;
  goals : pystr;
  interests : pystr
}.

(** The dictionary built from [locals().items()]: the keys come in the
    order in which the script binds the five names. *)
Definition items (p : profile) : kwargs :=
  [ (lit "user_name", user_name p);
    (lit "education", education p);
    (lit "skills", skills p);
    (lit "goals", goals p);
    (lit "interests", interests p) ].

Record entry := {
  name : pystr;
  timestamp : pystr;
  inputs : profile;
  advice : pystr
}.

(** [st.session_state]. [show_main] only chooses between the welcome
    screen and the form; the form handling does not read it. *)
Record session := {
  show_main : bool;
  history : list entry;
  api_errors : Z;
  last_request : option datetime;
  error : bool
}.

Definition required_states : session :=
  {| show_main := false; history := []; api_errors := 0;
     last_request := None; error := false |}.

Definition set_api_errors (n : Z) (st : session) : session :=
  {| show_main := show_main st; history := history st; api_errors := n;
     last_request := last_request st; error := error st |}.

Definition set_error (b : bool) (st : session) : session :=
  {| show_main := show_main st; history := history st;
     api_errors := api_errors st; last_request := last_request st;
     error := b |}.

Definition history_append (e : entry) (st : session) : session :=
  {| show_main := show_main st; history := history st ++ [e];
     api_errors := api_errors st; last_request := last_request st;
     error := error st |}.

Definition set_last_request (t : datetime) (st : session) : session :=
  {| show_main := show_main st; history := history st;
     api_errors := api_errors st; last_request := Some t;
     error := error st |}.

(** ** Advice client *)

(** An exception: the name of its type and its [str]. *)
Record exn := {
  type_name : pystr;
  message : pystr
}.

(** What [model.generate_content] does for a prompt: a response with its
    [text], or an exception. *)
Inductive reply :=
| Text (t : pystr)
| Raises (e : exn).

Inductive ui :=
| UiError (msg : pystr)
| UiWarning (msg : pystr).

Inductive result (A : Type) :=
| Ok (a : A)
| Raise (e : exn).
#[global] Arguments Ok {A} a.
#[global] Arguments Raise {A} e.

(** What follows a call that may raise. *)
Definition bind {A B} (r : result A) (k : A -> result B) : result B :=
  match r with
  | Ok a => k a
  | Raise e => Raise e
  end.

Notation "x <- r ;; k" := (bind r (fun x => k))
  (at level 61, r at next level, right associativity).

(** The f-string of [get_career_advice], line by line. *)
Definition build_prompt (interests skills education goals : pystr) : pystr :=
  newline
  ++ lit "You are an expert career counselor mentoring a B.Tech or other students in India. Provide highly personalized, realistic, and actionable career advice based on:"
  ++ newline
  ++ lit "- Interests: " ++ interests
  ++ newline
  ++ lit "- Skills: " ++ skills
  ++ newline
  ++ lit "- Education: " ++ education
  ++ newline
  ++ lit "- Career Goals: " ++ goals
  ++ newline
  ++ []
  ++ newline
  ++ lit "**Requirements**:"
  ++ newline
  ++ lit "- Suggest 4 best career paths relevant to the user" ++ [8217%N] ++ lit "s profile, each including:"
  ++ newline
  ++ lit "  1. **Job Title and Description**: Describe the role and its impact in India" ++ [8217%N] ++ lit "s job market."
  ++ newline
  ++ lit "  2. **Required Skills**: List technical and soft skills, with tools or certifications."
  ++ newline
  ++ lit "  3. **Skill Gaps**: Compare user's current skills with required skills for each suggested career path, highlighting key areas for improvement."
  ++ newline
  ++ lit "  4. **Steps to Achieve**: Provide a 3-5 step roadmap tailored to a B.Tech and other student in india (e.g., projects, internships, courses)."
  ++ newline
  ++ lit "  5. **Market Insights**: Include average salary (INR), demand, and remote work options."
  ++ newline
  ++ lit "  6. **Challenges and Solutions**: Address obstacles (e.g., competition) with practical solutions."
  ++ newline
  ++ lit "- Provide general advice on:"
  ++ newline
  ++ lit "  - Building a resume (e.g., GitHub, LinkedIn)."
  ++ newline
  ++ lit "  - Networking (e.g., meetups, online platforms)."
  ++ newline
  ++ lit "  - Skill development (e.g., free/paid resources like Coursera, YouTube, Internshala)."
  ++ newline
  ++ lit "  - Interview tips for Indian companies."
  ++ newline
  ++ lit "- Use a motivational tone to inspire confidence."
  ++ newline
  ++ lit "- Always Format with clear headings (##), bullet(**) and sub bullet points for readability."
  ++ newline.

Definition empty_response : exn :=
  {| type_name := lit "ValueError";
     message := lit "Empty response from AI model" |}.

(** [genai.types.GenerativeServiceError], the expression of the first
    handler, which Python evaluates when an exception reaches it.  The
    [types] module of the library defines no such name, so the attribute
    lookup raises; with [Some], the class as its instance test. *)
Definition generative_service_error : option (exn -> bool) := None.

Definition attribute_error : exn :=
  {| type_name := lit "AttributeError";
     message :=
       lit "module 'google.generativeai.types' has no attribute 'GenerativeServiceError'" |}.

Definition api_error_text (e : exn) : pystr :=
  [128680%N]
  ++ lit " API Error: Service unavailable. Please try again later. Details: "
  ++ message e.

Definition critical_error_msg (e : exn) : pystr :=
  [9888%N; 65039%N] ++ lit " Critical System Error: " ++ type_name e
  ++ lit " - Contact support".

(** [get_career_advice]: the session after the call, what it showed and
    what it returned or raised.  An exception of the [try] body meets the
    first [except] clause, whose class is looked up then; an exception of
    that lookup leaves the whole statement, past the second clause. *)
Definition get_career_advice (service : pystr -> reply) (st : session)
    (interests skills education goals : pystr)
  : session * list ui * result pystr :=
  let raised :=
    match service (build_prompt interests skills education goals) with
    | Text [] => Raise empty_response
    | Text t => Ok t
    | Raises e => Raise e
    end in
  match raised with
  | Ok t => (st, [], Ok t)
  | Raise e =>
      match generative_service_error with
      | None => (st, [], Raise attribute_error)
      | Some is_instance =>
          if is_instance e
          then (set_api_errors (api_errors st + 1) st, [], Ok (api_error_text e))
          else (set_error true st, [UiError (critical_error_msg e)], Raise e)
      end
  end.

(** ** Throttle guard *)

Inductive decision :=
| Allow
| DenyTooManyErrors
| DenyRateLimited.

(** The two checks that open the form handling: the error ceiling, then
    the interval since [last_request] ([None] is falsy and skips it). *)
Definition throttle_guard (api_errors : Z) (last_request : option datetime)
    (now : datetime) : decision :=
  if (3 <? api_errors)%Z then DenyTooManyErrors
  else match last_request with
       | Some t =>
           if (timedelta_seconds now t <? 5)%Z then DenyRateLimited else Allow
       | None => Allow
       end.

(** ** Form handling *)

(** [strftime("%d %b %Y %H:%M")] of the standard library. *)
Variable strftime : datetime -> pystr.

(** One submission: the form as typed, the three readings of
    [datetime.now()] (rate check, entry timestamp, [last_request]) and the
    behaviour of the generative service. *)
Record request := {
  form : profile;
  now_check : datetime;
  now_entry : datetime;
  now_done : datetime;
  service : pystr -> reply
}.

(** How the block ends: the script goes on to render, [st.stop()] halts
    it, or an exception leaves it. *)
Inductive control :=
| Continue
| Stop
| Raised (e : exn).

(** The components a submission went through, in the order of the calls. *)
Inductive stage :=
| ThrottleGuard
| Sanitizer
| Validator
| AdviceClient.

Record outcome := {
  state : session;
  shown : list ui;
  stages : list stage;
  ending : control
}.

Definition too_many_errors_msg : pystr :=
  [128679%N] ++ lit " Too many errors - Please try again after 15 minutes".

Definition please_wait_msg : pystr :=
  [9203%N] ++ lit " Please wait 5 seconds between requests".

Definition complete_all_msg : pystr := lit "Please complete all fields".

Definition truthy (s : pystr) : bool :=
  match s with [] => false | _ :: _ => true end.

(** [all([user_name, interests, skills, education, goals])] *)
Definition all_filled (f : profile) : bool :=
  forallb truthy [user_name f; interests f; skills f; education f; goals f].

Definition clean_profile (f : profile) : profile :=
  {| user_name := clean_input (Some (user_name f));
     education := clean_input (Some (education f));
     skills := clean_input (Some (skills f));
     goals := clean_input (Some (goals f));
     interests := clean_input (Some (interests f)) |}.

Definition new_entry (cleaned : profile) (rq : request) (advice : pystr) : entry :=
  {| name := user_name cleaned;
     timestamp := strftime (now_entry rq);
     inputs := cleaned;
     advice := advice |}.

(** The body of [if submitted:]. *)
Definition form_handling (st : session) (rq : request) : outcome :=
  match throttle_guard (api_errors st) (last_request st) (now_check rq) with
  | DenyTooManyErrors =>
      {| state := st; shown := [UiError too_many_errors_msg];
         stages := [ThrottleGuard]; ending := Stop |}
  | DenyRateLimited =>
      {| state := st; shown := [UiWarning please_wait_msg];
         stages := [ThrottleGuard]; ending := Stop |}
  | Allow =>
      if negb (all_filled (form rq)) then
        {| state := st; shown := [UiError complete_all_msg];
           stages := [ThrottleGuard]; ending := Continue |}
      else
        let cleaned := clean_profile (form rq) in
        match validate_inputs (items cleaned) with
        | (_ :: _) as validation_errors =>
            {| state := st; shown := map UiError validation_errors;
               stages := [ThrottleGuard; Sanitizer; Validator];
               ending := Continue |}
        | [] =>
            let '(st1, out, r) :=
              get_career_advice (service rq) st (interests cleaned)
                (skills cleaned) (education cleaned) (goals cleaned) in
            match r with
            | Raise e =>
                {| state := st1; shown := out;
                   stages := [ThrottleGuard; Sanitizer; Validator; AdviceClient];
                   ending := Raised e |}
            | Ok advice =>
                {| state :=
                     set_last_request (now_done rq)
                       (history_append (new_entry cleaned rq advice) st1);
                   shown := out;
                   stages := [ThrottleGuard; Sanitizer; Validator; AdviceClient];
                   ending := Continue |}
            end
        end
  end.

(** The error boundary near the end of the script: it shows the panel and
    clears the flag. *)
Definition error_boundary (st : session) : session :=
  if error st then set_error false st else st.

(** ** History store *)

(** [st.session_state.history[-1]], guarded by [if st.session_state.history] *)
Definition latest (st : session) : option entry :=
  match history st with
  | [] => None
  | e :: h => Some (last h e)
  end.

(** [reversed(st.session_state.history)] *)
Definition history_reversed (st : session) : list entry := rev (history st).

(** ** PDF exporter *)

Inductive style :=
| Title
| Heading2
| BodyText.

Inductive flowable :=
| Paragraph (text : pystr) (st : style)
| Spacer (width height : Z).

(** reportlab: [Paragraph(...)] parses the markup of its text and may
    raise; [doc.build(story)] writes the document into the buffer or
    raises. *)
Variable paragraph_check : pystr -> style -> option exn.
Variable doc_build : list flowable -> result (list N).

(** [content.split('\n')] *)
Fixpoint split_lines (s : pystr) : list pystr :=
  match s with
  | [] => [[]]
  | c :: s' =>
      if (c =? 10)%N then [] :: split_lines s'
      else match split_lines s' with
           | l :: ls => (c :: l) :: ls
           | [] => [[c]]
           end
  end.

(** [line.startswith('#')] *)
Definition starts_with_hash (line : pystr) : bool :=
  match line with
  | c :: _ => (c =? 35)%N
  | [] => false
  end.

Definition line_style (line : pystr) : style :=
  if starts_with_hash line then Heading2 else BodyText.

Definition make_paragraph (text : pystr) (s : style) : result flowable :=
  match paragraph_check text s with
  | Some e => Raise e
  | None => Ok (Paragraph text s)
  end.

(** The loop over the lines: each one appends a paragraph and a spacer;
    the first paragraph that raises ends it. *)
Fixpoint add_lines (story : list flowable) (lines : list pystr)
  : result (list flowable) :=
  match lines with
  | [] => Ok story
  | line :: rest =>
      match make_paragraph line (line_style line) with
      | Raise e => Raise e
      | Ok p => add_lines (story ++ [p; Spacer 1 3]) rest
      end
  end.

Definition build_story (content title : pystr) : result (list flowable) :=
  match make_paragraph (lit "<b>" ++ title ++ lit "</b>") Title with
  | Raise e => Raise e
  | Ok t => add_lines [t; Spacer 1 12] (split_lines content)
  end.

Definition pdf_failed_msg (e : exn) : pystr :=
  lit "PDF generation failed: " ++ message e.

(** [generate_pdf]: the [try] body, then [except Exception] turning any
    exception into [None]. *)
Definition generate_pdf (content title : pystr)
  : result (option (list N)) * list ui :=
  let body :=
    match build_story content title with
    | Raise e => Raise e
    | Ok story => doc_build story
    end in
  match body with
  | Ok buffer => (Ok (Some buffer), [])
  | Raise e => (Ok None, [UiError (pdf_failed_msg e)])
  end.

(** ** JSON exporter *)

(** The Python values the script exports: strings, dictionaries with
    string keys in insertion order, and lists. *)
Inductive pyval :=
| PStr (s : pystr)
| PDict (d : list (pystr * pyval))
| PList (l : list pyval).

(** The dictionary literal appended to the history. *)
Definition entry_value (e : entry) : pyval :=
  PDict [ (lit "name", PStr (name e));
          (lit "timestamp", PStr (timestamp e));
          (lit "inputs",
           PDict (map (fun kv => (fst kv, PStr (snd kv))) (items (inputs e))));
          (lit "advice", PStr (advice e)) ].

Definition history_value (h : list entry) : pyval :=
  PList (map entry_value h).

Definition hex_digit (d : N) : char :=
  if (d <? 10)%N then (48 + d)%N else (87 + d)%N.

(** The encoder's escape table with [ensure_ascii=False]: the quote, the
    backslash and the code points below 0x20; everything else is kept. *)
Definition escape_char (c : char) : pystr :=
  if (c =? 34)%N then [92; 34]%N
  else if (c =? 92)%N then [92; 92]%N
  else if (c =? 10)%N then [92; 110]%N
  else if (c =? 13)%N then [92; 114]%N
  else if (c =? 9)%N then [92; 116]%N
  else if (c =? 12)%N then [92; 102]%N
  else if (c =? 8)%N then [92; 98]%N
  else if (c <? 32)%N then
    [92; 117; 48; 48]%N ++ [hex_digit (c / 16); hex_digit (c mod 16)]
  else [c].

Definition encode_basestring (s : pystr) : pystr :=
  [34%N] ++ flat_map escape_char s ++ [34%N].

(** A newline and the indent of two spaces per level. *)
Definition newline_indent (level : nat) : pystr :=
  10%N :: repeat 32%N (2 * level).

Fixpoint join (sep : pystr) (chunks : list pystr) : pystr :=
  match chunks with
  | [] => []
  | [c] => c
  | c :: rest => c ++ sep ++ join sep rest
  end.

(** The encoder with [indent=2]: item separator [","], key separator
    [": "], every item on a line of its own. *)
Fixpoint iterencode (level : nat) (v : pyval) : pystr :=
  match v with
  | PStr s => encode_basestring s
  | PDict [] => lit "{}"
  | PDict d =>
      [123%N] ++ newline_indent (S level)
      ++ join (44%N :: newline_indent (S level))
           (map (fun kv =>
                   let '(k, x) := kv in
                   encode_basestring k ++ lit ": " ++ iterencode (S level) x) d)
      ++ newline_indent level ++ [125%N]
  | PList [] => lit "[]"
  | PList l =>
      [91%N] ++ newline_indent (S level)
      ++ join (44%N :: newline_indent (S level)) (map (iterencode (S level)) l)
      ++ newline_indent level ++ [93%N]
  end.

(** [export_json]: [json.dumps(data, indent=2, ensure_ascii=False)] *)
Definition export_json (data : pyval) : pystr := iterencode 0 data.

(** *** The decoder, on the same values

    [json.loads] restricted to strings, objects and arrays; [None] stands
    for a [JSONDecodeError] and for the literals outside this fragment. *)

Definition is_ws (c : char) : bool :=
  (c =? 32)%N || (c =? 9)%N || (c =? 10)%N || (c =? 13)%N.

Fixpoint skip_ws (s : pystr) : pystr :=
  match s with
  | [] => []
  | c :: s' => if is_ws c then skip_ws s' else s
  end.

Definition hex_value (c : char) : option N :=
  if in_range 48 57 c then Some (c - 48)%N
  else if in_range 97 102 c then Some (c - 87)%N
  else if in_range 65 70 c then Some (c - 55)%N
  else None.

Definition decode_uXXXX (a b c d : char) : option N :=
  match hex_value a, hex_value b, hex_value c, hex_value d with
  | Some x, Some y, Some z, Some w => Some (((x * 16 + y) * 16 + z) * 16 + w)%N
  | _, _, _, _ => None
  end.

Arguments decode_uXXXX (a b c d)%_N.

(** The table of the one-letter escapes. *)
Definition backslash (esc : char) : option char :=
  if (esc =? 34)%N then Some 34%N
  else if (esc =? 92)%N then Some 92%N
  else if (esc =? 47)%N then Some 47%N
  else if (esc =? 98)%N then Some 8%N
  else if (esc =? 102)%N then Some 12%N
  else if (esc =? 110)%N then Some 10%N
  else if (esc =? 114)%N then Some 13%N
  else if (esc =? 116)%N then Some 9%N
  else None.

Arguments backslash esc%_N.

Definition prepend (c : char) (r : option (pystr * pystr)) : option (pystr * pystr) :=
  match r with
  | Some (str, rest) => Some (c :: str, rest)
  | None => None
  end.

(** [scanstring] in strict mode, from just after the opening quote: the
    decoded string and the text after the closing quote.  An escaped high
    surrogate followed by an escaped low one is joined into one code
    point. *)
Fixpoint scanstring (s : pystr) : option (pystr * pystr) :=
  match s with
  | [] => None
  | c :: s1 =>
      if (c =? 34)%N then Some ([], s1)
      else if (c =? 92)%N then
        match s1 with
        | [] => None
        | esc :: s2 =>
            if (esc =? 117)%N then
              match s2 with
              | a :: b :: c0 :: d :: s3 =>
                  match decode_uXXXX a b c0 d with
                  | None => None
                  | Some uni =>
                      if in_range 55296 56319 uni then
                        match s3 with
                        | b1 :: u1 :: a2 :: b2 :: c2 :: d2 :: s4 =>
                            if (b1 =? 92)%N && (u1 =? 117)%N then
                              match decode_uXXXX a2 b2 c2 d2 with
                              | None => None
                              | Some uni2 =>
                                  if in_range 56320 57343 uni2 then
                                    prepend
                                      (65536 + ((uni - 55296) * 1024 + (uni2 - 56320)))%N
                                      (scanstring s4)
                                  else prepend uni (scanstring s3)
                              end
                            else prepend uni (scanstring s3)
                        | _ => prepend uni (scanstring s3)
                        end
                      else prepend uni (scanstring s3)
                  end
              | _ => None
              end
            else
              match backslash esc with
              | Some ch => prepend ch (scanstring s2)
              | None => None
              end
        end
      else if (c <? 32)%N then None
      else prepend c (scanstring s1)
  end.

(** [d[k] = v] on a dictionary kept in insertion order. *)
Fixpoint dict_set (d : list (pystr * pyval)) (k : pystr) (v : pyval)
  : list (pystr * pyval) :=
  match d with
  | [] => [(k, v)]
  | (k', v') :: d' =>
      if pystr_eqb k' k then (k', v) :: d' else (k', v') :: dict_set d' k v
  end.

(** [dict(pairs)] *)
Definition dict_of_pairs (pairs : list (pystr * pyval)) : list (pystr * pyval) :=
  fold_left (fun d kv => dict_set d (fst kv) (snd kv)) pairs [].

(** [scan_once] with the loops of [JSONObject] and [JSONArray]; the fuel
    bounds the number of values and items read. *)
Fixpoint scan_once (fuel : nat) (s : pystr) : option (pyval * pystr) :=
  match fuel with
  | O => None
  | S fuel =>
      match s with
      | [] => None
      | c :: s1 =>
          if (c =? 34)%N then
            match scanstring s1 with
            | Some (str, s2) => Some (PStr str, s2)
            | None => None
            end
          else if (c =? 123)%N then
            match skip_ws s1 with
            | [] => None
            | c1 :: s2 =>
                if (c1 =? 125)%N then Some (PDict [], s2)
                else if (c1 =? 34)%N then object_loop fuel [] s2
                else None
            end
          else if (c =? 91)%N then
            match skip_ws s1 with
            | [] => None
            | c1 :: s2 =>
                if (c1 =? 93)%N then Some (PList [], s2)
                else array_loop fuel [] (c1 :: s2)
            end
          else None
      end
  end
with object_loop (fuel : nat) (pairs : list (pystr * pyval)) (s : pystr)
  : option (pyval * pystr) :=
  match fuel with
  | O => None
  | S fuel =>
      match scanstring s with
      | None => None
      | Some (key, s1) =>
          match skip_ws s1 with
          | [] => None
          | c :: s2 =>
              if (c =? 58)%N then
                match scan_once fuel (skip_ws s2) with
                | None => None
                | Some (value, s3) =>
                    let pairs := pairs ++ [(key, value)] in
                    match skip_ws s3 with
                    | [] => None
                    | c2 :: s4 =>
                        if (c2 =? 125)%N then
                          Some (PDict (dict_of_pairs pairs), s4)
                        else if (c2 =? 44)%N then
                          match skip_ws s4 with
                          | [] => None
                          | c3 :: s5 =>
                              if (c3 =? 34)%N then object_loop fuel pairs s5
                              else None
                          end
                        else None
                    end
                end
              else None
          end
      end
  end
with array_loop (fuel : nat) (values : list pyval) (s : pystr)
  : option (pyval * pystr) :=
  match fuel with
  | O => None
  | S fuel =>
      match scan_once fuel s with
      | None => None
      | Some (value, s1) =>
          let values := values ++ [value] in
          match skip_ws s1 with
          | [] => None
          | c :: s2 =>
              if (c =? 93)%N then Some (PList values, s2)
              else if (c =? 44)%N then array_loop fuel values (skip_ws s2)
              else None
          end
      end
  end.

(** [json.loads] of a [str]: a leading byte order mark is refused, white
    space may surround the one value. *)
Definition starts_with_bom (s : pystr) : bool :=
  match s with
  | c :: _ => (c =? 65279)%N
  | [] => false
  end.

Definition json_loads (s : pystr) : option pyval :=
  if starts_with_bom s then None
  else
    match scan_once (S (len s)) (skip_ws s) with
    | Some (v, rest) =>
        match skip_ws rest with
        | [] => Some v
        | _ :: _ => None
        end
    | None => None
    end.

(** [d[key]] on a decoded dictionary. *)
Fixpoint dict_lookup (d : list (pystr * pyval)) (key : pystr) : option pyval :=
  match d with
  | [] => None
  | (k, v) :: d' => if pystr_eqb k key then Some v else dict_lookup d' key
  end.

Definition subscript (v : pyval) (key : string) : option pyval :=
  match v with
  | PDict d => dict_lookup d (lit key)
  | _ => None
  end.

(** ** Text exporter *)

(** One code point in UTF-8: one to four bytes; the surrogates have no
    encoding ([None] stands for the [UnicodeEncodeError]).  A [str] holds
    code points up to U+10FFFF; the last branch is meant for those from
    U+10000 on. *)
Definition utf8_char (c : char) : option (list N) :=
  if (c <? 128)%N then Some [c]
  else if (c <? 2048)%N then Some [192 + c / 64; 128 + c mod 64]%N
  else if (c <? 65536)%N then
    if in_range 55296 57343 c then None
    else Some [224 + c / 4096; 128 + (c / 64) mod 64; 128 + c mod 64]%N
  else
    Some [240 + c / 262144; 128 + (c / 4096) mod 64;
          128 + (c / 64) mod 64; 128 + c mod 64]%N.

Fixpoint utf8_encode (s : pystr) : option (list N) :=
  match s with
  | [] => Some []
  | c :: s' =>
      match utf8_char c, utf8_encode s' with
      | Some b, Some r => Some (b ++ r)
      | _, _ => None
      end
  end.

(** [export_text]: [content.encode('utf-8')] *)
Definition export_text (content : pystr) : option (list N) :=
  utf8_encode content.

Definition continuation (b : N) : bool := in_range 128 191 b.

Definition decoded (c : char) (r : option pystr) : option pystr :=
  match r with
  | Some s => Some (c :: s)
  | None => None
  end.

(** [bytes.decode('utf-8')], strict: well-formed sequences only, so no
    overlong form, no surrogate and nothing above U+10FFFF ([None] stands
    for the [UnicodeDecodeError]). *)
Fixpoint utf8_decode (bs : list N) : option pystr :=
  match bs with
  | [] => Some []
  | b0 :: r0 =>
      if (b0 <? 128)%N then decoded b0 (utf8_decode r0)
      else if in_range 194 223 b0 then
        match r0 with
        | b1 :: r1 =>
            if continuation b1
            then decoded ((b0 - 192) * 64 + (b1 - 128))%N (utf8_decode r1)
            else None
        | _ => None
        end
      else if in_range 224 239 b0 then
        match r0 with
        | b1 :: b2 :: r2 =>
            if in_range (if (b0 =? 224)%N then 160 else 128)
                 (if (b0 =? 237)%N then 159 else 191) b1
               && continuation b2
            then decoded
                   (((b0 - 224) * 64 + (b1 - 128)) * 64 + (b2 - 128))%N
                   (utf8_decode r2)
            else None
        | _ => None
        end
      else if in_range 240 244 b0 then
        match r0 with
        | b1 :: b2 :: b3 :: r3 =>
            if in_range (if (b0 =? 240)%N then 144 else 128)
                 (if (b0 =? 244)%N then 143 else 191) b1
               && continuation b2 && continuation b3
            then decoded
                   ((((b0 - 240) * 64 + (b1 - 128)) * 64 + (b2 - 128)) * 64
                    + (b3 - 128))%N
                   (utf8_decode r3)
            else None
        | _ => None
        end
      else None
  end.

(** ** Downloads *)

Inductive payload :=
| NoData
| Bytes (b : list N)
| Str (s : pystr).

(** The arguments of one [st.download_button]. *)
Record download := {
  label : pystr;
  data : payload;
  file_name : pystr;
  mime : pystr;
  key : option pystr
}.

(** The exception of [encode]; [message] keeps its reason. *)
Definition unicode_encode_error : exn :=
  {| type_name := lit "UnicodeEncodeError";
     message := lit "surrogates not allowed" |}.

(** What [generate_pdf] hands to the button: the buffer, or [None]. *)
Definition pdf_data (content title : pystr) : payload :=
  match fst (generate_pdf content title) with
  | Ok (Some buffer) => Bytes buffer
  | Ok None | Raise _ => NoData
  end.

Definition text_data (content : pystr) : result payload :=
  match export_text content with
  | Some b => Ok (Bytes b)
  | None => Raise unicode_encode_error
  end.

(** [timestamp.replace(' ', '_')] *)
Definition replace_spaces (s : pystr) : pystr :=
  map (fun c => if (c =? 32)%N then 95%N else c) s.

(** [f"career_plan_{timestamp.replace(' ', '_')}<extension>"] *)
Definition plan_file_name (timestamp extension : pystr) : pystr :=
  lit "career_plan_" ++ replace_spaces timestamp ++ extension.

Definition plan_title (e : entry) : pystr := lit "Career Plan - " ++ name e.

Definition pdf_button (e : entry) (k : pystr) : download :=
  {| label := [128196%N] ++ lit " PDF";
     data := pdf_data (advice e) (plan_title e);
     file_name := plan_file_name (timestamp e) (lit ".pdf");
     mime := lit "application/pdf";
     key := Some k |}.

Definition text_button (e : entry) (bytes : payload) (k : pystr) : download :=
  {| label := [128221%N] ++ lit " Text";
     data := bytes;
     file_name := plan_file_name (timestamp e) (lit ".txt");
     mime := lit "text/plain";
     key := Some k |}.

Definition json_button (e : entry) (k : pystr) : download :=
  {| label := [128230%N] ++ lit " JSON";
     data := Str (export_json (entry_value e));
     file_name := plan_file_name (timestamp e) (lit ".json");
     mime := lit "application/json";
     key := Some k |}.

(** Streamlit's exceptions for a key that two elements of one run are
    given, and for [None] as the data of a download button. *)
Variable duplicate_element_key : pystr -> exn.
Variable invalid_binary_data : exn.

(** The keys of the download buttons of one run, in the order in which
    the script creates them. *)
Definition download_keys (ds : list download) : list pystr :=
  flat_map (fun d => match key d with Some k => [k] | None => [] end) ds.

Definition key_taken (k : option pystr) (created : list download) : option pystr :=
  match k with
  | Some k => if existsb (pystr_eqb k) (download_keys created) then Some k else None
  | None => None
  end.

(** The file that Streamlit keeps for a button: the bytes of a buffer as
    they are, a [str] encoded, [None] refused. *)
Definition marshall_file (data : payload) : result (list N) :=
  match data with
  | Bytes b => Ok b
  | Str s =>
      match utf8_encode s with
      | Some b => Ok b
      | None => Raise unicode_encode_error
      end
  | NoData => Raise invalid_binary_data
  end.

(** [st.download_button], on a page that holds the buttons [created]: a
    key that an element of this run has is refused, then data that cannot
    be filed; otherwise the page has one button more.  Beside the download
    buttons the script names one element of the main page, the form
    [profile_form], and the keys of the buttons start with [pdf_], [text_]
    or [json_]; a button without a key is told apart by its label. *)
Definition download_button (d : download) (created : list download)
  : result (list download) :=
  match key_taken (key d) created with
  | Some k => Raise (duplicate_element_key k)
  | None => _ <- marshall_file (data d);; Ok (created ++ [d])
  end.

(** The two buttons beside the current plan; the arguments of a call are
    evaluated before it, so an advice that cannot be encoded raises before
    the Text button is made. *)
Definition plan_downloads (e : entry) (created : list download)
  : result (list download) :=
  created <- download_button (pdf_button e (lit "pdf_export")) created;;
  bytes <- text_data (advice e);;
  download_button (text_button e bytes (lit "text_export")) created.

(** The current plan, shown when the history is not empty, on a page
    that has no button yet. *)
Definition latest_downloads (st : session) : result (list download) :=
  match latest st with
  | None => Ok []
  | Some e => plan_downloads e []
  end.

(** The three buttons of one history item. *)
Definition entry_downloads (e : entry) (created : list download)
  : result (list download) :=
  created <- download_button (pdf_button e (lit "pdf_" ++ timestamp e)) created;;
  bytes <- text_data (advice e);;
  created <- download_button (text_button e bytes (lit "text_" ++ timestamp e)) created;;
  download_button (json_button e (lit "json_" ++ timestamp e)) created.

(** The loop over [reversed(st.session_state.history)]. *)
Fixpoint items_downloads (es : list entry) (created : list download)
  : result (list download) :=
  match es with
  | [] => Ok created
  | e :: rest =>
      created <- entry_downloads e created;;
      items_downloads rest created
  end.

(** The buttons of a page once the history items are displayed: those of
    the current plan, then three per item, newest first. *)
Definition history_downloads (st : session) : result (list download) :=
  created <- latest_downloads st;;
  items_downloads (history_reversed st) created.

(** *** Bulk export *)

Inductive export_format :=
| FormatJSON
| FormatText
| FormatPDF.

(** [f"{item['name']} ({item['timestamp']})\n\n{item['advice']}"] *)
Definition entry_block (e : entry) : pystr :=
  name e ++ lit " (" ++ timestamp e ++ lit ")" ++ newline ++ newline ++ advice e.

(** The blocks of the history, joined by a blank line. *)
Definition combined_content (h : list entry) : pystr :=
  join (newline ++ newline) (map entry_block h).

(** The button that the bulk export shows for a format, once its
    "Export All History" button is pressed; the section is there only for
    a history that is not empty, and the PDF button only when there is a
    document. *)
Definition bulk_download (format : export_format) (st : session)
  : result (option download) :=
  match history st with
  | [] => Ok None
  | _ :: _ =>
      match format with
      | FormatJSON =>
          Ok (Some {| label := lit "Download JSON";
                      data := Str (export_json (history_value (history st)));
                      file_name := lit "career_history.json";
                      mime := lit "application/json";
                      key := None |})
      | FormatPDF =>
          match pdf_data (combined_content (history st))
                  (lit "Full Career History") with
          | NoData => Ok None
          | pdf_file =>
              Ok (Some {| label := lit "Download PDF";
                          data := pdf_file;
                          file_name := lit "full_career_history.pdf";
                          mime := lit "application/pdf";
                          key := None |})
          end
      | FormatText =>
          match text_data (combined_content (history st)) with
          | Raise x => Raise x
          | Ok bytes =>
              Ok (Some {| label := lit "Download Text";
                          data := bytes;
                          file_name := lit "full_career_history.txt";
                          mime := lit "text/plain";
                          key := None |})
          end
      end
  end.

(** ** The script *)

Definition set_show_main (b : bool) (st : session) : session :=
  {| show_main := b; history := history st; api_errors := api_errors st;
     last_request := last_request st; error := error st |}.

(** What the user did before a run: pressed "Get Started", submitted the
    form, or pressed "Export All History" with a format selected. *)
Record interaction := {
  start_clicked : bool;
  submission : option request;
  export_pressed : option export_format
}.

(** The download buttons of one render of the main page, in the order of
    their creation: the current plan, the bulk export when it is pressed,
    the history items. *)
Definition render (st : session) (pressed : option export_format)
  : result (list download) :=
  created <- latest_downloads st;;
  created <- match pressed with
             | None => Ok created
             | Some format =>
                 offered <- bulk_download format st;;
                 match offered with
                 | None => Ok created
                 | Some d => download_button d created
                 end
             end;;
  items_downloads (history_reversed st) created.

(** From the display to the error boundary.  The display reads the
    session and leaves it as it is; an exception of one of its calls ends
    the run before the boundary. *)
Definition display (st : session) (pressed : option export_format) : session :=
  match render st pressed with
  | Ok _ => error_boundary st
  | Raise _ => st
  end.

(** A run on the main page: the form handling, when the form is
    submitted, and the display, unless the run was stopped or left by an
    exception. *)
Definition main_page (st : session) (submitted : option request)
    (pressed : option export_format) : session :=
  match submitted with
  | Some rq =>
      let o := form_handling st rq in
      match ending o with
      | Continue => display (state o) pressed
      | Stop | Raised _ => state o
      end
  | None => display st pressed
  end.

(** The session after one run of the script on a submission. *)
Definition script_run (st : session) (rq : request) : session :=
  main_page st (Some rq) None.

Definition session_after (st : session) (rqs : list request) : session :=
  fold_left script_run rqs st.

(** One run of the script.  On the welcome page nothing but the start
    button acts: it sets [show_main] and [st.rerun()] runs the script once
    more, with nothing pressed; without it [st.stop()] ends the run. *)
Definition script (st : session) (i : interaction) : session :=
  if show_main st then main_page st (submission i) (export_pressed i)
  else if start_clicked i then main_page (set_show_main true st) None None
  else st.

Definition script_runs (st : session) (acts : list interaction) : session :=
  fold_left script acts st.

(** * Vocabulary of the properties *)

(** ** Sanitizer and validator *)

Definition no_leading_space (s : pystr) : Prop :=
  match s with
  | [] => True
  | c :: _ => is_space c = false
  end.

Definition no_trailing_space (s : pystr) : Prop := no_leading_space (rev s).

Definition all_allowed (s : pystr) : Prop := Forall (fun c => allowed c = true) s.

(** What one field adds to the list of errors. *)
Definition field_errors (item : pystr * pystr) : list pystr :=
  validate_field [] item.

Definition name_errors (kw : kwargs) : list pystr :=
  if re_search_disallowed (dict_get kw (lit "user_name") [])
  then [invalid_name_msg] else [].

(** Fields whose titles differ pairwise are told apart by their messages. *)
Definition distinct_titles (kw : kwargs) : Prop :=
  NoDup (map (fun kv => field_title (fst kv)) kw).

(** A character of the set that the specification gives for the name:
    a word character, whitespace, or one of [@ . , -]. *)
Definition name_character (c : char) : Prop :=
  is_word c = true \/ is_space c = true
  \/ c = 64%N \/ c = 46%N \/ c = 44%N \/ c = 45%N.

(** Every field within the length bounds, and in the field [user_name]
    no character outside that set. *)
Definition all_fields_valid (kw : kwargs) : Prop :=
  (forall f v, In (f, v) kw -> 3 <= len v <= 500)
  /\ (forall v, In (lit "user_name", v) kw -> Forall name_character v).

(** ** Throttle guard and form handling *)

(** One day and five seconds, in microseconds. *)
Definition day_us : Z := 86400000000.
Definition five_seconds_us : Z := 5000000.

Definition stopped_for_errors (st : session) : outcome :=
  {| state := st; shown := [UiError too_many_errors_msg];
     stages := [ThrottleGuard]; ending := Stop |}.

(** Why a submission ends before the advice call, if it does. *)
Inductive rejection :=
| ErrorCeiling
| RateLimit
| EmptyField
| ValidationErrors.

Definition rejected (st : session) (rq : request) : option rejection :=
  match throttle_guard (api_errors st) (last_request st) (now_check rq) with
  | DenyTooManyErrors => Some ErrorCeiling
  | DenyRateLimited => Some RateLimit
  | Allow =>
      if negb (all_filled (form rq)) then Some EmptyField
      else match validate_inputs (items (clean_profile (form rq))) with
           | _ :: _ => Some ValidationErrors
           | [] => None
           end
  end.

(** How the external service answers the prompt of this submission. *)
Definition advice_reply (rq : request) : reply :=
  let cleaned := clean_profile (form rq) in
  service rq
    (build_prompt (interests cleaned) (skills cleaned) (education cleaned)
       (goals cleaned)).

(** How an advice call fails: the service raises, be it unavailable or
    anything unexpected, or it answers with no text. *)
Inductive advice_failure :=
| ServiceRaised (e : exn)
| EmptyResponse.

Definition failure_of (r : reply) : option advice_failure :=
  match r with
  | Text [] => Some EmptyResponse
  | Text (_ :: _) => None
  | Raises e => Some (ServiceRaised e)
  end.

(** The advice call of a submission that is not rejected fails. *)
Definition advice_call_fails (st : session) (rq : request) : Prop :=
  rejected st rq = None /\ failure_of (advice_reply rq) <> None.

Definition advice_stages : list stage :=
  [ThrottleGuard; Sanitizer; Validator; AdviceClient].

(** The same submission with another service behind it. *)
Definition set_service (svc : pystr -> reply) (rq : request) : request :=
  {| form := form rq; now_check := now_check rq; now_entry := now_entry rq;
     now_done := now_done rq; service := svc |}.

(** The same submission with another form typed in. *)
Definition set_form (f : profile) (rq : request) : request :=
  {| form := f; now_check := now_check rq; now_entry := now_entry rq;
     now_done := now_done rq; service := service rq |}.

(** The order the specification gives, seen from outside: the validator
    rejects before the guard is asked, so a complete form that the
    validator refuses is answered with the validator's messages, whatever
    the session. *)
Definition validator_rejects_first (handler : session -> request -> outcome) : Prop :=
  forall st rq,
    all_filled (form rq) = true ->
    validate_inputs (items (clean_profile (form rq))) <> [] ->
    shown (handler st rq)
    = map UiError (validate_inputs (items (clean_profile (form rq)))).

(** ** History store *)

(** The advice of a successful request: nothing rejected the submission
    and the service answered with a text. *)
Definition advice_of (st : session) (rq : request) : option pystr :=
  match rejected st rq, advice_reply rq with
  | None, Text (c :: t) => Some (c :: t)
  | _, _ => None
  end.

(** The entries of a sequence of requests that all succeed, each run from
    the session the one before left; [None] if one of them does not. *)
Fixpoint successes (st : session) (rqs : list request) : option (list entry) :=
  match rqs with
  | [] => Some []
  | rq :: rest =>
      match advice_of st rq, successes (script_run st rq) rest with
      | Some a, Some es => Some (new_entry (clean_profile (form rq)) rq a :: es)
      | _, _ => None
      end
  end.

(** ** PDF exporter *)

Definition is_paragraph (f : flowable) : bool :=
  match f with
  | Paragraph _ _ => true
  | Spacer _ _ => false
  end.

(** The text blocks of a story. *)
Definition paragraphs (story : list flowable) : nat :=
  length (filter is_paragraph story).

Definition nonempty_lines (content : pystr) : nat :=
  length (filter truthy (split_lines content)).

Definition line_blocks (line : pystr) : list flowable :=
  [Paragraph line (line_style line); Spacer 1 3].

Definition title_blocks (title : pystr) : list flowable :=
  [Paragraph (lit "<b>" ++ title ++ lit "</b>") Title; Spacer 1 12].

(** The style the specification gives a line: the heading style when the
    line begins with [#], code point 35, the body style otherwise. *)
Definition specified_style (line : pystr) : style :=
  match line with
  | 35%N :: _ => Heading2
  | _ => BodyText
  end.

(** The document the specification describes: the title block in the
    title style, then for every line a paragraph in its style and a small
    spacer. *)
Definition specified_story (content title : pystr) : list flowable :=
  [Paragraph (lit "<b>" ++ title ++ lit "</b>") Title; Spacer 1 12]
  ++ flat_map (fun line => [Paragraph line (specified_style line); Spacer 1 3])
       (split_lines content).

(** reportlab accepts every paragraph of a story. *)
Definition parses (story : list flowable) : Prop :=
  forall text s, In (Paragraph text s) story -> paragraph_check text s = None.

(** ** JSON exporter *)

(** Induction on values, through the items of dictionaries and lists. *)
Section PyvalInduction.

Variable P : pyval -> Prop.
Hypothesis P_str : forall s, P (PStr s).
Hypothesis P_dict : forall d, Forall (fun kv => P (snd kv)) d -> P (PDict d).
Hypothesis P_list : forall l, Forall P l -> P (PList l).

Fixpoint pyval_induction (v : pyval) : P v :=
  match v with
  | PStr s => P_str s
  | PDict d =>
      P_dict d
        ((fix items (d : list (pystr * pyval)) : Forall (fun kv => P (snd kv)) d :=
            match d with
            | [] => Forall_nil _
            | kv :: d' => Forall_cons kv (pyval_induction (snd kv)) (items d')
            end) d)
  | PList l =>
      P_list l
        ((fix elements (l : list pyval) : Forall P l :=
            match l with
            | [] => Forall_nil _
            | x :: l' => Forall_cons x (pyval_induction x) (elements l')
            end) l)
  end.

End PyvalInduction.

(** The values and items the decoder reads for a value. *)
Fixpoint size (v : pyval) : nat :=
  match v with
  | PStr _ => 1
  | PDict d => S (fold_right (fun kv n => S (size (snd kv)) + n) 0 d)
  | PList l => S (fold_right (fun x n => S (size x) + n) 0 l)
  end.

Definition items_size (d : list (pystr * pyval)) : nat :=
  fold_right (fun kv n => S (size (snd kv)) + n) 0 d.

Definition elements_size (l : list pyval) : nat :=
  fold_right (fun x n => S (size x) + n) 0 l.

(** A Python dictionary has each key once, at every depth. *)
Fixpoint unique_keys (v : pyval) : Prop :=
  match v with
  | PStr _ => True
  | PDict d =>
      NoDup (map fst d)
      /\ fold_right (fun kv Q => unique_keys (snd kv) /\ Q) True d
  | PList l => fold_right (fun x Q => unique_keys x /\ Q) True l
  end.

Definition encode_item (level : nat) (kv : pystr * pyval) : pystr :=
  let '(k, x) := kv in
  encode_basestring k ++ lit ": " ++ iterencode (S level) x.

Definition item_separator (level : nat) : pystr :=
  44%N :: newline_indent (S level).

(** What follows an item: the next items, then the closing line. *)
Fixpoint object_tail (level : nat) (d : list (pystr * pyval)) : pystr :=
  match d with
  | [] => newline_indent level ++ [125%N]
  | kv :: d' =>
      item_separator level ++ encode_item level kv ++ object_tail level d'
  end.

Fixpoint array_tail (level : nat) (l : list pyval) : pystr :=
  match l with
  | [] => newline_indent level ++ [93%N]
  | x :: l' =>
      item_separator level ++ iterencode (S level) x ++ array_tail level l'
  end.

(** With enough fuel, [scan_once] reads the encoding of [v] back and
    stops where it ends. *)
Definition reads_back (v : pyval) : Prop :=
  forall level fuel rest,
    size v <= fuel ->
    scan_once fuel (iterencode level v ++ rest) = Some (v, rest).

(** A key between its quotes, code point 34. *)
Definition quoted (key : string) : pystr := [34%N] ++ lit key ++ [34%N].

(** ** Text exporter *)

(** The code points of a Python [str], and those among them that UTF-8
    can encode: all but the surrogates. *)
Definition code_point (c : char) : Prop := (c < 1114112)%N.

Definition surrogate (c : char) : Prop := in_range 55296 57343 c = true.

Definition encodable (c : char) : Prop :=
  code_point c /\ in_range 55296 57343 c = false.

(** ** Sanitized text *)

(** [deletes_from s t]: [s] is [t] with some characters deleted, the
    others kept in their order. *)
Inductive deletes_from : pystr -> pystr -> Prop :=
| deletes_nil : deletes_from [] []
| deletes_keep c s t : deletes_from s t -> deletes_from (c :: s) (c :: t)
| deletes_drop c s t : deletes_from s t -> deletes_from s (c :: t).

(** The characters with a meaning in HTML: [<], [>], [&] and the two
    quotes. *)
Definition html_special (c : char) : bool :=
  (c =? 60)%N || (c =? 62)%N || (c =? 38)%N || (c =? 34)%N || (c =? 39)%N.

(** ** Sessions *)

(** What the script stores of a request: the name is the cleaned name of
    the inputs, every input is sanitized and within the length bounds, and
    there is an advice. *)
Definition stored_ok (e : entry) : Prop :=
  name e = user_name (inputs e)
  /\ (forall f v, In (f, v) (items (inputs e)) ->
        3 <= len v <= 500
        /\ all_allowed v /\ no_leading_space v /\ no_trailing_space v)
  /\ advice e <> [].

(** What every run of the script keeps, from the initial state on. *)
Definition session_inv (st : session) : Prop :=
  api_errors st = 0%Z
  /\ error st = false
  /\ (history st = [] <-> last_request st = None)
  /\ (show_main st = false -> st = required_states)
  /\ Forall stored_ok (history st).

(** ** Lines and documents *)

(** The number of newline characters of a text. *)
Definition newlines (s : pystr) : nat :=
  length (filter (fun c => (c =? 10)%N) s).

(** The texts of the paragraphs of a story, in order. *)
Definition paragraph_texts (story : list flowable) : list pystr :=
  flat_map (fun f => match f with
                     | Paragraph text _ => [text]
                     | Spacer _ _ => []
                     end) story.

(** Lists of lines put one after the other with [sep] between them. *)
Fixpoint between {A} (sep : list A) (chunks : list (list A)) : list A :=
  match chunks with
  | [] => []
  | [c] => c
  | c :: rest => c ++ sep ++ between sep rest
  end.

(** The lines of one entry in the bulk document: those of the header, an
    empty line, those of the advice. *)
Definition entry_lines (e : entry) : list pystr :=
  split_lines (name e ++ lit " (" ++ timestamp e ++ lit ")")
  ++ [[]] ++ split_lines (advice e).

(** The lines of the export of a value: one for a string and for an empty
    dictionary or list, otherwise those of the items and two for the
    brackets. *)
Fixpoint json_lines (v : pyval) : nat :=
  match v with
  | PStr _ => 1
  | PDict [] => 1
  | PDict d => 2 + fold_right (fun kv n => json_lines (snd kv) + n) 0 d
  | PList [] => 1
  | PList l => 2 + fold_right (fun x n => json_lines x + n) 0 l
  end.

(** The export of [v] has the lines its shape gives, at every nesting
    level. *)
Definition line_count_holds (v : pyval) : Prop :=
  forall level, S (newlines (iterencode level v)) = json_lines v.

(** ** Downloads *)

(** The keys of the three buttons of a history item. *)
Definition entry_keys (e : entry) : list pystr :=
  [lit "pdf_" ++ timestamp e; lit "text_" ++ timestamp e;
   lit "json_" ++ timestamp e].

Definition plan_extensions : list pystr := [lit ".pdf"; lit ".txt"; lit ".json"].

(** The keys of the two buttons of the current plan. *)
Definition plan_keys : list pystr := [lit "pdf_export"; lit "text_export"].

(** A display as the list of its calls of [st.download_button], each
    with its arguments evaluated, which may raise; [create] makes them one
    after the other. *)
Fixpoint create (calls : list (result download)) (created : list download)
  : result (list download) :=
  match calls with
  | [] => Ok created
  | call :: rest =>
      d <- call;;
      created <- download_button d created;;
      create rest created
  end.

Definition text_call (e : entry) (k : pystr) : result download :=
  bytes <- text_data (advice e);; Ok (text_button e bytes k).

Definition plan_calls (e : entry) : list (result download) :=
  [Ok (pdf_button e (lit "pdf_export")); text_call e (lit "text_export")].

Definition entry_calls (e : entry) : list (result download) :=
  [Ok (pdf_button e (lit "pdf_" ++ timestamp e));
   text_call e (lit "text_" ++ timestamp e);
   Ok (json_button e (lit "json_" ++ timestamp e))].

Definition page_calls (st : session) : list (result download) :=
  match latest st with
  | None => []
  | Some e => plan_calls e
  end ++ flat_map entry_calls (history_reversed st).

(** A button whose data can be filed. *)
Definition has_data (d : download) : Prop :=
  exists bytes, marshall_file (data d) = Ok bytes.

(** Every document of the history is generated, and every advice and
    every entry can be encoded: nothing but a key can fail a button. *)
Definition exports_succeed (st : session) : Prop :=
  forall e, In e (history st) ->
    pdf_data (advice e) (plan_title e) <> NoData
    /\ export_text (advice e) <> None
    /\ export_text (export_json (entry_value e)) <> None.

(** The timestamps that give every button of a page a key of its own. *)
Definition distinct_timestamps (st : session) : Prop :=
  NoDup (map timestamp (history st))
  /\ ~ In (lit "export") (map timestamp (history st)).

(** ** Sample inputs *)

(** Unicode tables in which no code point from 128 on is a word or
    whitespace character, and a clock format with a fixed answer. *)
Definition ascii_only : char -> bool := fun _ => false.
Definition title_unchanged : pystr -> pystr := fun s => s.
Definition fixed_stamp : datetime -> pystr := fun _ => lit "03 Nov 2026 09:31".

Definition jane : profile :=
  {| user_name := lit "Jane Doe";
     education := lit "B.Tech CSE";
     skills := lit "Python";
     goals := lit "AI Engineer";
     interests := lit "Machine Learning" |}.

(** The same form with an exclamation mark in the name. *)
Definition marked_name : profile :=
  {| user_name := lit "Jane!";
     education := lit "B.Tech CSE";
     skills := lit "Python";
     goals := lit "AI Engineer";
     interests := lit "Machine Learning" |}.

(** The same form with a name of two characters. *)
Definition short_name : profile :=
  {| user_name := lit "Al";
     education := lit "B.Tech CSE";
     skills := lit "Python";
     goals := lit "AI Engineer";
     interests := lit "Machine Learning" |}.

Definition path_one : pystr := lit "## Path 1" ++ newline ++ lit "Study.".

Definition two_lines : pystr := lit "# Plan" ++ newline ++ lit "Study.".

Definition answers (r : reply) : pystr -> reply := fun _ => r.

Definition unavailable : exn :=
  {| type_name := lit "ServiceUnavailable";
     message := lit "503 The model is overloaded." |}.

Definition submit (f : profile) (now : datetime) (r : reply) : request :=
  {| form := f; now_check := now; now_entry := now; now_done := now;
     service := answers r |}.

Definition second_us : Z := 1000000.

Definition over_ceiling : session := set_api_errors 4 required_states.

(** The session once the welcome screen is left. *)
Definition started : session :=
  {| show_main := true; history := []; api_errors := 0;
     last_request := None; error := false |}.

Definition jane_entry (advice : pystr) : entry :=
  {| name := lit "Jane Doe"; timestamp := lit "03 Nov 2026 09:31";
     inputs := jane; advice := advice |}.

Definition every_paragraph_parses : pystr -> style -> option exn :=
  fun _ _ => None.

Definition pdf_bytes : list N := [37; 80; 68; 70]%N.

Definition builds : list flowable -> result (list N) := fun _ => Ok pdf_bytes.

(** reportlab refusing to build, and Streamlit's two exceptions. *)
Definition build_fails : list flowable -> result (list N) :=
  fun _ => Raise {| type_name := lit "LayoutError"; message := lit "too large" |}.

Definition key_given_twice : pystr -> exn :=
  fun k => {| type_name := lit "StreamlitDuplicateElementKey"; message := k |}.

Definition data_missing : exn :=
  {| type_name := lit "StreamlitAPIException";
     message := lit "Invalid binary data format" |}.

(** ** More sample inputs *)

Definition cafe : pystr := lit "caf" ++ [233%N].

Definition lone_surrogate : pystr := [55296%N].

(** A session on the main page with one stored entry. *)
Definition stored_once : session :=
  {| show_main := true; history := [jane_entry path_one]; api_errors := 0;
     last_request := Some 0%Z; error := false |}.

(** Two entries of the same minute: the same timestamp. *)
Definition stamped_alike : session :=
  {| show_main := true;
     history := [jane_entry path_one; jane_entry (lit "## Path 2")];
     api_errors := 0; last_request := Some 6000000%Z; error := false |}.

Definition press_start : interaction :=
  {| start_clicked := true; submission := None; export_pressed := None |}.

Definition submits (rq : request) : interaction :=
  {| start_clicked := false; submission := Some rq; export_pressed := None |}.

(** * Properties *)

(** ** Sanitizer *)

Lemma lstrip_no_leading s : no_leading_space (lstrip s).
Proof.
  induction s as [|c s IH]; simpl; [exact I|].
  destruct (is_space c) eqn:E; [exact IH | exact E].
Qed.

Lemma lstrip_id s : no_leading_space s -> lstrip s = s.
Proof.
  destruct s as [|c s]; simpl; [reflexivity|].
  intros ->. reflexivity.
Qed.

Lemma lstrip_suffix s : exists sp, s = sp ++ lstrip s.
Proof.
  induction s as [|c s [sp IH]]; simpl.
  - exists []. reflexivity.
  - destruct (is_space c).
    + exists (c :: sp). simpl. f_equal. exact IH.
    + exists []. reflexivity.
Qed.

Lemma lstrip_snoc t c :
  is_space c = false -> exists u, lstrip (t ++ [c]) = u ++ [c].
Proof.
  intros Hc. induction t as [|a t [u IH]]; simpl.
  - rewrite Hc. exists []. reflexivity.
  - destruct (is_space a).
    + exists u. exact IH.
    + exists (a :: t). reflexivity.
Qed.

Lemma rstrip_no_trailing s : no_trailing_space (rstrip s).
Proof.
  unfold no_trailing_space, rstrip. rewrite rev_involutive.
  apply lstrip_no_leading.
Qed.

Lemma rstrip_id s : no_trailing_space s -> rstrip s = s.
Proof.
  unfold no_trailing_space, rstrip. intros H.
  rewrite (lstrip_id _ H). apply rev_involutive.
Qed.

Lemma rstrip_keeps_leading s : no_leading_space s -> no_leading_space (rstrip s).
Proof.
  destruct s as [|c r]; intros H.
  - exact I.
  - unfold rstrip. simpl rev.
    destruct (lstrip_snoc (rev r) c H) as [u ->].
    rewrite rev_app_distr. simpl. exact H.
Qed.

Lemma rstrip_prefix s : exists sp, s = rstrip s ++ sp.
Proof.
  unfold rstrip. destruct (lstrip_suffix (rev s)) as [sp H].
  exists (rev sp).
  rewrite <- rev_app_distr, <- H. symmetry. apply rev_involutive.
Qed.

Lemma strip_all_allowed s : all_allowed s -> all_allowed (strip s).
Proof.
  unfold all_allowed, strip. intros H.
  destruct (lstrip_suffix s) as [sp Hs].
  destruct (rstrip_prefix (lstrip s)) as [sq Hq].
  rewrite Hs in H. apply Forall_app in H as [_ H].
  rewrite Hq in H. apply Forall_app in H as [H _]. exact H.
Qed.

Lemma strip_id s : no_leading_space s -> no_trailing_space s -> strip s = s.
Proof.
  intros Hl Ht. unfold strip. rewrite (lstrip_id _ Hl). apply rstrip_id, Ht.
Qed.

Lemma re_sub_all_allowed s : all_allowed (re_sub_disallowed s).
Proof.
  unfold all_allowed, re_sub_disallowed. apply Forall_forall.
  intros c Hc. apply filter_In in Hc. exact (proj2 Hc).
Qed.

Lemma re_sub_id s : all_allowed s -> re_sub_disallowed s = s.
Proof.
  unfold all_allowed, re_sub_disallowed.
  induction 1 as [|c s Hc _ IH]; simpl; [reflexivity|].
  rewrite Hc, IH. reflexivity.
Qed.

Lemma clean_input_cons c t :
  clean_input (Some (c :: t)) = strip (re_sub_disallowed (c :: t)).
Proof. reflexivity. Qed.

Lemma clean_input_all_allowed text : all_allowed (clean_input text).
Proof.
  destruct text as [[|c t]|]; try constructor.
  rewrite clean_input_cons. apply strip_all_allowed, re_sub_all_allowed.
Qed.

Lemma clean_input_no_leading text : no_leading_space (clean_input text).
Proof.
  destruct text as [[|c t]|]; try exact I.
  rewrite clean_input_cons. apply rstrip_keeps_leading, lstrip_no_leading.
Qed.

Lemma clean_input_no_trailing text : no_trailing_space (clean_input text).
Proof.
  destruct text as [[|c t]|]; try exact I.
  rewrite clean_input_cons. apply rstrip_no_trailing.
Qed.

Lemma clean_input_fixed s :
  all_allowed s -> no_leading_space s -> no_trailing_space s ->
  clean_input (Some s) = s.
Proof.
  intros Ha Hl Ht. destruct s as [|c s]; [reflexivity|].
  rewrite clean_input_cons, (re_sub_id _ Ha). apply strip_id; assumption.
Qed.

(** C6: the sanitized text holds only word characters, whitespace and
    [@ . , -], neither starts nor ends with whitespace, sanitizing it again
    changes nothing, and the empty text and [None] give the empty string. *)
Theorem clean_input_sanitizes :
  (forall text : option pystr,
      all_allowed (clean_input text)
      /\ no_leading_space (clean_input text)
      /\ no_trailing_space (clean_input text)
      /\ clean_input (Some (clean_input text)) = clean_input text)
  /\ clean_input (Some []) = []
  /\ clean_input None = [].
Proof.
  split; [|split; reflexivity].
  intros text.
  pose proof (clean_input_all_allowed text) as Ha.
  pose proof (clean_input_no_leading text) as Hl.
  pose proof (clean_input_no_trailing text) as Ht.
  repeat split; try assumption.
  apply clean_input_fixed; assumption.
Qed.

(** The scenario of the sanitizer: the marks go, the name is trimmed. *)
Example clean_input_john :
  clean_input (Some (lit "John@Doe!!!  ")) = lit "John@Doe".
Proof. reflexivity. Qed.

(** ** Validator *)

Lemma pystr_eqb_eq a b : pystr_eqb a b = true <-> a = b.
Proof.
  unfold pystr_eqb. destruct (list_eq_dec N.eq_dec a b); split; congruence.
Qed.

Lemma validate_field_app errors item :
  validate_field errors item = errors ++ field_errors item.
Proof.
  destruct item as [f v]. unfold field_errors, validate_field.
  destruct (len v <? 3), (500 <? len v); simpl;
    rewrite ?app_nil_r, <- ?app_assoc; reflexivity.
Qed.

Lemma fold_validate_field kw :
  forall errors,
    fold_left validate_field kw errors = errors ++ flat_map field_errors kw.
Proof.
  induction kw as [|item kw IH]; intros errors; simpl.
  - symmetry. apply app_nil_r.
  - rewrite IH, validate_field_app, <- app_assoc. reflexivity.
Qed.

Lemma validate_inputs_blocks kw :
  validate_inputs kw = flat_map field_errors kw ++ name_errors kw.
Proof.
  unfold validate_inputs, name_errors. rewrite fold_validate_field. simpl.
  destruct (re_search_disallowed _); [reflexivity|].
  symmetry. apply app_nil_r.
Qed.

(** The three kinds of message end in [')'], ['s'] and ['e']. *)
Ltac by_last_char H :=
  apply (f_equal (@rev char)) in H;
  rewrite ?rev_app_distr in H; simpl in H; discriminate H.

Lemma short_is_not_long f g : too_short_msg f <> too_long_msg g.
Proof. unfold too_short_msg, too_long_msg. intros H. by_last_char H. Qed.

Lemma short_is_not_invalid f : too_short_msg f <> invalid_name_msg.
Proof.
  unfold too_short_msg, invalid_name_msg. intros H.
  change (lit "Invalid characters in name")
    with ([] ++ lit "Invalid characters in name") in H.
  by_last_char H.
Qed.

Lemma long_is_not_invalid f : too_long_msg f <> invalid_name_msg.
Proof.
  unfold too_long_msg, invalid_name_msg. intros H.
  change (lit "Invalid characters in name")
    with ([] ++ lit "Invalid characters in name") in H.
  by_last_char H.
Qed.

Lemma in_field_errors_short f g v :
  In (too_short_msg f) (field_errors (g, v))
  <-> field_title f = field_title g /\ len v < 3.
Proof.
  unfold field_errors, validate_field.
  destruct (Nat.ltb_spec (len v) 3), (Nat.ltb_spec 500 (len v)); simpl;
    try lia; split.
  - intros [E|[]]. apply app_inv_tail in E. split; [congruence | assumption].
  - intros [Ht _]. left. unfold too_short_msg. rewrite Ht. reflexivity.
  - intros [E|[]]. symmetry in E. apply short_is_not_long in E. destruct E.
  - intros [_ Hl]. lia.
Qed.

Lemma in_field_errors_long f g v :
  In (too_long_msg f) (field_errors (g, v))
  <-> field_title f = field_title g /\ 500 < len v.
Proof.
  unfold field_errors, validate_field.
  destruct (Nat.ltb_spec (len v) 3), (Nat.ltb_spec 500 (len v)); simpl;
    try lia; split.
  - intros [E|[]]. apply short_is_not_long in E. destruct E.
  - intros [_ Hl]. lia.
  - intros [E|[]]. apply app_inv_tail in E. split; [congruence | assumption].
  - intros [Ht _]. left. unfold too_long_msg. rewrite Ht. reflexivity.
Qed.

Lemma in_validate_short f kw :
  In (too_short_msg f) (validate_inputs kw)
  <-> exists g v, In (g, v) kw /\ field_title f = field_title g /\ len v < 3.
Proof.
  rewrite validate_inputs_blocks, in_app_iff, in_flat_map. split.
  - intros [[[g v] [Hin H]]|H].
    + exists g, v. split; [exact Hin|]. apply in_field_errors_short, H.
    + unfold name_errors in H. destruct (re_search_disallowed _); simpl in H.
      * destruct H as [H|[]]. symmetry in H. apply short_is_not_invalid in H. destruct H.
      * destruct H.
  - intros [g [v [Hin H]]]. left. exists (g, v). split; [exact Hin|].
    apply in_field_errors_short, H.
Qed.

Lemma in_validate_long f kw :
  In (too_long_msg f) (validate_inputs kw)
  <-> exists g v, In (g, v) kw /\ field_title f = field_title g /\ 500 < len v.
Proof.
  rewrite validate_inputs_blocks, in_app_iff, in_flat_map. split.
  - intros [[[g v] [Hin H]]|H].
    + exists g, v. split; [exact Hin|]. apply in_field_errors_long, H.
    + unfold name_errors in H. destruct (re_search_disallowed _); simpl in H.
      * destruct H as [H|[]]. symmetry in H. apply long_is_not_invalid in H. destruct H.
      * destruct H.
  - intros [g [v [Hin H]]]. left. exists (g, v). split; [exact Hin|].
    apply in_field_errors_long, H.
Qed.

Lemma distinct_titles_same kw :
  distinct_titles kw ->
  forall f v g w,
    In (f, v) kw -> In (g, w) kw -> field_title f = field_title g ->
    (f, v) = (g, w).
Proof.
  unfold distinct_titles.
  induction kw as [|[k x] kw IH]; simpl; intros Hnd f v g w Hf Hg Ht.
  - destruct Hf.
  - inversion Hnd as [|? ? Hnotin Hnd']; subst.
    destruct Hf as [Hf|Hf], Hg as [Hg|Hg].
    + congruence.
    + exfalso. apply Hnotin. inversion Hf; subst.
      rewrite Ht. apply (in_map (fun kv => field_title (fst kv)) kw (g, w) Hg).
    + exfalso. apply Hnotin. inversion Hg; subst.
      rewrite <- Ht. apply (in_map (fun kv => field_title (fst kv)) kw (f, v) Hf).
    + apply IH; assumption.
Qed.

Lemma field_errors_nil f v : field_errors (f, v) = [] <-> 3 <= len v <= 500.
Proof.
  unfold field_errors, validate_field.
  destruct (Nat.ltb_spec (len v) 3), (Nat.ltb_spec 500 (len v)); simpl;
    split; intros E; try discriminate E; try lia; reflexivity.
Qed.

Lemma flat_map_nil {A B} (f : A -> list B) l :
  flat_map f l = [] <-> forall a, In a l -> f a = [].
Proof.
  induction l as [|a l IH]; simpl.
  - split; [intros _ a [] | reflexivity].
  - split.
    + intros E. apply app_eq_nil in E as [Ha Hl]. intros b [<-|Hb]; [exact Ha|].
      apply IH; assumption.
    + intros H. rewrite (H a (or_introl eq_refl)). simpl. apply IH.
      intros b Hb. apply H. right. exact Hb.
Qed.

Lemma validate_inputs_nil kw :
  validate_inputs kw = []
  <-> (forall f v, In (f, v) kw -> 3 <= len v <= 500)
      /\ re_search_disallowed (dict_get kw (lit "user_name") []) = false.
Proof.
  rewrite validate_inputs_blocks. unfold name_errors. split.
  - intros E. apply app_eq_nil in E as [Hf Hn]. split.
    + intros f v Hin. apply (field_errors_nil f).
      apply (proj1 (flat_map_nil field_errors kw) Hf (f, v) Hin).
    + destruct (re_search_disallowed _); [discriminate Hn | reflexivity].
  - intros [Hf Hn]. rewrite Hn, app_nil_r. apply flat_map_nil.
    intros [f v] Hin. apply field_errors_nil. apply (Hf f v Hin).
Qed.

(** The character class of the two regular expressions is the set of the
    specification. *)
Lemma allowed_name_character c : allowed c = true <-> name_character c.
Proof.
  unfold allowed, name_character.
  rewrite !orb_true_iff, !N.eqb_eq. split.
  - intros [[[[[H|H]|H]|H]|H]|H].
    + left. exact H.
    + right. left. exact H.
    + right. right. left. exact H.
    + right. right. right. left. exact H.
    + right. right. right. right. left. exact H.
    + right. right. right. right. right. exact H.
  - intros [H|[H|[H|[H|[H|H]]]]].
    + left. left. left. left. left. exact H.
    + left. left. left. left. right. exact H.
    + left. left. left. right. exact H.
    + left. left. right. exact H.
    + left. right. exact H.
    + right. exact H.
Qed.

Lemma re_search_name_characters text :
  re_search_disallowed text = false <-> Forall name_character text.
Proof.
  unfold re_search_disallowed. induction text as [|c text IH]; simpl.
  - split; [constructor | reflexivity].
  - rewrite orb_false_iff, negb_false_iff, IH, allowed_name_character. split.
    + intros [Hc Ht]. constructor; assumption.
    + intros H. inversion H; subst. split; assumption.
Qed.

Lemma dict_get_in kw key :
  NoDup (map fst kw) ->
  forall v, In (key, v) kw -> dict_get kw key [] = v.
Proof.
  induction kw as [|[k x] kw IH]; simpl; intros Hnd v Hin; [destruct Hin|].
  inversion Hnd as [|? ? Hnotin Hnd']; subst.
  destruct (pystr_eqb k key) eqn:E.
  - apply pystr_eqb_eq in E. subst k. destruct Hin as [Hin|Hin]; [congruence|].
    exfalso. apply Hnotin. apply (in_map fst kw (key, v) Hin).
  - destruct Hin as [Hin|Hin]; [|apply IH; assumption].
    injection Hin as -> ->.
    assert (T : pystr_eqb key key = true) by (apply pystr_eqb_eq; reflexivity).
    rewrite T in E. discriminate E.
Qed.

Lemma dict_get_default kw key :
  dict_get kw key [] = [] \/ In (key, dict_get kw key []) kw.
Proof.
  induction kw as [|[k x] kw IH]; simpl; [left; reflexivity|].
  destruct (pystr_eqb k key) eqn:E.
  - apply pystr_eqb_eq in E. subst k. right. left. reflexivity.
  - destruct IH as [IH|IH]; [left; exact IH | right; right; exact IH].
Qed.

Lemma all_fields_valid_iff kw :
  NoDup (map fst kw) ->
  (all_fields_valid kw
   <-> (forall f v, In (f, v) kw -> 3 <= len v <= 500)
       /\ re_search_disallowed (dict_get kw (lit "user_name") []) = false).
Proof.
  intros Hnd. unfold all_fields_valid. split; intros [Hl Hn]; (split; [exact Hl|]).
  - apply re_search_name_characters.
    destruct (dict_get_default kw (lit "user_name")) as [E|Hin].
    + rewrite E. constructor.
    + apply (Hn _ Hin).
  - intros v Hin. rewrite <- (dict_get_in kw (lit "user_name") Hnd v Hin).
    apply re_search_name_characters, Hn.
Qed.

(** C5: for a field of length L the "too short" message is in the result
    iff L < 3, the "exceeds 500 chars" message iff L > 500, never both; and
    the result is empty iff every field is valid: within the length bounds,
    and the field [user_name] made of word characters, whitespace and
    [@ . , -] only.  A message names its field by the field's title, so the
    fields are taken with distinct titles; the keys of a dictionary are
    distinct. *)
Theorem validate_inputs_lengths (kw : kwargs) :
  (distinct_titles kw ->
   forall field value, In (field, value) kw ->
     (In (too_short_msg field) (validate_inputs kw) <-> len value < 3)
     /\ (In (too_long_msg field) (validate_inputs kw) <-> 500 < len value)
     /\ ~ (In (too_short_msg field) (validate_inputs kw)
           /\ In (too_long_msg field) (validate_inputs kw)))
  /\ (NoDup (map fst kw) ->
      (validate_inputs kw = [] <-> all_fields_valid kw)).
Proof.
  split.
  2:{ intros Hnd. rewrite (all_fields_valid_iff kw Hnd).
      apply validate_inputs_nil. }
  intros Hd field value Hin.
  assert (Hs : In (too_short_msg field) (validate_inputs kw) <-> len value < 3).
  { rewrite in_validate_short. split.
    - intros [g [w [Hg [Ht Hl]]]].
      pose proof (distinct_titles_same kw Hd field value g w Hin Hg Ht) as E.
      inversion E; subst. exact Hl.
    - intros Hl. exists field, value. repeat split; assumption. }
  assert (Hg : In (too_long_msg field) (validate_inputs kw) <-> 500 < len value).
  { rewrite in_validate_long. split.
    - intros [g [w [Hg [Ht Hl]]]].
      pose proof (distinct_titles_same kw Hd field value g w Hin Hg Ht) as E.
      inversion E; subst. exact Hl.
    - intros Hl. exists field, value. repeat split; assumption. }
  split; [exact Hs|]. split; [exact Hg|].
  rewrite Hs, Hg. lia.
Qed.

Example field_titles_of_the_form p :
  map (fun kv => field_title (fst kv)) (items p)
  = [lit "User Name"; lit "Education"; lit "Skills"; lit "Goals";
     lit "Interests"].
Proof. reflexivity. Qed.

(** The form's five fields have five different titles. *)
Lemma items_distinct_titles p : distinct_titles (items p).
Proof.
  unfold distinct_titles. simpl.
  repeat (constructor; [simpl; intros H; repeat destruct H as [H|H];
                        try discriminate H; exact H|]).
  constructor.
Qed.

(** ** Throttle guard *)

(** Within one day of the last request the guard measures the interval as
    the message promises: denied below five seconds, allowed from exactly
    five seconds on. *)
Lemma rate_limit_within_a_day (n : Z) (last now : datetime) :
  (n <= 3)%Z ->
  (0 <= now - last < day_us)%Z ->
  (throttle_guard n (Some last) now = DenyRateLimited
   <-> (now - last < five_seconds_us)%Z)
  /\ (throttle_guard n (Some last) now = Allow
      <-> (five_seconds_us <= now - last)%Z).
Proof.
  unfold throttle_guard, timedelta_seconds, day_us, five_seconds_us.
  intros Hn Hd.
  destruct (Z.ltb_spec 3 n) as [Hc|_]; [lia|].
  rewrite Z.mod_small by exact Hd.
  pose proof (Z.div_mod (now - last) 1000000 ltac:(lia)) as Hdm.
  pose proof (Z.mod_pos_bound (now - last) 1000000 ltac:(lia)) as Hmb.
  destruct (Z.ltb_spec ((now - last) / 1000000) 5) as [Hq|Hq];
    split; split; intros; try reflexivity; try discriminate; lia.
Qed.

(** The [seconds] field drops whole days: the guard sees the interval
    modulo one day. *)
Lemma rate_limit_drops_days (n : Z) (last now : datetime) :
  throttle_guard n (Some last) (now + day_us)%Z = throttle_guard n (Some last) now.
Proof.
  unfold throttle_guard, timedelta_seconds, day_us.
  replace (now + 86400000000 - last)%Z with (now - last + 1 * 86400000000)%Z by lia.
  rewrite Z.mod_add by lia. reflexivity.
Qed.

Example timedelta_seconds_drops_the_day :
  timedelta_seconds (day_us + 2000000) 0 = 2%Z
  /\ timedelta_seconds 4999999 0 = 4%Z
  /\ timedelta_seconds 5000000 0 = 5%Z.
Proof. repeat split. Qed.

(** C2: a request made one day and two seconds after the last one is
    denied as rate limited, although far more than five seconds passed. *)
Theorem rate_limit_after_a_day :
  (five_seconds_us <= (day_us + 2000000) - 0)%Z
  /\ throttle_guard 0 (Some 0%Z) (day_us + 2000000)%Z = DenyRateLimited.
Proof. split; [discriminate | reflexivity]. Qed.

(** C3: above three errors the guard denies whatever the time of the last
    request and the clock, and the submission stops there; up to three
    errors the error rule never denies, so a stop is the rate limit's. *)
Theorem throttle_error_ceiling (st : session) (rq : request) :
  ((3 < api_errors st)%Z ->
   (forall last now,
       throttle_guard (api_errors st) last now = DenyTooManyErrors)
   /\ form_handling st rq = stopped_for_errors st)
  /\ ((api_errors st <= 3)%Z ->
      (forall last now,
          throttle_guard (api_errors st) last now <> DenyTooManyErrors)
      /\ form_handling st rq <> stopped_for_errors st).
Proof.
  split; intros Hn.
  - assert (G : forall last now,
               throttle_guard (api_errors st) last now = DenyTooManyErrors).
    { intros last now. unfold throttle_guard.
      destruct (Z.ltb_spec 3 (api_errors st)); [reflexivity | lia]. }
    split; [exact G|]. unfold form_handling. rewrite G. reflexivity.
  - assert (G : forall last now,
               throttle_guard (api_errors st) last now <> DenyTooManyErrors).
    { intros last now. unfold throttle_guard.
      destruct (Z.ltb_spec 3 (api_errors st)); [lia|].
      destruct last as [t|]; [|discriminate].
      destruct (timedelta_seconds now t <? 5)%Z; discriminate. }
    split; [exact G|]. unfold form_handling, stopped_for_errors.
    specialize (G (last_request st) (now_check rq)).
    destruct (throttle_guard _ _ _); [| contradiction | discriminate].
    destruct (negb (all_filled (form rq))); [discriminate|].
    destruct (validate_inputs _); [|discriminate].
    destruct (get_career_advice _ _ _ _ _ _) as [[st1 out] [a|e]]; discriminate.
Qed.

(** ** Form handling *)

Lemma form_handling_rejected st rq r :
  rejected st rq = Some r ->
  state (form_handling st rq) = st
  /\ ending (form_handling st rq) <> Raised empty_response
  /\ ~ In AdviceClient (stages (form_handling st rq)).
Proof.
  unfold rejected, form_handling.
  destruct (throttle_guard _ _ _); simpl.
  - destruct (negb (all_filled (form rq))); simpl.
    + intros _. repeat split; [discriminate | intros [H|[]]; discriminate H].
    + destruct (validate_inputs _); [discriminate|]. simpl.
      intros _. repeat split; [discriminate|].
      intros [H|[H|[H|[]]]]; discriminate H.
  - intros _. repeat split; [discriminate | intros [H|[]]; discriminate H].
  - intros _. repeat split; [discriminate | intros [H|[]]; discriminate H].
Qed.

(** A submission that is not rejected calls the advice client once and
    ends as the client's answer decides. *)
Lemma form_handling_accepted st rq :
  rejected st rq = None ->
  form_handling st rq =
    match advice_reply rq with
    | Text (c :: t) =>
        {| state :=
             set_last_request (now_done rq)
               (history_append
                  (new_entry (clean_profile (form rq)) rq (c :: t)) st);
           shown := []; stages := advice_stages; ending := Continue |}
    | _ =>
        {| state := st; shown := []; stages := advice_stages;
           ending := Raised attribute_error |}
    end.
Proof.
  unfold rejected, form_handling, advice_reply, get_career_advice.
  destruct (throttle_guard _ _ _); try discriminate.
  destruct (negb (all_filled (form rq))); try discriminate.
  destruct (validate_inputs _); try discriminate.
  intros _. simpl.
  destruct (service rq _) as [[|c t]|e]; reflexivity.
Qed.

Lemma stages_of_form_handling st rq :
  stages (form_handling st rq) =
    match rejected st rq with
    | Some ValidationErrors => [ThrottleGuard; Sanitizer; Validator]
    | Some _ => [ThrottleGuard]
    | None => advice_stages
    end.
Proof.
  destruct (rejected st rq) as [r|] eqn:R.
  - revert R. unfold rejected, form_handling.
    destruct (throttle_guard _ _ _); simpl.
    + destruct (negb (all_filled (form rq))); simpl.
      * intros [= <-]. reflexivity.
      * destruct (validate_inputs _); [discriminate|]. intros [= <-]. reflexivity.
    + intros [= <-]. reflexivity.
    + intros [= <-]. reflexivity.
  - rewrite (form_handling_accepted st rq R).
    destruct (advice_reply rq) as [[|c t]|e]; reflexivity.
Qed.

(** What rejects a submission, in the terms of its three checks. *)
Lemma rejected_some st rq :
  rejected st rq <> None
  <-> throttle_guard (api_errors st) (last_request st) (now_check rq) <> Allow
      \/ all_filled (form rq) = false
      \/ validate_inputs (items (clean_profile (form rq))) <> [].
Proof.
  unfold rejected.
  destruct (throttle_guard _ _ _).
  - destruct (all_filled (form rq)); simpl.
    + destruct (validate_inputs _) as [|m errors].
      * split; [intros H; destruct (H eq_refl)|].
        intros [H|[H|H]]; [destruct (H eq_refl) | discriminate H
                          | destruct (H eq_refl)].
      * split; [intros _; right; right; discriminate | discriminate].
    + split; [intros _; right; left; reflexivity | discriminate].
  - split; [intros _; left; discriminate | discriminate].
  - split; [intros _; left; discriminate | discriminate].
Qed.

(** The checks of a submission do not ask the service. *)
Lemma rejected_set_service svc st rq :
  rejected st (set_service svc rq) = rejected st rq.
Proof. reflexivity. Qed.

(** C4: the guard answers a submission first: the error ceiling, then
    the rate limit, each stopping the run, and with the same outcome
    whatever form was typed in.  Then comes the empty-field check, then the
    validator on the sanitized fields, and only a submission that passed
    them all reaches the advice client, with the sanitized fields; a
    submission that one of the checks rejected leaves the session as it
    is, and its outcome is the same whatever the service would answer. *)
Theorem form_handling_order (st : session) (rq : request) :
  let o := form_handling st rq in
  let guard := throttle_guard (api_errors st) (last_request st) (now_check rq) in
  let errors := validate_inputs (items (clean_profile (form rq))) in
  (guard = DenyTooManyErrors ->
   shown o = [UiError too_many_errors_msg] /\ ending o = Stop)
  /\ (guard = DenyRateLimited ->
      shown o = [UiWarning please_wait_msg] /\ ending o = Stop)
  /\ (guard = Allow -> all_filled (form rq) = false ->
      shown o = [UiError complete_all_msg] /\ ending o = Continue)
  /\ (guard = Allow -> all_filled (form rq) = true -> errors <> [] ->
      shown o = map UiError errors /\ ending o = Continue)
  /\ (guard = Allow -> all_filled (form rq) = true -> errors = [] ->
      match advice_reply rq with
      | Text (c :: t) =>
          state o
          = set_last_request (now_done rq)
              (history_append
                 (new_entry (clean_profile (form rq)) rq (c :: t)) st)
          /\ ending o = Continue
      | _ => state o = st /\ ending o = Raised attribute_error
      end)
  /\ (guard <> Allow \/ all_filled (form rq) = false \/ errors <> [] ->
      state o = st
      /\ forall svc, form_handling st (set_service svc rq) = o)
  /\ (guard <> Allow -> forall f, form_handling st (set_form f rq) = o).
Proof.
  intros o guard errors.
  assert (A : guard = Allow -> all_filled (form rq) = true -> errors = [] ->
              rejected st rq = None).
  { unfold rejected. fold guard. intros -> -> E. simpl. fold errors.
    rewrite E. reflexivity. }
  split; [|split; [|split; [|split; [|split; [|split]]]]].
  - subst o. unfold form_handling. fold guard. intros ->. split; reflexivity.
  - subst o. unfold form_handling. fold guard. intros ->. split; reflexivity.
  - subst o. unfold form_handling. fold guard. intros -> ->.
    split; reflexivity.
  - subst o. unfold form_handling. fold guard. intros -> -> E. simpl.
    fold errors. destruct errors as [|m errors]; [destruct (E eq_refl)|].
    split; reflexivity.
  - intros G F E. subst o. rewrite (form_handling_accepted st rq (A G F E)).
    destruct (advice_reply rq) as [[|c t]|e]; split; reflexivity.
  - intros H. apply rejected_some in H.
    destruct (rejected st rq) as [r|] eqn:R; [|destruct (H eq_refl)].
    split; [apply (form_handling_rejected st rq r R)|].
    intros svc. subst o. revert R. unfold rejected, form_handling. simpl.
    destruct (throttle_guard _ _ _); try reflexivity.
    destruct (negb (all_filled (form rq))); try reflexivity.
    destruct (validate_inputs _); [discriminate | reflexivity].
  - intros G f. subst o. unfold form_handling. simpl. fold guard.
    destruct guard; [destruct (G eq_refl) | reflexivity | reflexivity].
Qed.

(** C1: when the advice call of a submission fails, the service raising or
    answering with no text, the history is what it was: the whole session
    is, an exception leaves the form handling before the append, and the
    run ends there. *)
Theorem failed_advice_is_not_appended (st : session) (rq : request) :
  advice_call_fails st rq ->
  history (state (form_handling st rq)) = history st
  /\ state (form_handling st rq) = st
  /\ ending (form_handling st rq) = Raised attribute_error
  /\ script_run st rq = st.
Proof.
  intros [R F]. unfold script_run, main_page.
  rewrite (form_handling_accepted st rq R).
  destruct (advice_reply rq) as [[|c t]|e]; simpl;
    [| destruct (F eq_refl) |]; repeat split.
Qed.

(** C10: a submission rejected by the error ceiling, the rate limit, the
    empty-field check or the validator leaves the session as it found it. *)
Theorem rejected_keeps_session (st : session) (rq : request) (r : rejection) :
  rejected st rq = Some r ->
  state (form_handling st rq) = st
  /\ history (state (form_handling st rq)) = history st
  /\ api_errors (state (form_handling st rq)) = api_errors st
  /\ last_request (state (form_handling st rq)) = last_request st
  /\ error (state (form_handling st rq)) = error st
  /\ ~ In AdviceClient (stages (form_handling st rq)).
Proof.
  intros R. destruct (form_handling_rejected st rq r R) as [E [_ N]].
  rewrite E. repeat split. exact N.
Qed.

(** The error boundary belongs to every run that reaches the end of the
    script, rejected or not: it is there that a raised flag is cleared. *)
Lemma error_boundary_clears st :
  error (error_boundary st) = false
  /\ history (error_boundary st) = history st
  /\ api_errors (error_boundary st) = api_errors st
  /\ last_request (error_boundary st) = last_request st.
Proof.
  unfold error_boundary. destruct (error st) eqn:E; simpl; repeat split.
  exact E.
Qed.

(** ** History store *)

Lemma history_error_boundary st : history (error_boundary st) = history st.
Proof. apply error_boundary_clears. Qed.

(** The display changes the session at the boundary only. *)
Lemma display_cases st pressed :
  display st pressed = st \/ display st pressed = error_boundary st.
Proof.
  unfold display. destruct (render st pressed); [right | left]; reflexivity.
Qed.

Lemma history_display st pressed : history (display st pressed) = history st.
Proof.
  destruct (display_cases st pressed) as [-> | ->];
    [reflexivity | apply history_error_boundary].
Qed.

Lemma script_run_success st rq a :
  advice_of st rq = Some a ->
  history (script_run st rq)
  = history st ++ [new_entry (clean_profile (form rq)) rq a].
Proof.
  unfold advice_of, script_run, main_page.
  destruct (rejected st rq) eqn:R; [discriminate|].
  rewrite (form_handling_accepted st rq R).
  destruct (advice_reply rq) as [[|c t]|e]; try discriminate.
  intros [= <-]. simpl. apply history_display.
Qed.

(** Whatever a run does, the entries already stored stay, in place. *)
Lemma script_run_appends st rq :
  exists added, history (script_run st rq) = history st ++ added.
Proof.
  unfold script_run, main_page. destruct (rejected st rq) as [r|] eqn:R.
  - destruct (form_handling_rejected st rq r R) as [E _]. exists [].
    rewrite app_nil_r.
    destruct (ending (form_handling st rq));
      rewrite ?history_display, E; reflexivity.
  - rewrite (form_handling_accepted st rq R).
    destruct (advice_reply rq) as [[|c t]|e]; simpl;
      rewrite ?history_display; simpl;
      try (eexists; reflexivity); exists []; symmetry; apply app_nil_r.
Qed.

Lemma session_after_successes rqs :
  forall st es,
    successes st rqs = Some es ->
    history (session_after st rqs) = history st ++ es
    /\ length es = length rqs
    /\ Forall2 (fun rq e =>
                  exists a, e = new_entry (clean_profile (form rq)) rq a) rqs es.
Proof.
  unfold session_after.
  induction rqs as [|rq rqs IH]; intros st es; simpl.
  - intros [= <-]. rewrite app_nil_r. repeat split. constructor.
  - destruct (advice_of st rq) as [a|] eqn:A; [|discriminate].
    destruct (successes (script_run st rq) rqs) as [es'|] eqn:S; [|discriminate].
    intros [= <-]. destruct (IH _ _ S) as [H [L F]].
    rewrite H, (script_run_success st rq a A), <- app_assoc.
    simpl. repeat split; [congruence|]. constructor; [exists a; reflexivity | exact F].
Qed.

Lemma last_cons {A} (l : list A) :
  forall x d d', last (x :: l) d = last (x :: l) d'.
Proof.
  induction l as [|y l IH]; intros x d d'; [reflexivity|].
  change (last (y :: l) d = last (y :: l) d'). apply IH.
Qed.

Lemma latest_is_last st :
  latest st = nth_error (history st) (length (history st) - 1).
Proof.
  unfold latest. destruct (history st) as [|e h]; [reflexivity|].
  simpl length. rewrite Nat.sub_succ, Nat.sub_0_r.
  revert e. induction h as [|x h IH]; intros e; [reflexivity|].
  change (Some (last (x :: h) e) = nth_error (x :: h) (length h)).
  rewrite (last_cons h x e x). destruct h as [|y h]; [reflexivity|].
  rewrite <- IH. reflexivity.
Qed.

(** C7: after N successful requests in a session that starts with an
    empty history, the history is their N entries in the order of the
    requests, [latest] is the Nth, the reversed iteration gives them newest
    first; and no run of the script, successful or not, changes or drops an
    entry that is stored. *)
Theorem history_of_successes
    (st0 : session) (rqs : list request) (es : list entry) :
  history st0 = [] ->
  successes st0 rqs = Some es ->
  let st := session_after st0 rqs in
  history st = es
  /\ length (history st) = length rqs
  /\ Forall2 (fun rq e =>
                exists a, e = new_entry (clean_profile (form rq)) rq a) rqs es
  /\ latest st = nth_error es (length rqs - 1)
  /\ history_reversed st = rev es
  /\ (forall s rq,
         exists added, history (script_run s rq) = history s ++ added).
Proof.
  intros E S st.
  destruct (session_after_successes rqs st0 es S) as [H [L F]].
  rewrite E in H. simpl in H. fold st in H.
  repeat split.
  - exact H.
  - rewrite H. exact L.
  - exact F.
  - rewrite latest_is_last, H, L. reflexivity.
  - unfold history_reversed. rewrite H. reflexivity.
  - apply script_run_appends.
Qed.

(** ** PDF exporter *)

Example split_lines_keeps_empty_lines :
  split_lines (lit "a" ++ newline ++ newline ++ lit "b" ++ newline)
  = [lit "a"; []; lit "b"; []]
  /\ split_lines [] = [[]].
Proof. split; reflexivity. Qed.

Lemma add_lines_ok lines :
  forall story story',
    add_lines story lines = Ok story' ->
    story' = story ++ flat_map line_blocks lines.
Proof.
  induction lines as [|line rest IH]; intros story story'; simpl.
  - intros [= <-]. symmetry. apply app_nil_r.
  - unfold make_paragraph. destruct (paragraph_check line _); [discriminate|].
    intros H. apply IH in H. rewrite H, <- app_assoc. reflexivity.
Qed.

Lemma build_story_ok content title story :
  build_story content title = Ok story ->
  story = title_blocks title ++ flat_map line_blocks (split_lines content).
Proof.
  unfold build_story, make_paragraph.
  destruct (paragraph_check _ Title); [discriminate|].
  apply add_lines_ok.
Qed.

Lemma paragraphs_of_lines lines :
  paragraphs (flat_map line_blocks lines) = length lines.
Proof.
  unfold paragraphs. induction lines as [|l ls IH]; simpl; [reflexivity|].
  f_equal. exact IH.
Qed.

Lemma filter_length_le {A} (f : A -> bool) l : length (filter f l) <= length l.
Proof.
  induction l as [|a l IH]; simpl; [lia|]. destruct (f a); simpl; lia.
Qed.

(** The style of the loop is the one the specification gives. *)
Lemma specified_style_cons (c : char) rest :
  specified_style (c :: rest) = if (c =? 35)%N then Heading2 else BodyText.
Proof.
  destruct (N.eqb_spec c 35) as [->|n]; [reflexivity|].
  destruct c as [|p]; [reflexivity|].
  repeat (destruct p as [p|p|]; try reflexivity).
  exfalso. apply n. reflexivity.
Qed.

Lemma line_style_specified line : line_style line = specified_style line.
Proof.
  destruct line as [|c rest]; [reflexivity|].
  rewrite specified_style_cons. reflexivity.
Qed.

Lemma story_specified content title :
  title_blocks title ++ flat_map line_blocks (split_lines content)
  = specified_story content title.
Proof.
  unfold specified_story, title_blocks. f_equal.
  apply flat_map_ext. intros line. unfold line_blocks.
  rewrite line_style_specified. reflexivity.
Qed.

Lemma add_lines_checked lines :
  forall story story',
    add_lines story lines = Ok story' ->
    forall line, In line lines -> paragraph_check line (line_style line) = None.
Proof.
  induction lines as [|l rest IH]; intros story story'; simpl.
  - intros _ line [].
  - unfold make_paragraph.
    destruct (paragraph_check l (line_style l)) eqn:C; [discriminate|].
    intros H line [<-|I]; [exact C | apply (IH _ _ H line I)].
Qed.

Lemma add_lines_all lines :
  forall story,
    (forall line, In line lines ->
       paragraph_check line (line_style line) = None) ->
    add_lines story lines = Ok (story ++ flat_map line_blocks lines).
Proof.
  induction lines as [|l rest IH]; intros story H; simpl.
  - rewrite app_nil_r. reflexivity.
  - unfold make_paragraph. rewrite (H l (or_introl eq_refl)).
    rewrite IH, <- app_assoc; [reflexivity|].
    intros line I. apply H. right. exact I.
Qed.

(** The story is built exactly when reportlab accepts every paragraph
    of the specified one, and then it is that one. *)
Lemma build_story_specified content title :
  (forall story, build_story content title = Ok story ->
     story = specified_story content title)
  /\ ((exists story, build_story content title = Ok story)
      <-> parses (specified_story content title)).
Proof.
  split.
  - intros story B. rewrite <- story_specified.
    apply build_story_ok, B.
  - split.
    + intros [story B]. unfold parses, specified_story. intros text s I.
      revert B. unfold build_story, make_paragraph.
      destruct (paragraph_check _ Title) eqn:T; [discriminate|]. intros B.
      destruct I as [I|[I|I]].
      * injection I as <- <-. exact T.
      * discriminate I.
      * apply in_flat_map in I. destruct I as [line [L [I|[I|[]]]]];
          [|discriminate I].
        injection I as <- <-. rewrite <- line_style_specified.
        apply (add_lines_checked _ _ _ B line L).
    + intros P. unfold build_story, make_paragraph.
      rewrite (P _ Title (or_introl eq_refl)).
      eexists. apply add_lines_all. intros line L.
      rewrite line_style_specified. apply P.
      unfold specified_story. right. right. apply in_flat_map.
      exists line. split; [exact L | left; reflexivity].
Qed.

(** C9: [generate_pdf] never raises.  It returns a document exactly when
    reportlab accepts the specified story and builds it: the title block,
    then one paragraph per line of the content, in the heading style for a
    line that begins with [#] and in the body style for any other, so more
    text blocks than the content has non-empty lines.  And it returns
    [None], with the failure message shown, exactly when a paragraph is
    refused or the build raises. *)
Theorem generate_pdf_blocks (content title : pystr) :
  let story := specified_story content title in
  (exists r, fst (generate_pdf content title) = Ok r)
  /\ (forall buffer,
         generate_pdf content title = (Ok (Some buffer), [])
         <-> parses story /\ doc_build story = Ok buffer)
  /\ ((exists e,
         generate_pdf content title = (Ok None, [UiError (pdf_failed_msg e)]))
      <-> ~ parses story \/ exists e, doc_build story = Raise e)
  /\ paragraphs story = 1 + length (split_lines content)
  /\ nonempty_lines content < paragraphs story
  /\ (forall rest,
         In (35%N :: rest) (split_lines content) ->
         In (Paragraph (35%N :: rest) Heading2) story)
  /\ (forall line,
         In line (split_lines content) ->
         (forall rest, line <> 35%N :: rest) ->
         In (Paragraph line BodyText) story).
Proof.
  intros story.
  destruct (build_story_specified content title) as [S [P1 P2]].
  fold story in S, P1, P2.
  assert (L : forall line, In line (split_lines content) ->
              In (Paragraph line (specified_style line)) story).
  { intros line I. unfold story, specified_story. right. right.
    apply in_flat_map. exists line. split; [exact I | left; reflexivity]. }
  assert (P : paragraphs story = 1 + length (split_lines content)).
  { unfold story. rewrite <- story_specified. unfold paragraphs. simpl.
    f_equal. apply paragraphs_of_lines. }
  unfold generate_pdf.
  split; [|split; [|split; [|split; [|split; [|split]]]]].
  - destruct (build_story content title) as [built|e];
      [destruct (doc_build built)|]; eexists; reflexivity.
  - intros buffer. split.
    + destruct (build_story content title) as [built|e] eqn:B; [|discriminate].
      rewrite (S built eq_refl).
      destruct (doc_build story) as [b|e] eqn:D; [|discriminate].
      intros [= <-]. split; [apply P1; exists built; reflexivity | reflexivity].
    + intros [Pa D]. destruct (P2 Pa) as [built B]. rewrite B.
      rewrite (S built B), D. reflexivity.
  - split.
    + intros [e H].
      destruct (build_story content title) as [built|x] eqn:B.
      * rewrite (S built eq_refl) in H.
        destruct (doc_build story) as [b|x] eqn:D; [discriminate H|].
        right. exists x. reflexivity.
      * left. intros Pa. destruct (P2 Pa) as [built B']. discriminate B'.
    + intros H.
      destruct (build_story content title) as [built|x] eqn:B.
      * rewrite (S built eq_refl).
        destruct H as [H|[e D]].
        -- destruct (H (P1 (ex_intro _ built eq_refl))).
        -- rewrite D. exists e. reflexivity.
      * exists x. reflexivity.
  - exact P.
  - rewrite P. unfold nonempty_lines.
    pose proof (filter_length_le truthy (split_lines content)). lia.
  - intros rest I. apply (L _ I).
  - intros line I N. specialize (L line I).
    destruct line as [|c rest]; [exact L|].
    rewrite specified_style_cons in L.
    destruct (N.eqb_spec c 35) as [->|_]; [destruct (N rest eq_refl) | exact L].
Qed.

(** ** JSON exporter *)

Lemma scanstring_raw (c : char) s :
  (c =? 34)%N = false -> (c =? 92)%N = false -> (c <? 32)%N = false ->
  scanstring (c :: s) = prepend c (scanstring s).
Proof. intros H1 H2 H3. simpl. rewrite H1, H2, H3. reflexivity. Qed.

Lemma scanstring_backslash (esc ch : char) s :
  (esc =? 117)%N = false -> backslash esc = Some ch ->
  scanstring (92%N :: esc :: s) = prepend ch (scanstring s).
Proof. intros H1 H2. simpl. rewrite H1, H2. reflexivity. Qed.

Lemma scanstring_u00 (a b uni : char) s :
  decode_uXXXX 48 48 a b = Some uni ->
  in_range 55296 56319 uni = false ->
  scanstring (92 :: 117 :: 48 :: 48 :: a :: b :: s)%N
  = prepend uni (scanstring s).
Proof.
  intros H1 H2.
  change (scanstring (92 :: 117 :: 48 :: 48 :: a :: b :: s)%N)
    with (match decode_uXXXX 48 48 a b with
          | None => None
          | Some uni =>
              if in_range 55296 56319 uni then
                match s with
                | b1 :: u1 :: a2 :: b2 :: c2 :: d2 :: s4 =>
                    if (b1 =? 92)%N && (u1 =? 117)%N then
                      match decode_uXXXX a2 b2 c2 d2 with
                      | None => None
                      | Some uni2 =>
                          if in_range 56320 57343 uni2 then
                            prepend
                              (65536 + ((uni - 55296) * 1024 + (uni2 - 56320)))%N
                              (scanstring s4)
                          else prepend uni (scanstring s)
                      end
                    else prepend uni (scanstring s)
                | _ => prepend uni (scanstring s)
                end
              else prepend uni (scanstring s)
          end).
  rewrite H1, H2. reflexivity.
Qed.

(** A check on every code point below 32 covers the control range. *)
Lemma below_32 (f : char -> bool) :
  forallb f (map N.of_nat (seq 0 32)) = true ->
  forall c, (c < 32)%N -> f c = true.
Proof.
  intros H c Hc. rewrite forallb_forall in H. apply H.
  apply in_map_iff. exists (N.to_nat c). split; [apply N2Nat.id|].
  apply in_seq. lia.
Qed.

Lemma decode_control (c : char) :
  (c < 32)%N ->
  decode_uXXXX 48 48 (hex_digit (c / 16)) (hex_digit (c mod 16)) = Some c
  /\ in_range 55296 56319 c = false.
Proof.
  intros Hc.
  assert (H : (match decode_uXXXX 48 48 (hex_digit (c / 16)) (hex_digit (c mod 16)) with
               | Some u => (u =? c)%N
               | None => false
               end && negb (in_range 55296 56319 c)) = true).
  { revert c Hc. apply below_32. vm_compute. reflexivity. }
  apply andb_prop in H as [H1 H2].
  destruct (decode_uXXXX _ _ _ _) as [u|]; [|discriminate].
  apply N.eqb_eq in H1. subst u. split; [reflexivity|].
  destruct (in_range 55296 56319 c); [discriminate | reflexivity].
Qed.

(** An escaped surrogate pair is one code point; a lone escaped high
    surrogate stays, and the escape after it is read on its own. *)
Example scanstring_surrogates :
  scanstring (lit "\ud83d\ude00" ++ [34%N]) = Some ([128512%N], [])
  /\ scanstring (lit "\ud83d\u0041" ++ [34%N]) = Some ([55357%N; 65%N], []).
Proof. split; reflexivity. Qed.

(** The decoder reads back what the encoder wrote between the quotes. *)
Lemma scanstring_escaped s :
  forall rest,
    scanstring (flat_map escape_char s ++ 34%N :: rest) = Some (s, rest).
Proof.
  induction s as [|c s IH]; intros rest; [reflexivity|].
  change (flat_map escape_char (c :: s)) with (escape_char c ++ flat_map escape_char s).
  rewrite <- app_assoc. unfold escape_char.
  destruct (N.eqb_spec c 34) as [->|N34].
  { simpl app. rewrite (scanstring_backslash 34%N 34%N) by reflexivity.
    rewrite IH. reflexivity. }
  destruct (N.eqb_spec c 92) as [->|N92].
  { simpl app. rewrite (scanstring_backslash 92%N 92%N) by reflexivity.
    rewrite IH. reflexivity. }
  destruct (N.eqb_spec c 10) as [->|N10].
  { simpl app. rewrite (scanstring_backslash 110%N 10%N) by reflexivity.
    rewrite IH. reflexivity. }
  destruct (N.eqb_spec c 13) as [->|N13].
  { simpl app. rewrite (scanstring_backslash 114%N 13%N) by reflexivity.
    rewrite IH. reflexivity. }
  destruct (N.eqb_spec c 9) as [->|N9].
  { simpl app. rewrite (scanstring_backslash 116%N 9%N) by reflexivity.
    rewrite IH. reflexivity. }
  destruct (N.eqb_spec c 12) as [->|N12].
  { simpl app. rewrite (scanstring_backslash 102%N 12%N) by reflexivity.
    rewrite IH. reflexivity. }
  destruct (N.eqb_spec c 8) as [->|N8].
  { simpl app. rewrite (scanstring_backslash 98%N 8%N) by reflexivity.
    rewrite IH. reflexivity. }
  destruct (N.ltb_spec c 32) as [L|L].
  - destruct (decode_control c L) as [D R].
    simpl app. rewrite (scanstring_u00 _ _ c _ D R), IH. reflexivity.
  - simpl app. rewrite scanstring_raw, IH; try reflexivity.
    + apply N.eqb_neq, N34.
    + apply N.eqb_neq, N92.
    + apply N.ltb_ge, L.
Qed.

Lemma scanstring_encoded s rest :
  match encode_basestring s ++ rest with
  | q :: body => q = 34%N /\ scanstring body = Some (s, rest)
  | [] => False
  end.
Proof.
  unfold encode_basestring. simpl. split; [reflexivity|].
  rewrite <- app_assoc. apply scanstring_escaped.
Qed.

(** With [ensure_ascii=False] only the quote, the backslash and the
    control characters are escaped: the others, all of the code points
    from 128 on among them, are written as they are. *)
Lemma escape_char_keeps (c : char) :
  (32 <= c)%N -> c <> 34%N -> c <> 92%N -> escape_char c = [c].
Proof.
  intros H32 H34 H92. unfold escape_char.
  destruct (N.eqb_spec c 34); [contradiction|].
  destruct (N.eqb_spec c 92); [contradiction|].
  destruct (N.eqb_spec c 10); [lia|].
  destruct (N.eqb_spec c 13); [lia|].
  destruct (N.eqb_spec c 9); [lia|].
  destruct (N.eqb_spec c 12); [lia|].
  destruct (N.eqb_spec c 8); [lia|].
  destruct (N.ltb_spec c 32); [lia | reflexivity].
Qed.

Lemma skip_ws_indent level s : skip_ws (newline_indent level ++ s) = skip_ws s.
Proof.
  unfold newline_indent. simpl.
  induction (level + (level + 0)) as [|n IH]; simpl; [reflexivity | exact IH].
Qed.

Lemma skip_ws_stop (c : char) s : is_ws c = false -> skip_ws (c :: s) = c :: s.
Proof. intros H. simpl. rewrite H. reflexivity. Qed.

(** *** The layout of dictionaries and lists *)

Lemma iterencode_dict level kv d :
  iterencode level (PDict (kv :: d))
  = [123%N] ++ newline_indent (S level)
    ++ join (item_separator level) (map (encode_item level) (kv :: d))
    ++ newline_indent level ++ [125%N].
Proof. reflexivity. Qed.

Lemma iterencode_list level x l :
  iterencode level (PList (x :: l))
  = [91%N] ++ newline_indent (S level)
    ++ join (item_separator level) (map (iterencode (S level)) (x :: l))
    ++ newline_indent level ++ [93%N].
Proof. reflexivity. Qed.

Lemma join_object_tail level d :
  forall kv,
    join (item_separator level) (map (encode_item level) (kv :: d))
    ++ newline_indent level ++ [125%N]
    = encode_item level kv ++ object_tail level d.
Proof.
  induction d as [|kv' d IH]; intros kv; [reflexivity|].
  change (join (item_separator level) (map (encode_item level) (kv :: kv' :: d)))
    with (encode_item level kv ++ item_separator level
          ++ join (item_separator level) (map (encode_item level) (kv' :: d))).
  rewrite <- !app_assoc, IH. reflexivity.
Qed.

Lemma join_array_tail level l :
  forall x,
    join (item_separator level) (map (iterencode (S level)) (x :: l))
    ++ newline_indent level ++ [93%N]
    = iterencode (S level) x ++ array_tail level l.
Proof.
  induction l as [|x' l IH]; intros x; [reflexivity|].
  change (join (item_separator level) (map (iterencode (S level)) (x :: x' :: l)))
    with (iterencode (S level) x ++ item_separator level
          ++ join (item_separator level) (map (iterencode (S level)) (x' :: l))).
  rewrite <- !app_assoc, IH. reflexivity.
Qed.

(** An encoded value starts with a quote, a brace or a bracket. *)
Lemma skip_ws_value level v rest :
  skip_ws (iterencode level v ++ rest) = iterencode level v ++ rest.
Proof.
  destruct v as [s|[|kv d]|[|x l]]; reflexivity.
Qed.

Lemma dict_set_fresh d k v :
  ~ In k (map fst d) -> dict_set d k v = d ++ [(k, v)].
Proof.
  induction d as [|[k' v'] d IH]; simpl; intros H; [reflexivity|].
  destruct (pystr_eqb k' k) eqn:E.
  - apply pystr_eqb_eq in E. exfalso. apply H. left. exact E.
  - rewrite IH; [reflexivity|]. intros Hin. apply H. right. exact Hin.
Qed.

Lemma dict_of_pairs_app pairs :
  forall d,
    NoDup (map fst (d ++ pairs)) ->
    fold_left (fun d kv => dict_set d (fst kv) (snd kv)) pairs d = d ++ pairs.
Proof.
  induction pairs as [|[k v] pairs IH]; intros d H; simpl.
  - symmetry. apply app_nil_r.
  - rewrite dict_set_fresh.
    + rewrite IH; rewrite <- app_assoc; [reflexivity | exact H].
    + rewrite map_app in H. simpl in H. apply NoDup_remove_2 in H.
      intros Hin. apply H. apply in_or_app. left. exact Hin.
Qed.

Lemma dict_of_pairs_unique d : NoDup (map fst d) -> dict_of_pairs d = d.
Proof. intros H. apply (dict_of_pairs_app d []). exact H. Qed.

(** *** The decoder on the encoder's output *)

Lemma scan_once_object fuel s :
  scan_once (S fuel) (123%N :: s) =
    match skip_ws s with
    | [] => None
    | c1 :: s2 =>
        if (c1 =? 125)%N then Some (PDict [], s2)
        else if (c1 =? 34)%N then object_loop fuel [] s2
        else None
    end.
Proof. reflexivity. Qed.

Lemma scan_once_array fuel s :
  scan_once (S fuel) (91%N :: s) =
    match skip_ws s with
    | [] => None
    | c1 :: s2 =>
        if (c1 =? 93)%N then Some (PList [], s2)
        else array_loop fuel [] (c1 :: s2)
    end.
Proof. reflexivity. Qed.

Lemma object_loop_S fuel pairs s :
  object_loop (S fuel) pairs s =
    match scanstring s with
    | None => None
    | Some (key, s1) =>
        match skip_ws s1 with
        | [] => None
        | c :: s2 =>
            if (c =? 58)%N then
              match scan_once fuel (skip_ws s2) with
              | None => None
              | Some (value, s3) =>
                  match skip_ws s3 with
                  | [] => None
                  | c2 :: s4 =>
                      if (c2 =? 125)%N then
                        Some (PDict (dict_of_pairs (pairs ++ [(key, value)])), s4)
                      else if (c2 =? 44)%N then
                        match skip_ws s4 with
                        | [] => None
                        | c3 :: s5 =>
                            if (c3 =? 34)%N
                            then object_loop fuel (pairs ++ [(key, value)]) s5
                            else None
                        end
                      else None
                  end
              end
            else None
        end
    end.
Proof. reflexivity. Qed.

Lemma array_loop_S fuel values s :
  array_loop (S fuel) values s =
    match scan_once fuel s with
    | None => None
    | Some (value, s1) =>
        match skip_ws s1 with
        | [] => None
        | c :: s2 =>
            if (c =? 93)%N then Some (PList (values ++ [value]), s2)
            else if (c =? 44)%N
                 then array_loop fuel (values ++ [value]) (skip_ws s2)
                 else None
        end
    end.
Proof. reflexivity. Qed.

Ltac flatten := repeat (rewrite <- app_assoc || rewrite <- app_comm_cons).

Lemma object_loop_reads level d :
  forall k x fuel pairs rest,
    reads_back x ->
    Forall (fun kv => reads_back (snd kv)) d ->
    S (size x) + items_size d <= fuel ->
    object_loop fuel pairs
      (flat_map escape_char k
       ++ 34%N :: lit ": " ++ iterencode (S level) x ++ object_tail level d ++ rest)
    = Some (PDict (dict_of_pairs (pairs ++ (k, x) :: d)), rest).
Proof.
  induction d as [|[k' x'] d IH]; intros k x fuel pairs rest Hx Hd Hf;
    (destruct fuel as [|fuel]; [simpl in Hf; lia|]);
    rewrite object_loop_S, scanstring_escaped;
    change (lit ": " ++ iterencode (S level) x ++ ?t)
      with (58%N :: 32%N :: iterencode (S level) x ++ t);
    rewrite (skip_ws_stop 58%N) by reflexivity;
    change (58 =? 58)%N with true; cbv iota;
    change (skip_ws (32%N :: ?t)) with (skip_ws t);
    rewrite skip_ws_value, (Hx (S level) fuel) by (simpl in Hf; lia).
  - change (object_tail level []) with (newline_indent level ++ [125%N]).
    rewrite <- app_assoc, skip_ws_indent.
    change ([125%N] ++ rest) with (125%N :: rest).
    rewrite (skip_ws_stop 125%N) by reflexivity.
    reflexivity.
  - inversion Hd as [|? ? Hx' Hd']; subst.
    change (object_tail level ((k', x') :: d) ++ rest)
      with (44%N :: (newline_indent (S level)
                     ++ encode_item level (k', x') ++ object_tail level d) ++ rest).
    rewrite (skip_ws_stop 44%N) by reflexivity.
    change (44 =? 125)%N with false. change (44 =? 44)%N with true. cbv iota.
    rewrite <- app_assoc, skip_ws_indent.
    change (encode_item level (k', x'))
      with (34%N :: (flat_map escape_char k' ++ [34%N])
            ++ lit ": " ++ iterencode (S level) x').
    flatten.
    rewrite (skip_ws_stop 34%N) by reflexivity.
    change (34 =? 34)%N with true. cbv iota.
    rewrite ?app_nil_l.
    replace (pairs ++ (k, x) :: (k', x') :: d)
      with ((pairs ++ [(k, x)]) ++ (k', x') :: d)
      by (rewrite <- app_assoc; reflexivity).
    apply IH; [exact Hx' | exact Hd' | unfold items_size in *; simpl in *; lia].
Qed.

Lemma array_loop_reads level l :
  forall x fuel values rest,
    reads_back x ->
    Forall reads_back l ->
    S (size x) + elements_size l <= fuel ->
    array_loop fuel values
      (iterencode (S level) x ++ array_tail level l ++ rest)
    = Some (PList (values ++ x :: l), rest).
Proof.
  induction l as [|x' l IH]; intros x fuel values rest Hx Hl Hf;
    (destruct fuel as [|fuel]; [simpl in Hf; lia|]);
    rewrite array_loop_S, (Hx (S level) fuel) by (simpl in Hf; lia).
  - change (array_tail level []) with (newline_indent level ++ [93%N]).
    rewrite <- app_assoc, skip_ws_indent.
    change ([93%N] ++ rest) with (93%N :: rest).
    rewrite (skip_ws_stop 93%N) by reflexivity.
    reflexivity.
  - inversion Hl as [|? ? Hx' Hl']; subst.
    change (array_tail level (x' :: l) ++ rest)
      with (44%N :: (newline_indent (S level)
                     ++ iterencode (S level) x' ++ array_tail level l) ++ rest).
    rewrite (skip_ws_stop 44%N) by reflexivity.
    change (44 =? 93)%N with false. change (44 =? 44)%N with true. cbv iota.
    rewrite <- !app_assoc, skip_ws_indent, skip_ws_value.
    replace (values ++ x :: x' :: l) with ((values ++ [x]) ++ x' :: l)
      by (rewrite <- app_assoc; reflexivity).
    apply IH; [exact Hx' | exact Hl' | unfold elements_size in *; simpl in *; lia].
Qed.

Lemma unique_keys_items (d : list (pystr * pyval)) :
  fold_right (fun kv Q => unique_keys (snd kv) /\ Q) True d ->
  Forall (fun kv => unique_keys (snd kv)) d.
Proof.
  induction d as [|kv d IH]; simpl; intros H; constructor;
    [exact (proj1 H) | exact (IH (proj2 H))].
Qed.

Lemma unique_keys_elements (l : list pyval) :
  fold_right (fun x Q => unique_keys x /\ Q) True l -> Forall unique_keys l.
Proof.
  induction l as [|x l IH]; simpl; intros H; constructor;
    [exact (proj1 H) | exact (IH (proj2 H))].
Qed.

Lemma Forall_impl_both {A} (P Q : A -> Prop) l :
  Forall (fun a => P a -> Q a) l -> Forall P l -> Forall Q l.
Proof.
  induction 1 as [|a l H _ IH]; intros HP; inversion HP; subst;
    constructor; [apply H; assumption | apply IH; assumption].
Qed.

Lemma scan_once_reads v : unique_keys v -> reads_back v.
Proof.
  induction v as [s|d IH|l IH] using pyval_induction; intros U level fuel rest Hf.
  - destruct fuel as [|fuel]; [simpl in Hf; lia|].
    pose proof (scanstring_encoded s rest) as H.
    change (iterencode level (PStr s)) with (encode_basestring s).
    destruct (encode_basestring s ++ rest) as [|q body]; [contradiction|].
    destruct H as [-> H]. simpl. rewrite H. reflexivity.
  - destruct U as [Hk Hv]. apply unique_keys_items in Hv.
    pose proof (Forall_impl_both _ _ d IH Hv) as R.
    destruct fuel as [|fuel]; [simpl in Hf; lia|].
    destruct d as [|[k x] d]; [reflexivity|].
    rewrite iterencode_dict, join_object_tail.
    inversion R as [|? ? Rx Rd]; subst.
    flatten. rewrite app_nil_l, scan_once_object, skip_ws_indent.
    change (encode_item level (k, x))
      with (34%N :: (flat_map escape_char k ++ [34%N])
            ++ lit ": " ++ iterencode (S level) x).
    flatten.
    rewrite (skip_ws_stop 34%N) by reflexivity.
    change (34 =? 125)%N with false. change (34 =? 34)%N with true. cbv iota.
    rewrite ?app_nil_l.
    rewrite <- (dict_of_pairs_unique ((k, x) :: d) Hk).
    apply (object_loop_reads level d k x fuel [] rest Rx Rd).
    unfold items_size in *. simpl in *. lia.
  - apply unique_keys_elements in U.
    pose proof (Forall_impl_both _ _ l IH U) as R.
    destruct fuel as [|fuel]; [simpl in Hf; lia|].
    destruct l as [|x l]; [reflexivity|].
    rewrite iterencode_list, join_array_tail.
    inversion R as [|? ? Rx Rl]; subst.
    flatten. rewrite app_nil_l, scan_once_array, skip_ws_indent, skip_ws_value.
    destruct (iterencode (S level) x ++ array_tail level l ++ rest)
      as [|c1 s2] eqn:E.
    { destruct x as [s|[|kv d]|[|y l']]; discriminate E. }
    assert (C : (c1 =? 93)%N = false).
    { destruct x as [s|[|kv d]|[|y l']]; injection E as <- _; reflexivity. }
    rewrite C, <- E.
    apply (array_loop_reads level l x fuel [] rest Rx Rl).
    unfold elements_size in *. simpl in *. lia.
Qed.

Lemma encode_item_size level k x :
  size x <= length (iterencode (S level) x) ->
  S (size x) <= length (encode_item level (k, x)).
Proof.
  intros H. unfold encode_item, encode_basestring.
  rewrite !length_app. simpl. lia.
Qed.

Lemma object_tail_size level (d : list (pystr * pyval)) :
  Forall (fun kv => forall level, size (snd kv) <= length (iterencode level (snd kv))) d ->
  items_size d <= length (object_tail level d).
Proof.
  induction 1 as [|[k x] d Hx _ IH]; [simpl; lia|].
  change (items_size ((k, x) :: d)) with (S (size x) + items_size d).
  change (object_tail level ((k, x) :: d))
    with (item_separator level ++ encode_item level (k, x) ++ object_tail level d).
  rewrite !length_app.
  pose proof (encode_item_size level k x (Hx (S level))). lia.
Qed.

Lemma array_tail_size level (l : list pyval) :
  Forall (fun x => forall level, size x <= length (iterencode level x)) l ->
  elements_size l <= length (array_tail level l).
Proof.
  induction 1 as [|x l Hx _ IH]; [simpl; lia|].
  change (elements_size (x :: l)) with (S (size x) + elements_size l).
  change (array_tail level (x :: l))
    with (item_separator level ++ iterencode (S level) x ++ array_tail level l).
  rewrite !length_app. specialize (Hx (S level)).
  assert (1 <= length (item_separator level)) by (simpl; lia). lia.
Qed.

Lemma size_le_len v : forall level, size v <= length (iterencode level v).
Proof.
  induction v as [s|d IH|l IH] using pyval_induction; intros level.
  - simpl. lia.
  - destruct d as [|[k x] d]; [simpl; lia|].
    rewrite iterencode_dict, join_object_tail.
    change (size (PDict ((k, x) :: d))) with (S (S (size x) + items_size d)).
    inversion IH as [|? ? Hx Hd]; subst.
    pose proof (object_tail_size level d Hd) as T.
    pose proof (encode_item_size level k x (Hx (S level))).
    rewrite !length_app. change (length [123%N]) with 1. lia.
  - destruct l as [|x l]; [simpl; lia|].
    rewrite iterencode_list, join_array_tail.
    change (size (PList (x :: l))) with (S (S (size x) + elements_size l)).
    inversion IH as [|? ? Hx Hl]; subst.
    pose proof (array_tail_size level l Hl) as T.
    specialize (Hx (S level)).
    assert (1 <= length (newline_indent (S level))) by (simpl; lia).
    rewrite !length_app. change (length [91%N]) with 1. lia.
Qed.

(** Decoding the export of a value gives the value back. *)
Lemma json_loads_export v :
  unique_keys v -> json_loads (export_json v) = Some v.
Proof.
  intros U. unfold json_loads, export_json.
  assert (B : starts_with_bom (iterencode 0 v) = false).
  { destruct v as [s|[|kv d]|[|x l]]; reflexivity. }
  rewrite B.
  pose proof (scan_once_reads v U 0 (S (len (iterencode 0 v))) []) as R.
  rewrite app_nil_r in R.
  pose proof (skip_ws_value 0 v []) as W. rewrite app_nil_r in W.
  rewrite W, R; [reflexivity|].
  pose proof (size_le_len v 0). unfold len. lia.
Qed.

Lemma entry_value_unique_keys e : unique_keys (entry_value e).
Proof.
  simpl. repeat split;
    repeat (constructor; [simpl; intros H; repeat destruct H as [H|H];
                          try discriminate H; exact H|]);
    constructor.
Qed.

Lemma history_value_unique_keys h : unique_keys (history_value h).
Proof.
  unfold history_value.
  induction h as [|e h IH]; [exact I|].
  split; [apply entry_value_unique_keys | exact IH].
Qed.

(** The bulk export of the whole history decodes to the same list. *)
Lemma export_json_history h :
  json_loads (export_json (history_value h)) = Some (history_value h).
Proof. apply json_loads_export, history_value_unique_keys. Qed.

(** ** Text exporter *)

Lemma in_range_iff (lo hi c : char) :
  in_range lo hi c = true <-> (lo <= c <= hi)%N.
Proof.
  unfold in_range. rewrite andb_true_iff, !N.leb_le. reflexivity.
Qed.

Lemma in_range_out (lo hi c : char) :
  (c < lo \/ hi < c)%N -> in_range lo hi c = false.
Proof.
  intros H. destruct (in_range lo hi c) eqn:E; [|reflexivity].
  apply in_range_iff in E. lia.
Qed.

Ltac in_bounds :=
  first [ apply in_range_iff; lia
        | apply in_range_out; lia
        | apply N.ltb_ge; lia
        | apply N.ltb_lt; lia ].

Lemma utf8_decode_1 (b0 : N) r :
  (b0 < 128)%N -> utf8_decode (b0 :: r) = decoded b0 (utf8_decode r).
Proof.
  intros H. simpl. replace (b0 <? 128)%N with true by (symmetry; in_bounds).
  reflexivity.
Qed.

Lemma utf8_decode_2 (b0 b1 : N) r :
  (194 <= b0 <= 223)%N -> (128 <= b1 <= 191)%N ->
  utf8_decode (b0 :: b1 :: r)
  = decoded ((b0 - 192) * 64 + (b1 - 128))%N (utf8_decode r).
Proof.
  intros H0 H1. simpl. unfold continuation.
  replace (b0 <? 128)%N with false by (symmetry; in_bounds).
  replace (in_range 194 223 b0) with true by (symmetry; in_bounds).
  replace (in_range 128 191 b1) with true by (symmetry; in_bounds).
  reflexivity.
Qed.

Lemma utf8_decode_3 (b0 b1 b2 : N) r :
  (224 <= b0 <= 239)%N -> (128 <= b1 <= 191)%N -> (128 <= b2 <= 191)%N ->
  (b0 = 224 -> 160 <= b1)%N -> (b0 = 237 -> b1 <= 159)%N ->
  utf8_decode (b0 :: b1 :: b2 :: r)
  = decoded (((b0 - 224) * 64 + (b1 - 128)) * 64 + (b2 - 128))%N
      (utf8_decode r).
Proof.
  intros H0 H1 H2 Hlo Hhi. simpl. unfold continuation.
  replace (b0 <? 128)%N with false by (symmetry; in_bounds).
  replace (in_range 194 223 b0) with false by (symmetry; in_bounds).
  replace (in_range 224 239 b0) with true by (symmetry; in_bounds).
  replace (in_range 128 191 b2) with true by (symmetry; in_bounds).
  replace (in_range (if (b0 =? 224)%N then 160%N else 128%N)
             (if (b0 =? 237)%N then 159%N else 191%N) b1) with true.
  - reflexivity.
  - symmetry. apply in_range_iff.
    destruct (N.eqb_spec b0 224), (N.eqb_spec b0 237); lia.
Qed.

Lemma utf8_decode_4 (b0 b1 b2 b3 : N) r :
  (240 <= b0 <= 244)%N -> (128 <= b1 <= 191)%N -> (128 <= b2 <= 191)%N ->
  (128 <= b3 <= 191)%N ->
  (b0 = 240 -> 144 <= b1)%N -> (b0 = 244 -> b1 <= 143)%N ->
  utf8_decode (b0 :: b1 :: b2 :: b3 :: r)
  = decoded
      ((((b0 - 240) * 64 + (b1 - 128)) * 64 + (b2 - 128)) * 64 + (b3 - 128))%N
      (utf8_decode r).
Proof.
  intros H0 H1 H2 H3 Hlo Hhi. simpl. unfold continuation.
  replace (b0 <? 128)%N with false by (symmetry; in_bounds).
  replace (in_range 194 223 b0) with false by (symmetry; in_bounds).
  replace (in_range 224 239 b0) with false by (symmetry; in_bounds).
  replace (in_range 240 244 b0) with true by (symmetry; in_bounds).
  replace (in_range 128 191 b2) with true by (symmetry; in_bounds).
  replace (in_range 128 191 b3) with true by (symmetry; in_bounds).
  replace (in_range (if (b0 =? 240)%N then 144%N else 128%N)
             (if (b0 =? 244)%N then 143%N else 191%N) b1) with true.
  - reflexivity.
  - symmetry. apply in_range_iff.
    destruct (N.eqb_spec b0 240), (N.eqb_spec b0 244); lia.
Qed.

Lemma some_eq {A} (a b : A) : Some a = Some b -> a = b.
Proof. congruence. Qed.

(** Linear arithmetic with the quotients and remainders by constants;
    the parameters of the section play no part in it. *)
Ltac drop_parameters :=
  repeat match goal with
         | f : ?A -> _ |- _ =>
             lazymatch type of A with
             | Prop => fail
             | _ => clear f
             end
         end.

Ltac euclid :=
  drop_parameters; zify; Z.to_euclidean_division_equations; lia.

(** The bytes of one code point: between one and four, each below 256,
    and the decoder reads the code point back from them. *)
Lemma utf8_char_decodes (c : char) bs :
  code_point c ->
  utf8_char c = Some bs ->
  (forall r, utf8_decode (bs ++ r) = decoded c (utf8_decode r))
  /\ Forall (fun b => (b < 256)%N) bs
  /\ 1 <= length bs <= 4.
Proof.
  unfold code_point, utf8_char. intros Hc.
  destruct (N.ltb_spec c 128) as [L1|L1].
  { intros E; apply some_eq in E; subst bs. split; [|split].
    - intros r. apply utf8_decode_1, L1.
    - repeat constructor. lia.
    - simpl. lia. }
  destruct (N.ltb_spec c 2048) as [L2|L2].
  { intros E; apply some_eq in E; subst bs. split; [|split].
    - intros r. cbn [app]. rewrite utf8_decode_2 by euclid.
      f_equal. euclid.
    - repeat constructor; euclid.
    - simpl. lia. }
  destruct (N.ltb_spec c 65536) as [L3|L3].
  { destruct (in_range 55296 57343 c) eqn:S; [discriminate|].
    assert (NS : ~ (55296 <= c <= 57343)%N).
    { intros H. apply in_range_iff in H. congruence. }
    intros E; apply some_eq in E; subst bs. split; [|split].
    - intros r. cbn [app]. rewrite utf8_decode_3 by euclid.
      f_equal. euclid.
    - repeat constructor; euclid.
    - simpl. lia. }
  intros E; apply some_eq in E; subst bs. split; [|split].
  - intros r. cbn [app]. rewrite utf8_decode_4 by euclid.
    f_equal. euclid.
  - repeat constructor; euclid.
  - simpl. lia.
Qed.

Lemma utf8_char_encodable (c : char) :
  utf8_char c = None <-> surrogate c.
Proof.
  unfold utf8_char, surrogate.
  destruct (N.ltb_spec c 128) as [L1|L1].
  { split; [discriminate|]. intros H. apply in_range_iff in H. lia. }
  destruct (N.ltb_spec c 2048) as [L2|L2].
  { split; [discriminate|]. intros H. apply in_range_iff in H. lia. }
  destruct (N.ltb_spec c 65536) as [L3|L3].
  { destruct (in_range 55296 57343 c); split; congruence. }
  split; [discriminate|]. intros H. apply in_range_iff in H. lia.
Qed.

(** Whatever [utf8_encode] returns for a text of code points decodes to
    the text. *)
Lemma utf8_encode_decodes (s : pystr) :
  Forall code_point s ->
  forall bytes,
    utf8_encode s = Some bytes ->
    utf8_decode bytes = Some s
    /\ Forall (fun b => (b < 256)%N) bytes
    /\ len s <= length bytes <= 4 * len s.
Proof.
  unfold len. induction 1 as [|c s Hc _ IH]; intros bytes; simpl.
  - intros E. apply some_eq in E. subst bytes.
    repeat split; try constructor.
  - destruct (utf8_char c) as [bs|] eqn:U; [|discriminate].
    destruct (utf8_encode s) as [r|]; [|discriminate].
    intros E. apply some_eq in E. subst bytes.
    destruct (IH r eq_refl) as [D [B L]].
    destruct (utf8_char_decodes c bs Hc U) as [Dc [Bc Lc]].
    repeat split.
    + rewrite Dc, D. reflexivity.
    + apply Forall_app. split; assumption.
    + rewrite length_app. lia.
    + rewrite length_app. lia.
Qed.

Lemma utf8_encode_some (s : pystr) :
  Forall encodable s -> exists bytes, utf8_encode s = Some bytes.
Proof.
  induction 1 as [|c s [Hc Hs] _ [bytes E]]; simpl.
  - exists []. reflexivity.
  - destruct (utf8_char c) as [bs|] eqn:U.
    + rewrite E. exists (bs ++ bytes). reflexivity.
    + apply utf8_char_encodable in U. unfold surrogate in U. congruence.
Qed.

(** X1: decoding the text export as UTF-8 gives the content back, for
    every content of code points other than surrogates; the export is a
    sequence of bytes, at least one and at most four per code point. *)
Theorem export_text_decodes (content : pystr) :
  Forall encodable content ->
  exists bytes,
    export_text content = Some bytes
    /\ utf8_decode bytes = Some content
    /\ Forall (fun b => (b < 256)%N) bytes
    /\ len content <= length bytes <= 4 * len content.
Proof.
  intros H. unfold export_text.
  destruct (utf8_encode_some content H) as [bytes E].
  exists bytes. split; [exact E|].
  apply utf8_encode_decodes; [|exact E].
  apply Forall_impl with (P := encodable); [|exact H].
  intros c [Hc _]. exact Hc.
Qed.

(** X2: the text export fails, with a [UnicodeEncodeError], exactly on
    the contents that hold a surrogate; text of ASCII characters is
    exported byte for code point. *)
Theorem export_text_fails_on_surrogates (content : pystr) :
  (export_text content = None <-> Exists surrogate content)
  /\ (Forall (fun c => (c < 128)%N) content ->
      export_text content = Some content).
Proof.
  unfold export_text. split.
  - induction content as [|c s IH]; simpl.
    + split; [discriminate|]. intros H. inversion H.
    + destruct (utf8_char c) as [bs|] eqn:U.
      * destruct (utf8_encode s) as [r|].
        -- split; [discriminate|]. intros H.
           inversion H as [? ? Hc|? ? Hs]; subst.
           ++ apply utf8_char_encodable in Hc. congruence.
           ++ apply IH in Hs. discriminate Hs.
        -- split; [|reflexivity]. intros _. right. apply IH. reflexivity.
      * split; [|reflexivity]. intros _. left.
        apply utf8_char_encodable, U.
  - induction 1 as [|c s Hc _ IH]; simpl; [reflexivity|].
    unfold utf8_char. replace (c <? 128)%N with true by (symmetry; in_bounds).
    rewrite IH. reflexivity.
Qed.

(** ** Sanitizer and validator, further *)

Lemma deletes_from_refl s : deletes_from s s.
Proof. induction s; constructor; assumption. Qed.

Lemma deletes_from_trans s t u :
  deletes_from s t -> deletes_from t u -> deletes_from s u.
Proof.
  intros H1 H2. revert s H1.
  induction H2 as [|c t u H IH|c t u H IH]; intros s H1.
  - exact H1.
  - inversion H1; subst; constructor; apply IH; assumption.
  - constructor. apply IH. exact H1.
Qed.

Lemma deletes_from_suffix pre s : deletes_from s (pre ++ s).
Proof.
  induction pre as [|c pre IH]; simpl;
    [apply deletes_from_refl | constructor; exact IH].
Qed.

Lemma deletes_from_prefix s post : deletes_from s (s ++ post).
Proof.
  induction s as [|c s IH]; simpl.
  - induction post; constructor; assumption.
  - constructor. exact IH.
Qed.

Lemma deletes_from_filter (f : char -> bool) s : deletes_from (filter f s) s.
Proof.
  induction s as [|c s IH]; simpl; [constructor|].
  destruct (f c); constructor; exact IH.
Qed.

Lemma deletes_from_length s t : deletes_from s t -> len s <= len t.
Proof. unfold len. induction 1; simpl; lia. Qed.

Lemma deletes_from_strip s : deletes_from (strip s) s.
Proof.
  unfold strip.
  destruct (lstrip_suffix s) as [sp Hs].
  destruct (rstrip_prefix (lstrip s)) as [sq Hq].
  apply deletes_from_trans with (t := lstrip s).
  - rewrite Hq at 2. apply deletes_from_prefix.
  - rewrite Hs at 2. apply deletes_from_suffix.
Qed.

(** X3: sanitizing only deletes: the result is the input with some
    characters removed, the others in their order, so never longer. *)
Theorem clean_input_only_deletes (text : pystr) :
  deletes_from (clean_input (Some text)) text
  /\ len (clean_input (Some text)) <= len text.
Proof.
  assert (D : deletes_from (clean_input (Some text)) text).
  { destruct text as [|c t]; [constructor|].
    rewrite clean_input_cons.
    apply deletes_from_trans with (t := re_sub_disallowed (c :: t)).
    - apply deletes_from_strip.
    - apply deletes_from_filter. }
  split; [exact D | apply deletes_from_length, D].
Qed.

(** X4: whatever the Unicode tables, a sanitized text holds none of the
    characters that mean something in HTML, the markup into which the name
    and the inputs are written. *)
Theorem clean_input_no_html (text : option pystr) (c : char) :
  In c (clean_input text) -> html_special c = false.
Proof.
  intros Hin.
  pose proof (clean_input_all_allowed text) as A.
  unfold all_allowed in A. rewrite Forall_forall in A.
  specialize (A c Hin). unfold html_special.
  destruct (N.eqb_spec c 60) as [->|]; [discriminate A|].
  destruct (N.eqb_spec c 62) as [->|]; [discriminate A|].
  destruct (N.eqb_spec c 38) as [->|]; [discriminate A|].
  destruct (N.eqb_spec c 34) as [->|]; [discriminate A|].
  destruct (N.eqb_spec c 39) as [->|]; [discriminate A|].
  reflexivity.
Qed.

Lemma re_search_all_allowed s : all_allowed s -> re_search_disallowed s = false.
Proof.
  unfold all_allowed, re_search_disallowed.
  induction 1 as [|c s Hc _ IH]; simpl; [reflexivity|].
  rewrite Hc, IH. reflexivity.
Qed.

Lemma field_errors_one (item : pystr * pystr) :
  length (field_errors item) <= 1.
Proof.
  destruct item as [f v]. unfold field_errors, validate_field.
  destruct (Nat.ltb_spec (len v) 3), (Nat.ltb_spec 500 (len v)); simpl; lia.
Qed.

Lemma field_errors_kind (f v m : pystr) :
  In m (field_errors (f, v)) -> m = too_short_msg f \/ m = too_long_msg f.
Proof.
  unfold field_errors, validate_field.
  destruct (len v <? 3), (500 <? len v); simpl; intros H;
    repeat (destruct H as [H|H]; [subst m; first [left; reflexivity | right; reflexivity]|]);
    destruct H.
Qed.

Lemma flat_map_at_most_one {A B} (g : A -> list B) (l : list A) :
  (forall a, In a l -> length (g a) <= 1) ->
  length (flat_map g l) <= length l.
Proof.
  induction l as [|a l IH]; simpl; intros H; [lia|].
  rewrite length_app.
  pose proof (H a (or_introl eq_refl)).
  assert (length (flat_map g l) <= length l).
  { apply IH. intros b Hb. apply H. right. exact Hb. }
  lia.
Qed.

(** X5: on the fields the form handler passes, which are sanitized, the
    character check of the name never fires: the "Invalid characters in
    name" message is never among the errors, which are length messages of
    the five fields, at most one per field. *)
Theorem validation_of_cleaned_form (f : profile) :
  let errors := validate_inputs (items (clean_profile f)) in
  ~ In invalid_name_msg errors
  /\ length errors <= 5
  /\ (forall m, In m errors ->
        exists field, In field (map fst (items f))
                      /\ (m = too_short_msg field \/ m = too_long_msg field)).
Proof.
  intros errors.
  assert (E : errors = flat_map field_errors (items (clean_profile f))).
  { unfold errors. rewrite validate_inputs_blocks. unfold name_errors.
    change (dict_get (items (clean_profile f)) (lit "user_name") [])
      with (clean_input (Some (user_name f))).
    rewrite re_search_all_allowed by apply clean_input_all_allowed.
    apply app_nil_r. }
  assert (K : forall m, In m errors ->
                exists field, In field (map fst (items f))
                  /\ (m = too_short_msg field \/ m = too_long_msg field)).
  { intros m Hm. rewrite E in Hm. apply in_flat_map in Hm.
    destruct Hm as [[field v] [Hin Hm]]. exists field. split.
    - apply (in_map fst) in Hin. exact Hin.
    - apply field_errors_kind with (v := v). exact Hm. }
  split; [|split].
  - intros Hin. destruct (K _ Hin) as [field [_ [H|H]]]; symmetry in H.
    + apply short_is_not_invalid in H. exact H.
    + apply long_is_not_invalid in H. exact H.
  - rewrite E. change 5 with (length (items (clean_profile f))).
    apply (flat_map_at_most_one field_errors (items (clean_profile f))).
    intros item _. apply field_errors_one.
  - exact K.
Qed.

(** ** Sessions over many runs *)

Lemma rejected_none st rq :
  rejected st rq = None ->
  (api_errors st <= 3)%Z
  /\ all_filled (form rq) = true
  /\ validate_inputs (items (clean_profile (form rq))) = [].
Proof.
  unfold rejected, throttle_guard.
  destruct (Z.ltb_spec 3 (api_errors st)) as [|L]; [discriminate|].
  destruct (match last_request st with
            | Some t => if (timedelta_seconds (now_check rq) t <? 5)%Z
                        then DenyRateLimited else Allow
            | None => Allow
            end); try discriminate.
  destruct (all_filled (form rq)); simpl; [|discriminate].
  destruct (validate_inputs _); [|discriminate].
  intros _. repeat split. exact L.
Qed.

Lemma script_run_rejected st rq r :
  rejected st rq = Some r ->
  script_run st rq = st \/ script_run st rq = error_boundary st.
Proof.
  intros R. unfold script_run, main_page.
  destruct (form_handling_rejected st rq r R) as [E _].
  destruct (ending (form_handling st rq)); rewrite E;
    [destruct (display_cases st None) as [H|H]; [left | right]; exact H
    | left | left]; reflexivity.
Qed.

(** What a run on the main page does to the session, case by case:
    nothing, or the error boundary alone, or one entry more, with the
    boundary or without it. *)
Lemma main_page_cases st submitted pressed :
  main_page st submitted pressed = st
  \/ main_page st submitted pressed = error_boundary st
  \/ exists rq a,
       submitted = Some rq /\ rejected st rq = None /\ a <> []
       /\ let stored :=
            set_last_request (now_done rq)
              (history_append (new_entry (clean_profile (form rq)) rq a) st) in
          main_page st submitted pressed = stored
          \/ main_page st submitted pressed = error_boundary stored.
Proof.
  destruct submitted as [rq|]; simpl.
  2:{ destruct (display_cases st pressed) as [H|H]; [left | right; left]; exact H. }
  destruct (rejected st rq) as [r|] eqn:R.
  - destruct (form_handling_rejected st rq r R) as [E _].
    destruct (ending (form_handling st rq)); rewrite E;
      [destruct (display_cases st pressed) as [H|H]; [left | right; left]; exact H
      | left | left]; reflexivity.
  - rewrite (form_handling_accepted st rq R).
    destruct (advice_reply rq) as [[|c t]|e]; simpl;
      [left; reflexivity | | left; reflexivity].
    right. right. exists rq, (c :: t).
    split; [reflexivity|]. split; [exact R|]. split; [discriminate|].
    apply display_cases.
Qed.

Lemma script_run_cases st rq :
  script_run st rq = st
  \/ script_run st rq = error_boundary st
  \/ (rejected st rq = None
      /\ exists a,
           a <> []
           /\ let stored :=
                set_last_request (now_done rq)
                  (history_append (new_entry (clean_profile (form rq)) rq a) st) in
              script_run st rq = stored
              \/ script_run st rq = error_boundary stored).
Proof.
  unfold script_run.
  destruct (main_page_cases st (Some rq) None)
    as [H|[H|[rq' [a [E [R [Na H]]]]]]].
  - left. exact H.
  - right. left. exact H.
  - injection E as <-. right. right. split; [exact R|].
    exists a. split; [exact Na | exact H].
Qed.

Lemma error_boundary_fields st :
  show_main (error_boundary st) = show_main st
  /\ history (error_boundary st) = history st
  /\ api_errors (error_boundary st) = api_errors st
  /\ last_request (error_boundary st) = last_request st.
Proof. unfold error_boundary. destruct (error st); repeat split. Qed.

Lemma error_boundary_initial : error_boundary required_states = required_states.
Proof. reflexivity. Qed.

Ltac inv_split := split; [|split; [|split; [|split]]].

Lemma session_inv_error_boundary st :
  session_inv st -> session_inv (error_boundary st).
Proof.
  intros [A [B [C [D E]]]].
  destruct (error_boundary_fields st) as [F1 [F2 [F3 F4]]].
  unfold session_inv. rewrite F1, F2, F3, F4.
  inv_split; try assumption.
  - apply error_boundary_clears.
  - intros S. rewrite (D S). reflexivity.
Qed.

Lemma cleaned_values f k v :
  In (k, v) (items (clean_profile f)) -> exists x, v = clean_input (Some x).
Proof.
  change (items (clean_profile f))
    with [ (lit "user_name", clean_input (Some (user_name f)));
           (lit "education", clean_input (Some (education f)));
           (lit "skills", clean_input (Some (skills f)));
           (lit "goals", clean_input (Some (goals f)));
           (lit "interests", clean_input (Some (interests f))) ].
  cbn [In]. intros Hin.
  repeat (destruct Hin as [Hin|Hin];
          [ apply (f_equal snd) in Hin; cbn [snd] in Hin;
            eexists; symmetry; exact Hin |]).
  destruct Hin.
Qed.

Lemma cleaned_fields_ok f :
  validate_inputs (items (clean_profile f)) = [] ->
  forall k v, In (k, v) (items (clean_profile f)) ->
    3 <= len v <= 500
    /\ all_allowed v /\ no_leading_space v /\ no_trailing_space v.
Proof.
  intros V k v Hin. apply validate_inputs_nil in V. destruct V as [V _].
  split; [apply (V k v Hin)|].
  destruct (cleaned_values f k v Hin) as [x ->].
  split; [apply clean_input_all_allowed|].
  split; [apply clean_input_no_leading | apply clean_input_no_trailing].
Qed.

Lemma session_inv_main_page st submitted pressed :
  show_main st = true -> session_inv st ->
  session_inv (main_page st submitted pressed).
Proof.
  intros M I.
  assert (S : forall rq a,
             rejected st rq = None -> a <> [] ->
             session_inv
               (set_last_request (now_done rq)
                  (history_append
                     (new_entry (clean_profile (form rq)) rq a) st))).
  { intros rq a R Na. destruct I as [A [B [C [D E]]]].
    destruct (rejected_none st rq R) as [_ [_ V]].
    unfold session_inv. simpl. inv_split.
    - exact A.
    - exact B.
    - split; [|discriminate]. intros X. destruct (history st); discriminate X.
    - intros X. congruence.
    - apply Forall_app. split; [exact E|]. constructor; [|constructor].
      unfold stored_ok. simpl. split; [reflexivity|]. split; [|exact Na].
      apply (cleaned_fields_ok (form rq) V). }
  destruct (main_page_cases st submitted pressed)
    as [H|[H|[rq [a [_ [R [Na [H|H]]]]]]]]; rewrite H.
  - exact I.
  - apply session_inv_error_boundary, I.
  - apply S; assumption.
  - apply session_inv_error_boundary, S; assumption.
Qed.

Lemma session_inv_script_run st rq :
  show_main st = true -> session_inv st -> session_inv (script_run st rq).
Proof. apply session_inv_main_page. Qed.

Lemma session_inv_initial : session_inv required_states.
Proof.
  inv_split; simpl.
  - reflexivity.
  - reflexivity.
  - split; reflexivity.
  - reflexivity.
  - constructor.
Qed.

Lemma session_inv_script st i : session_inv st -> session_inv (script st i).
Proof.
  intros I. unfold script. destruct (show_main st) eqn:M.
  - apply session_inv_main_page; assumption.
  - destruct I as [A [B [C [D E]]]]. specialize (D M). subst st.
    destruct (start_clicked i); [|apply session_inv_initial].
    apply session_inv_main_page; [reflexivity|].
    inv_split; simpl.
    + reflexivity.
    + reflexivity.
    + split; reflexivity.
    + discriminate.
    + constructor.
Qed.

Lemma session_inv_runs acts :
  forall st, session_inv st -> session_inv (script_runs st acts).
Proof.
  unfold script_runs.
  induction acts as [|i acts IH]; intros st I; simpl; [exact I|].
  apply IH, session_inv_script, I.
Qed.

(** X6: in every session, whatever the runs, the error counter stays
    between 0 and 4, and it never exceeds the number of history entries. *)
Theorem api_errors_bounded (acts : list interaction) :
  let st := script_runs required_states acts in
  (0 <= api_errors st <= 4)%Z
  /\ (api_errors st <= Z.of_nat (length (history st)))%Z.
Proof.
  intros st.
  destruct (session_inv_runs acts _ session_inv_initial) as [A _].
  fold st in A. rewrite A. split; lia.
Qed.

(** X7: in every session, [last_request] is set exactly when the history
    is not empty, and as long as the welcome page is shown the session is
    in its initial state. *)
Theorem last_request_follows_history (acts : list interaction) :
  let st := script_runs required_states acts in
  (history st = [] <-> last_request st = None)
  /\ (show_main st = false -> st = required_states).
Proof.
  intros st.
  destruct (session_inv_runs acts _ session_inv_initial) as [_ [_ [C [D _]]]].
  split; assumption.
Qed.

(** X8: every entry of the history of every session holds inputs that
    passed the sanitizer and the validator: the name is the cleaned name,
    each of the five inputs has 3 to 500 characters, all of them allowed,
    with no whitespace at either end, and the advice is not empty. *)
Theorem history_entries_are_valid (acts : list interaction) (e : entry) :
  In e (history (script_runs required_states acts)) -> stored_ok e.
Proof.
  destruct (session_inv_runs acts _ session_inv_initial) as [_ [_ [_ [_ E]]]].
  rewrite Forall_forall in E. apply E.
Qed.

(** ** What one run does to the session *)

Lemma script_run_over_ceiling st rq :
  (3 < api_errors st)%Z -> script_run st rq = st.
Proof.
  intros H. unfold script_run, main_page, form_handling, throttle_guard.
  destruct (Z.ltb_spec 3 (api_errors st)); [reflexivity | lia].
Qed.

(** X9: the lockout never ends: once the error counter is above three,
    every later submission leaves the whole session as it is, whatever the
    forms, the clock and the service. *)
Theorem lockout_is_permanent (st : session) (rqs : list request) :
  (3 < api_errors st)%Z -> session_after st rqs = st.
Proof.
  intros H. unfold session_after.
  induction rqs as [|rq rqs IH]; simpl; [reflexivity|].
  rewrite (script_run_over_ceiling st rq H). exact IH.
Qed.

Lemma display_fields st pressed :
  show_main (display st pressed) = show_main st
  /\ history (display st pressed) = history st
  /\ api_errors (display st pressed) = api_errors st
  /\ last_request (display st pressed) = last_request st.
Proof.
  destruct (display_cases st pressed) as [-> | ->];
    [repeat split | apply error_boundary_fields].
Qed.

Lemma main_page_keeps st submitted pressed :
  show_main (main_page st submitted pressed) = show_main st
  /\ api_errors (main_page st submitted pressed) = api_errors st
  /\ (error (main_page st submitted pressed) = true -> error st = true).
Proof.
  destruct (error_boundary_clears st) as [C _].
  destruct (error_boundary_fields st) as [F1 [_ [F3 _]]].
  destruct (main_page_cases st submitted pressed)
    as [H|[H|[rq [a [_ [_ [_ [H|H]]]]]]]]; rewrite H.
  - repeat split. intros X. exact X.
  - split; [exact F1|]. split; [exact F3|]. rewrite C. discriminate.
  - repeat split. intros X. exact X.
  - match goal with
    | |- context [error_boundary ?x] =>
        destruct (error_boundary_clears x) as [C' _];
        destruct (error_boundary_fields x) as [G1 [_ [G3 _]]]
    end.
    rewrite G1, G3, C'. repeat split. discriminate.
Qed.

Lemma script_keeps st i :
  api_errors (script st i) = api_errors st
  /\ (error (script st i) = true -> error st = true).
Proof.
  unfold script. destruct (show_main st).
  - apply main_page_keeps.
  - destruct (start_clicked i); [|split; [reflexivity | intros X; exact X]].
    apply (main_page_keeps (set_show_main true st) None None).
Qed.

(** X10: no run of the script changes the error counter, the advice
    client's handler for a failing service being out of reach; so in every
    session the counter is zero, and no submission is ever stopped by the
    error ceiling. *)
Theorem api_errors_never_counted
    (st : session) (i : interaction) (acts : list interaction) (rq : request) :
  api_errors (script st i) = api_errors st
  /\ api_errors (script_runs required_states acts) = 0%Z
  /\ form_handling (script_runs required_states acts) rq
     <> stopped_for_errors (script_runs required_states acts).
Proof.
  split; [apply script_keeps|].
  destruct (session_inv_runs acts _ session_inv_initial) as [A _].
  split; [exact A|].
  intros X.
  pose proof (f_equal ending X) as E. pose proof (f_equal shown X) as S.
  revert E S. clear X.
  unfold form_handling, stopped_for_errors, throttle_guard. rewrite A. simpl.
  destruct (last_request _) as [t|];
    [destruct (timedelta_seconds (now_check rq) t <? 5)%Z;
     [intros _ S; discriminate S|]|];
    (destruct (negb (all_filled (form rq))); [intros E; discriminate E|];
     destruct (validate_inputs _) as [|m errors]; [|intros E; discriminate E];
     destruct (get_career_advice _ _ _ _ _ _) as [[st1 out] [a|e]];
     intros E; discriminate E).
Qed.

(** X11: no run of the script raises the error flag: it is set after a
    run only if it was set before; so in every session it is down, and the
    error boundary at the end of the script never has a panel to show. *)
Theorem error_flag_never_raised
    (st : session) (i : interaction) (acts : list interaction) :
  (error (script st i) = true -> error st = true)
  /\ error (script_runs required_states acts) = false
  /\ error_boundary (script_runs required_states acts)
     = script_runs required_states acts.
Proof.
  split; [apply script_keeps|].
  destruct (session_inv_runs acts _ session_inv_initial) as [_ [B _]].
  split; [exact B|]. unfold error_boundary. rewrite B. reflexivity.
Qed.

(** X12: after a run that stored an entry, a submission whose clock
    reading is less than five seconds after that run's last reading, and
    not before it, is stopped, and the session stays as that run left it. *)
Theorem too_soon_after_a_stored_request
    (st : session) (rq again : request) :
  rejected st rq = None ->
  ending (form_handling st rq) = Continue ->
  (0 <= now_check again - now_done rq < five_seconds_us)%Z ->
  ending (form_handling (script_run st rq) again) = Stop
  /\ script_run (script_run st rq) again = script_run st rq.
Proof.
  intros R G T.
  assert (L : last_request (script_run st rq) = Some (now_done rq)).
  { unfold script_run, main_page. rewrite G. revert G.
    rewrite (form_handling_accepted st rq R).
    destruct (advice_reply rq) as [[|c t]|e]; simpl;
      [discriminate | | discriminate].
    intros _.
    rewrite (proj2 (proj2 (proj2 (display_fields _ _)))). reflexivity. }
  assert (S : form_handling (script_run st rq) again
              = stopped_for_errors (script_run st rq)
              \/ form_handling (script_run st rq) again
                 = {| state := script_run st rq;
                      shown := [UiWarning please_wait_msg];
                      stages := [ThrottleGuard]; ending := Stop |}).
  { unfold form_handling. rewrite L.
    destruct (Z.ltb_spec 3 (api_errors (script_run st rq))) as [C|C].
    - left. unfold throttle_guard.
      destruct (Z.ltb_spec 3 (api_errors (script_run st rq))); [reflexivity | lia].
    - right.
      assert (D : (0 <= now_check again - now_done rq < day_us)%Z).
      { unfold day_us, five_seconds_us in *. lia. }
      destruct (rate_limit_within_a_day _ (now_done rq) (now_check again) C D)
        as [[_ X] _].
      rewrite (X (proj2 T)). reflexivity. }
  remember (script_run st rq) as st' eqn:Q. clear Q.
  unfold script_run, main_page.
  destruct S as [S|S]; rewrite S; split; reflexivity.
Qed.

Lemma show_main_script_run st rq : show_main (script_run st rq) = show_main st.
Proof. apply main_page_keeps. Qed.

(** X13: [show_main] never goes back, and only the start button sets it;
    a run on the welcome page, whatever was pressed or submitted, leaves
    the history, the error counter and [last_request] as they are. *)
Theorem welcome_page_runs (st : session) (i : interaction) :
  (show_main st = true -> show_main (script st i) = true)
  /\ (show_main st = false ->
      (show_main (script st i) = true <-> start_clicked i = true)
      /\ history (script st i) = history st
      /\ api_errors (script st i) = api_errors st
      /\ last_request (script st i) = last_request st).
Proof.
  unfold script. split; intros M; rewrite M.
  - rewrite (proj1 (main_page_keeps st (submission i) (export_pressed i))).
    exact M.
  - destruct (start_clicked i).
    + change (main_page (set_show_main true st) None None)
        with (display (set_show_main true st) None).
      destruct (display_fields (set_show_main true st) None) as [S [H [A L]]].
      rewrite S, H, A, L. repeat split.
    + rewrite M. repeat split; discriminate.
Qed.

(** ** Lines, the PDF paragraphs and the bulk document *)

Lemma split_lines_nonempty s : split_lines s <> [].
Proof.
  destruct s as [|c s]; simpl; [discriminate|].
  destruct (c =? 10)%N; [discriminate|].
  destruct (split_lines s); discriminate.
Qed.

Lemma split_lines_newline s : split_lines (10%N :: s) = [] :: split_lines s.
Proof. reflexivity. Qed.

Lemma split_lines_char (c : char) s :
  (c =? 10)%N = false ->
  split_lines (c :: s)
  = (c :: hd [] (split_lines s)) :: tl (split_lines s).
Proof.
  intros H. simpl. rewrite H.
  pose proof (split_lines_nonempty s) as N.
  destruct (split_lines s); [contradiction | reflexivity].
Qed.

Lemma join_newline_cons (l : pystr) ls :
  ls <> [] -> join newline (l :: ls) = l ++ 10%N :: join newline ls.
Proof. destruct ls; [contradiction | reflexivity]. Qed.

Lemma join_split_lines s : join newline (split_lines s) = s.
Proof.
  induction s as [|c s IH]; [reflexivity|].
  pose proof (split_lines_nonempty s) as N.
  destruct (c =? 10)%N eqn:E.
  - apply N.eqb_eq in E. subst c. rewrite split_lines_newline.
    rewrite join_newline_cons by exact N. simpl. rewrite IH. reflexivity.
  - rewrite (split_lines_char c s E).
    destruct (split_lines s) as [|l ls]; [contradiction|]. simpl hd. simpl tl.
    destruct ls as [|l2 ls].
    + simpl in IH |- *. rewrite IH. reflexivity.
    + rewrite join_newline_cons by discriminate.
      rewrite join_newline_cons in IH by discriminate.
      rewrite <- app_comm_cons, IH. reflexivity.
Qed.

Lemma split_lines_count s : length (split_lines s) = S (newlines s).
Proof.
  unfold newlines. induction s as [|c s IH]; [reflexivity|].
  destruct (c =? 10)%N eqn:E.
  - apply N.eqb_eq in E. subst c. rewrite split_lines_newline.
    simpl. rewrite IH. reflexivity.
  - rewrite (split_lines_char c s E). simpl. rewrite E.
    pose proof (split_lines_nonempty s) as N.
    destruct (split_lines s); [contradiction|]. exact IH.
Qed.

Lemma split_lines_no_newline s l : In l (split_lines s) -> ~ In 10%N l.
Proof.
  revert l. induction s as [|c s IH]; intros l.
  - simpl. intros [<-|[]] [].
  - destruct (c =? 10)%N eqn:E.
    + apply N.eqb_eq in E. subst c. rewrite split_lines_newline.
      intros [<-|H]; [intros [] | apply IH, H].
    + rewrite (split_lines_char c s E).
      pose proof (split_lines_nonempty s) as N.
      destruct (split_lines s) as [|l0 ls]; [contradiction|]. simpl hd. simpl tl.
      intros [<-|H].
      * intros [X|X]; [subst c; discriminate E|].
        apply (IH l0); [left; reflexivity | exact X].
      * apply IH. right. exact H.
Qed.

(** The lines of two texts with a newline between them. *)
Lemma split_lines_app a b :
  split_lines (a ++ 10%N :: b) = split_lines a ++ split_lines b.
Proof.
  induction a as [|c a IH]; [reflexivity|].
  change ((c :: a) ++ 10%N :: b) with (c :: (a ++ 10%N :: b)).
  destruct (c =? 10)%N eqn:E.
  - apply N.eqb_eq in E. subst c. rewrite !split_lines_newline, IH. reflexivity.
  - rewrite !(split_lines_char c _ E), IH.
    pose proof (split_lines_nonempty a) as N.
    destruct (split_lines a); [contradiction | reflexivity].
Qed.

Lemma some_eq_ok {A} (a b : A) :
  @Ok (option A) (Some a) = Ok (Some b) -> a = b.
Proof. congruence. Qed.

Lemma paragraph_texts_lines lines :
  paragraph_texts (flat_map line_blocks lines) = lines.
Proof.
  induction lines as [|l ls IH]; simpl; [reflexivity|]. f_equal. exact IH.
Qed.

(** The story behind a document that [generate_pdf] returns. *)
Lemma generate_pdf_story (content title : pystr) (buffer : list N) :
  fst (generate_pdf content title) = Ok (Some buffer) ->
  exists story,
    doc_build story = Ok buffer
    /\ paragraph_texts story
       = (lit "<b>" ++ title ++ lit "</b>") :: split_lines content.
Proof.
  unfold generate_pdf.
  destruct (build_story content title) as [story|e] eqn:B; [|discriminate].
  destruct (doc_build story) as [b|e] eqn:D; [|discriminate].
  simpl. intros E. apply some_eq_ok in E. subst b.
  exists story. split; [exact D|].
  rewrite (build_story_ok content title story B).
  unfold title_blocks. simpl. rewrite paragraph_texts_lines. reflexivity.
Qed.

(** X14: a document that [generate_pdf] returns carries the content and
    nothing else: after the title, the texts of its paragraphs are the
    lines of the content, none of them with a newline in it, and joined by
    newlines they are the content again; their number is the number of
    newlines plus one. *)
Theorem pdf_paragraphs_are_the_content (content title : pystr) (buffer : list N) :
  fst (generate_pdf content title) = Ok (Some buffer) ->
  exists story lines,
    doc_build story = Ok buffer
    /\ paragraph_texts story = (lit "<b>" ++ title ++ lit "</b>") :: lines
    /\ join newline lines = content
    /\ length lines = S (newlines content)
    /\ (forall l, In l lines -> ~ In 10%N l).
Proof.
  intros G. destruct (generate_pdf_story content title buffer G) as [story [D P]].
  exists story, (split_lines content).
  split; [exact D|]. split; [exact P|].
  split; [apply join_split_lines|].
  split; [apply split_lines_count | apply split_lines_no_newline].
Qed.

Lemma split_lines_block e : split_lines (entry_block e) = entry_lines e.
Proof.
  unfold entry_block, entry_lines.
  rewrite !app_assoc, <- (app_assoc _ newline newline), <- !app_assoc.
  change (newline ++ newline ++ advice e) with (10%N :: 10%N :: advice e).
  rewrite !app_assoc.
  rewrite split_lines_app, split_lines_newline, <- !app_assoc. reflexivity.
Qed.

(** X15: the bulk text and PDF documents hold the entries in the order of
    the history: the lines of the flattened history are, entry after
    entry, the lines of its header, an empty line and the lines of its
    advice, with one empty line between two entries. *)
Theorem combined_content_lines (h : list entry) :
  h <> [] ->
  split_lines (combined_content h) = between [[]] (map entry_lines h).
Proof.
  unfold combined_content.
  induction h as [|e h IH]; intros N; [contradiction|].
  destruct h as [|e2 h].
  - simpl. apply split_lines_block.
  - change (join (newline ++ newline) (map entry_block (e :: e2 :: h)))
      with (entry_block e
            ++ 10%N :: 10%N :: join (newline ++ newline) (map entry_block (e2 :: h))).
    rewrite split_lines_app, split_lines_newline, split_lines_block.
    rewrite IH by discriminate. reflexivity.
Qed.

(** ** JSON exporter, further *)

Lemma newlines_app a b : newlines (a ++ b) = newlines a + newlines b.
Proof. unfold newlines. rewrite filter_app, length_app. reflexivity. Qed.

Lemma newlines_cons (c : char) s :
  newlines (c :: s) = (if (c =? 10)%N then 1 else 0) + newlines s.
Proof. unfold newlines. simpl. destruct (c =? 10)%N; reflexivity. Qed.

Lemma hex_digit_printable (d : N) : (48 <= hex_digit d)%N.
Proof. unfold hex_digit. destruct (d <? 10)%N; lia. Qed.

Ltac each_printable Hin :=
  repeat (destruct Hin as [<-|Hin];
          [ first [ lia
                  | apply N.le_trans with (m := 48%N);
                    [lia | apply hex_digit_printable] ] |]);
  destruct Hin.

Lemma escape_char_printable (c x : char) :
  In x (escape_char c) -> (32 <= x)%N.
Proof.
  unfold escape_char. intros Hin.
  destruct (N.eqb_spec c 34); [each_printable Hin|].
  destruct (N.eqb_spec c 92); [each_printable Hin|].
  destruct (N.eqb_spec c 10); [each_printable Hin|].
  destruct (N.eqb_spec c 13); [each_printable Hin|].
  destruct (N.eqb_spec c 9); [each_printable Hin|].
  destruct (N.eqb_spec c 12); [each_printable Hin|].
  destruct (N.eqb_spec c 8); [each_printable Hin|].
  destruct (N.ltb_spec c 32) as [L|L].
  - cbn [app In] in Hin. each_printable Hin.
  - destruct Hin as [<-|[]]. exact L.
Qed.

(** An encoded string holds no character below 0x20. *)
Lemma encode_basestring_printable s x :
  In x (encode_basestring s) -> (32 <= x)%N.
Proof.
  unfold encode_basestring. rewrite !in_app_iff.
  intros [H|[H|H]].
  - destruct H as [<-|[]]. lia.
  - apply in_flat_map in H. destruct H as [c [_ H]].
    apply (escape_char_printable c x H).
  - destruct H as [<-|[]]. lia.
Qed.

Lemma newlines_none s :
  (forall x, In x s -> (32 <= x)%N) -> newlines s = 0.
Proof.
  induction s as [|c s IH]; intros H; [reflexivity|].
  rewrite newlines_cons, IH.
  - destruct (N.eqb_spec c 10) as [E|]; [|reflexivity].
    specialize (H c (or_introl eq_refl)). lia.
  - intros x Hx. apply H. right. exact Hx.
Qed.

Lemma newlines_encode_basestring s : newlines (encode_basestring s) = 0.
Proof. apply newlines_none, encode_basestring_printable. Qed.

Lemma newlines_indent level : newlines (newline_indent level) = 1.
Proof.
  unfold newline_indent. rewrite newlines_cons. simpl.
  rewrite newlines_none; [reflexivity|].
  intros x H. apply repeat_spec in H. subst x. lia.
Qed.

Lemma newlines_separator level : newlines (item_separator level) = 1.
Proof.
  unfold item_separator. rewrite newlines_cons, newlines_indent. reflexivity.
Qed.

Lemma newlines_object_tail level (d : list (pystr * pyval)) :
  Forall (fun kv => line_count_holds (snd kv)) d ->
  newlines (object_tail level d)
  = S (fold_right (fun kv n => json_lines (snd kv) + n) 0 d).
Proof.
  induction 1 as [|[k x] d Hx _ IH].
  - change (object_tail level []) with (newline_indent level ++ [125%N]).
    rewrite newlines_app, newlines_indent. reflexivity.
  - change (object_tail level ((k, x) :: d))
      with (item_separator level
            ++ (encode_basestring k ++ lit ": " ++ iterencode (S level) x)
            ++ object_tail level d).
    rewrite !newlines_app, newlines_separator, newlines_encode_basestring, IH.
    specialize (Hx (S level)). simpl in Hx.
    change (newlines (lit ": ")) with 0. simpl. lia.
Qed.

Lemma newlines_array_tail level (l : list pyval) :
  Forall line_count_holds l ->
  newlines (array_tail level l)
  = S (fold_right (fun x n => json_lines x + n) 0 l).
Proof.
  induction 1 as [|x l Hx _ IH].
  - change (array_tail level []) with (newline_indent level ++ [93%N]).
    rewrite newlines_app, newlines_indent. reflexivity.
  - change (array_tail level (x :: l))
      with (item_separator level ++ iterencode (S level) x ++ array_tail level l).
    rewrite !newlines_app, newlines_separator, IH.
    specialize (Hx (S level)). simpl. lia.
Qed.

Lemma json_line_count v : line_count_holds v.
Proof.
  induction v as [s|d IH|l IH] using pyval_induction; intros level.
  - change (iterencode level (PStr s)) with (encode_basestring s).
    rewrite newlines_encode_basestring. reflexivity.
  - destruct d as [|[k x] d]; [reflexivity|].
    rewrite iterencode_dict, join_object_tail.
    inversion IH as [|? ? Hx Hd]; subst.
    change (encode_item level (k, x))
      with (encode_basestring k ++ lit ": " ++ iterencode (S level) x).
    rewrite !newlines_app, newlines_indent, newlines_encode_basestring.
    rewrite (newlines_object_tail level d Hd).
    specialize (Hx (S level)). simpl in Hx.
    change (newlines (lit ": ")) with 0. change (newlines [123%N]) with 0.
    change (json_lines (PDict ((k, x) :: d)))
      with (2 + (json_lines x
                 + fold_right (fun kv n => json_lines (snd kv) + n) 0 d)).
    lia.
  - destruct l as [|x l]; [reflexivity|].
    rewrite iterencode_list, join_array_tail.
    inversion IH as [|? ? Hx Hl]; subst.
    rewrite !newlines_app, newlines_indent.
    rewrite (newlines_array_tail level l Hl).
    specialize (Hx (S level)).
    change (newlines [91%N]) with 0.
    change (json_lines (PList (x :: l)))
      with (2 + (json_lines x + fold_right (fun y n => json_lines y + n) 0 l)).
    lia.
Qed.

(** X16: strings never break a line of the JSON export: whatever the
    texts, the export of a value has the number of lines its shape gives,
    so the export of one history entry always has twelve lines, and no
    character below 0x20 other than the newlines of the layout is written
    raw. *)
Theorem export_json_lines :
  (forall v, length (split_lines (export_json v)) = json_lines v)
  /\ (forall e, length (split_lines (export_json (entry_value e))) = 12)
  /\ (forall s x, In x (encode_basestring s) -> (32 <= x)%N).
Proof.
  assert (G : forall v, length (split_lines (export_json v)) = json_lines v).
  { intros v. rewrite split_lines_count. apply json_line_count. }
  split; [exact G|]. split.
  - intros e. rewrite G. reflexivity.
  - apply encode_basestring_printable.
Qed.

(** A text without a newline is one line, and the lines of a text put
    together from lines are those lines. *)
Lemma split_lines_one l : newlines l = 0 -> split_lines l = [l].
Proof.
  unfold newlines. induction l as [|c l IH]; [reflexivity|].
  destruct (c =? 10)%N eqn:E; simpl; rewrite E; [discriminate|].
  intros H. rewrite (IH H). reflexivity.
Qed.

Lemma split_lines_join l ls :
  Forall (fun x => newlines x = 0) (l :: ls) ->
  split_lines (join newline (l :: ls)) = l :: ls.
Proof.
  revert l. induction ls as [|l' ls IH]; intros l F.
  - apply split_lines_one. inversion F; assumption.
  - inversion F as [|? ? Hl F']; subst.
    change (join newline (l :: l' :: ls))
      with (l ++ 10%N :: join newline (l' :: ls)).
    rewrite split_lines_app, (split_lines_one l Hl), (IH l' F'). reflexivity.
Qed.

(** C8: decoding the export of a history entry gives every field back,
    name, timestamp, the five inputs and the advice; the characters from
    128 on are written unescaped; and the text has twelve lines, a member
    on each line between the braces, indented by two spaces at the first
    depth and by four at the second, the fields in insertion order. *)
Theorem export_json_entry (e : entry) :
  (exists loaded inp,
      json_loads (export_json (entry_value e)) = Some loaded
      /\ loaded = entry_value e
      /\ subscript loaded "name" = Some (PStr (name e))
      /\ subscript loaded "timestamp" = Some (PStr (timestamp e))
      /\ subscript loaded "advice" = Some (PStr (advice e))
      /\ subscript loaded "inputs" = Some inp
      /\ subscript inp "user_name" = Some (PStr (user_name (inputs e)))
      /\ subscript inp "education" = Some (PStr (education (inputs e)))
      /\ subscript inp "skills" = Some (PStr (skills (inputs e)))
      /\ subscript inp "goals" = Some (PStr (goals (inputs e)))
      /\ subscript inp "interests" = Some (PStr (interests (inputs e))))
  /\ (forall c : char, (128 <= c)%N -> escape_char c = [c])
  /\ split_lines (export_json (entry_value e))
     = [ lit "{";
         lit "  " ++ quoted "name" ++ lit ": "
           ++ encode_basestring (name e) ++ lit ",";
         lit "  " ++ quoted "timestamp" ++ lit ": "
           ++ encode_basestring (timestamp e) ++ lit ",";
         lit "  " ++ quoted "inputs" ++ lit ": {";
         lit "    " ++ quoted "user_name" ++ lit ": "
           ++ encode_basestring (user_name (inputs e)) ++ lit ",";
         lit "    " ++ quoted "education" ++ lit ": "
           ++ encode_basestring (education (inputs e)) ++ lit ",";
         lit "    " ++ quoted "skills" ++ lit ": "
           ++ encode_basestring (skills (inputs e)) ++ lit ",";
         lit "    " ++ quoted "goals" ++ lit ": "
           ++ encode_basestring (goals (inputs e)) ++ lit ",";
         lit "    " ++ quoted "interests" ++ lit ": "
           ++ encode_basestring (interests (inputs e));
         lit "  },";
         lit "  " ++ quoted "advice" ++ lit ": "
           ++ encode_basestring (advice e);
         lit "}" ].
Proof.
  split; [|split].
  - exists (entry_value e). eexists.
    split; [apply json_loads_export, entry_value_unique_keys|].
    repeat split.
  - intros c Hc. apply escape_char_keeps; lia.
  - match goal with
    | |- _ = ?l :: ?ls =>
        transitivity (split_lines (join newline (l :: ls)));
        [f_equal | apply split_lines_join]
    end.
    + unfold export_json, entry_value, items, quoted, lit.
      simpl. repeat (rewrite <- app_assoc; simpl). reflexivity.
    + repeat (constructor;
              [rewrite ?newlines_app, ?newlines_encode_basestring;
               reflexivity|]).
      constructor.
Qed.

Lemma entry_value_injective e1 e2 : entry_value e1 = entry_value e2 -> e1 = e2.
Proof.
  destruct e1 as [n1 t1 [a1 b1 c1 d1 f1] v1].
  destruct e2 as [n2 t2 [a2 b2 c2 d2 f2] v2].
  unfold entry_value, items. cbn [map fst snd name timestamp inputs advice
    user_name education skills goals interests].
  intros H. injection H as -> -> -> -> -> -> -> ->. reflexivity.
Qed.

Lemma history_value_injective h1 :
  forall h2, history_value h1 = history_value h2 -> h1 = h2.
Proof.
  unfold history_value.
  induction h1 as [|e1 h1 IH]; intros [|e2 h2] H;
    try reflexivity; try discriminate H.
  cbn [map] in H.
  assert (E : entry_value e1 = entry_value e2) by congruence.
  assert (M : map entry_value h1 = map entry_value h2) by congruence.
  apply entry_value_injective in E. subst e2. f_equal.
  apply IH. f_equal. exact M.
Qed.

(** X17: the bulk JSON export keeps the whole history: decoding it gives
    the list of the entries back, in their order, and two histories that
    differ never have the same export. *)
Theorem export_json_keeps_history (h : list entry) :
  json_loads (export_json (history_value h)) = Some (history_value h)
  /\ (forall h', export_json (history_value h) = export_json (history_value h')
                 -> h = h').
Proof.
  assert (R : forall x, json_loads (export_json (history_value x))
                        = Some (history_value x)).
  { intros x. apply json_loads_export, history_value_unique_keys. }
  split; [apply R|].
  intros h' E. apply history_value_injective.
  apply (f_equal json_loads) in E. rewrite !R in E.
  apply some_eq in E. exact E.
Qed.

(** ** Downloads *)

Lemma last_in {A} (h : list A) : forall x, In (last h x) (x :: h).
Proof.
  induction h as [|y h IH]; intros x; [left; reflexivity|].
  right. rewrite (last_cons h y x y).
  replace (last (y :: h) y) with (last h y) by (destruct h; reflexivity).
  apply IH.
Qed.

Lemma latest_in_history st e : latest st = Some e -> In e (history st).
Proof.
  unfold latest. destruct (history st) as [|x h]; [discriminate|].
  intros E. apply some_eq in E. subst e. apply last_in.
Qed.

(** *** The calls of a display, one after the other *)

Lemma bind_ok {A} (r : result A) : (a <- r;; Ok a) = r.
Proof. destruct r; reflexivity. Qed.

Lemma existsb_pystr_eqb k l : existsb (pystr_eqb k) l = true <-> In k l.
Proof.
  rewrite existsb_exists. split.
  - intros [x [I E]]. apply pystr_eqb_eq in E. subst x. exact I.
  - intros I. exists k. split; [exact I | apply pystr_eqb_eq; reflexivity].
Qed.

Lemma download_keys_app a b :
  download_keys (a ++ b) = download_keys a ++ download_keys b.
Proof. unfold download_keys. apply flat_map_app. Qed.

Lemma download_keys_snoc created d :
  download_keys (created ++ [d])
  = download_keys created ++ match key d with Some k => [k] | None => [] end.
Proof.
  rewrite download_keys_app. unfold download_keys at 2. simpl.
  rewrite app_nil_r. reflexivity.
Qed.

Lemma NoDup_snoc {A} (l : list A) x : NoDup (l ++ [x]) <-> NoDup l /\ ~ In x l.
Proof.
  split.
  - intros H. apply NoDup_remove in H. rewrite app_nil_r in H. exact H.
  - intros [N I]. induction l as [|a l IH]; simpl.
    + constructor; [intros [] | constructor].
    + inversion N as [|? ? Na Nl]; subst. constructor.
      * intros X. apply in_app_or in X. destruct X as [X|[X|[]]].
        -- apply Na, X.
        -- apply I. left. symmetry. exact X.
      * apply IH; [exact Nl|]. intros X. apply I. right. exact X.
Qed.

(** A button is made exactly when its key is new and it has data. *)
Lemma download_button_ok d created ds :
  download_button d created = Ok ds
  <-> ds = created ++ [d]
      /\ has_data d
      /\ (forall k, key d = Some k -> ~ In k (download_keys created)).
Proof.
  unfold download_button, key_taken, has_data.
  assert (M : (_ <- marshall_file (data d);; Ok (created ++ [d])) = Ok ds
              <-> ds = created ++ [d]
                  /\ exists bytes, marshall_file (data d) = Ok bytes).
  { destruct (marshall_file (data d)) as [b|x]; simpl; split.
    - intros X. injection X as <-. split; [reflexivity|].
      exists b. reflexivity.
    - intros [-> _]. reflexivity.
    - discriminate.
    - intros [_ [b X]]. discriminate X. }
  destruct (key d) as [k|].
  - destruct (existsb (pystr_eqb k) (download_keys created)) eqn:E.
    + apply existsb_pystr_eqb in E. split; [discriminate|].
      intros [_ [_ F]]. destruct (F k eq_refl E).
    + assert (F : ~ In k (download_keys created)).
      { intros I. apply existsb_pystr_eqb in I. rewrite I in E. discriminate E. }
      rewrite M. split.
      * intros [X H]. split; [exact X|]. split; [exact H|].
        intros k' [= <-]. exact F.
      * intros [X [H _]]. split; assumption.
  - rewrite M. split.
    + intros [X H]. split; [exact X|]. split; [exact H|].
      intros k' X'. discriminate X'.
    + intros [X [H _]]. split; assumption.
Qed.

(** A button with data is refused for its key only. *)
Lemma download_button_cases d created :
  has_data d ->
  download_button d created = Ok (created ++ [d])
  \/ exists k, key d = Some k /\ In k (download_keys created)
               /\ download_button d created = Raise (duplicate_element_key k).
Proof.
  intros [b N]. unfold download_button, key_taken. rewrite N. simpl.
  destruct (key d) as [k|]; [|left; reflexivity].
  destruct (existsb (pystr_eqb k) (download_keys created)) eqn:E.
  - right. exists k. apply existsb_pystr_eqb in E. repeat split. exact E.
  - left. reflexivity.
Qed.

Lemma create_app a : forall b created,
  create (a ++ b) created = (made <- create a created;; create b made).
Proof.
  induction a as [|call a IH]; intros b created; simpl; [reflexivity|].
  destruct call as [d|x]; simpl; [|reflexivity].
  destruct (download_button d created) as [made|x]; simpl; [apply IH | reflexivity].
Qed.

(** The calls that went through made their buttons, in order, each with
    data and with a key that no button before it has. *)
Lemma create_ok calls : forall created ds,
  create calls created = Ok ds ->
  exists made,
    calls = map Ok made /\ ds = created ++ made
    /\ Forall has_data made
    /\ (NoDup (download_keys created) -> NoDup (download_keys ds)).
Proof.
  induction calls as [|call calls IH]; intros created ds; simpl.
  - intros E. injection E as <-. exists []. rewrite app_nil_r.
    repeat split; [constructor | intros N; exact N].
  - destruct call as [d|x]; simpl; [|discriminate].
    destruct (download_button d created) as [next|x] eqn:B; simpl; [|discriminate].
    intros E. apply download_button_ok in B. destruct B as [-> [D F]].
    destruct (IH _ _ E) as [made [-> [-> [Fd Nd]]]].
    exists (d :: made). rewrite <- app_assoc. repeat split.
    + constructor; assumption.
    + intros N. rewrite app_assoc. apply Nd. rewrite download_keys_snoc.
      destruct (key d) as [k|]; [|rewrite app_nil_r; exact N].
      apply NoDup_snoc. split; [exact N | apply F; reflexivity].
Qed.

(** Buttons with data and keys of their own are all made; with data, the
    only exception is the one for a key that is taken. *)
Lemma create_made made : forall created,
  Forall has_data made ->
  (NoDup (download_keys (created ++ made)) ->
   create (map Ok made) created = Ok (created ++ made))
  /\ ((exists ds, create (map Ok made) created = Ok ds)
      \/ exists k, create (map Ok made) created = Raise (duplicate_element_key k)).
Proof.
  induction made as [|d made IH]; intros created Fd; simpl.
  - rewrite app_nil_r. split; [reflexivity | left; eexists; reflexivity].
  - inversion Fd as [|? ? D Fd']; subst.
    destruct (download_button_cases d created D) as [B|[k [K [I B]]]]; rewrite B;
      simpl.
    + destruct (IH (created ++ [d]) Fd') as [G C].
      rewrite <- app_assoc in G. split; [exact G | exact C].
    + split; [|right; exists k; reflexivity].
      intros N. exfalso.
      change (d :: made) with ([d] ++ made) in N.
      rewrite app_assoc, download_keys_app, download_keys_snoc, K in N.
      apply NoDup_app_remove_r in N. apply NoDup_snoc in N.
      destruct N as [_ N]. apply N, I.
Qed.

Lemma plan_downloads_calls e created :
  plan_downloads e created = create (plan_calls e) created.
Proof.
  unfold plan_downloads, plan_calls, text_call. simpl.
  destruct (download_button _ created) as [made|x]; simpl; [|reflexivity].
  destruct (text_data (advice e)) as [bytes|x]; simpl; [|reflexivity].
  symmetry. apply bind_ok.
Qed.

Lemma entry_downloads_calls e created :
  entry_downloads e created = create (entry_calls e) created.
Proof.
  unfold entry_downloads, entry_calls, text_call. simpl.
  destruct (download_button _ created) as [made|x]; simpl; [|reflexivity].
  destruct (text_data (advice e)) as [bytes|x]; simpl; [|reflexivity].
  destruct (download_button _ made) as [made'|x]; simpl; [|reflexivity].
  symmetry. apply bind_ok.
Qed.

Lemma items_downloads_calls es : forall created,
  items_downloads es created = create (flat_map entry_calls es) created.
Proof.
  induction es as [|e es IH]; intros created; [reflexivity|].
  cbn [items_downloads flat_map].
  rewrite create_app, entry_downloads_calls.
  destruct (create (entry_calls e) created) as [made|x]; simpl;
    [apply IH | reflexivity].
Qed.

Lemma latest_downloads_calls st :
  latest_downloads st
  = create match latest st with None => [] | Some e => plan_calls e end [].
Proof.
  unfold latest_downloads. destruct (latest st) as [e|]; [|reflexivity].
  apply plan_downloads_calls.
Qed.

Lemma history_downloads_calls st :
  history_downloads st = create (page_calls st) [].
Proof.
  unfold history_downloads, page_calls.
  rewrite create_app, latest_downloads_calls.
  destruct (create _ []) as [made|x]; simpl;
    [apply items_downloads_calls | reflexivity].
Qed.

Lemma replace_spaces_no_space s : ~ In 32%N (replace_spaces s).
Proof.
  unfold replace_spaces. intros H. apply in_map_iff in H.
  destruct H as [c [E _]].
  destruct (N.eqb_spec c 32); [discriminate E | congruence].
Qed.

Lemma plan_file_name_no_space ts ext :
  In ext plan_extensions -> ~ In 32%N (plan_file_name ts ext).
Proof.
  unfold plan_file_name. intros He H.
  apply in_app_or in H. destruct H as [H|H].
  - simpl in H. repeat (destruct H as [H|H]; [discriminate H|]). exact H.
  - apply in_app_or in H. destruct H as [H|H].
    + apply (replace_spaces_no_space ts H).
    + unfold plan_extensions in He. simpl in He.
      repeat (destruct He as [<-|He];
              [simpl in H; repeat (destruct H as [H|H]; [discriminate H|]); exact H|]).
      exact He.
Qed.

Lemma text_call_ok e k d :
  text_call e k = Ok d ->
  exists bytes, d = text_button e bytes k.
Proof.
  unfold text_call, text_data.
  destruct (export_text (advice e)) as [b|]; simpl; [|discriminate].
  intros E. injection E as <-. exists (Bytes b). reflexivity.
Qed.

Lemma plan_calls_names e d :
  In (Ok d) (plan_calls e) ->
  exists ext, In ext plan_extensions
              /\ file_name d = plan_file_name (timestamp e) ext.
Proof.
  unfold plan_calls, plan_extensions. intros [E|[E|[]]].
  - injection E as <-. exists (lit ".pdf"). split; [left|]; reflexivity.
  - destruct (text_call_ok _ _ _ E) as [bytes ->].
    exists (lit ".txt"). split; [right; left|]; reflexivity.
Qed.

Lemma entry_calls_names e d :
  In (Ok d) (entry_calls e) ->
  exists ext, In ext plan_extensions
              /\ file_name d = plan_file_name (timestamp e) ext.
Proof.
  unfold entry_calls, plan_extensions. intros [E|[E|[E|[]]]].
  - injection E as <-. exists (lit ".pdf"). split; [left|]; reflexivity.
  - destruct (text_call_ok _ _ _ E) as [bytes ->].
    exists (lit ".txt"). split; [right; left|]; reflexivity.
  - injection E as <-. exists (lit ".json").
    split; [right; right; left|]; reflexivity.
Qed.

Lemma page_calls_names st d :
  In (Ok d) (page_calls st) ->
  exists e ext,
    In e (history st) /\ In ext plan_extensions
    /\ file_name d = plan_file_name (timestamp e) ext.
Proof.
  unfold page_calls, history_reversed. intros H.
  apply in_app_or in H. destruct H as [H|H].
  - destruct (latest st) as [e|] eqn:L; [|destruct H].
    destruct (plan_calls_names e d H) as [ext [X N]].
    exists e, ext. split; [apply latest_in_history, L|]. split; assumption.
  - apply in_flat_map in H. destruct H as [e [I H]].
    destruct (entry_calls_names e d H) as [ext [X N]].
    exists e, ext. split; [apply in_rev; exact I|]. split; assumption.
Qed.

(** X18: the file name of every download button of a page, beside the
    current plan and in the history, is [career_plan_], the timestamp of
    an entry of the history with its spaces replaced, and one of the three
    extensions; so no file name holds a space, whatever the timestamp. *)
Theorem download_file_names (st : session) (ds : list download) (d : download) :
  latest_downloads st = Ok ds \/ history_downloads st = Ok ds ->
  In d ds ->
  (exists e ext,
      In e (history st) /\ In ext plan_extensions
      /\ file_name d = lit "career_plan_" ++ replace_spaces (timestamp e) ++ ext)
  /\ ~ In 32%N (file_name d).
Proof.
  intros S Hin.
  assert (C : In (Ok d) (page_calls st)).
  { destruct S as [S|S].
    - rewrite latest_downloads_calls in S.
      destruct (create_ok _ _ _ S) as [made [E [-> _]]].
      unfold page_calls. apply in_or_app. left. rewrite E.
      apply (in_map Ok made d Hin).
    - rewrite history_downloads_calls in S.
      destruct (create_ok _ _ _ S) as [made [E [-> _]]].
      rewrite E. apply (in_map Ok made d Hin). }
  pose proof (page_calls_names st d C) as K.
  split; [exact K|].
  destruct K as [e [ext [_ [X N]]]]. rewrite N.
  apply plan_file_name_no_space, X.
Qed.

(** The keys of the buttons that the calls of the items make, when each
    of them has its arguments. *)
Lemma entry_calls_keys es : forall made,
  flat_map entry_calls es = map Ok made ->
  download_keys made = flat_map entry_keys es.
Proof.
  induction es as [|e es IH]; intros made.
  - destruct made; [reflexivity | discriminate].
  - cbn [flat_map]. unfold entry_calls at 1. cbn [app].
    destruct made as [|d1 [|d2 [|d3 made]]]; try discriminate.
    cbn [map]. intros E.
    injection E as E1 E2 E3 E. subst d1 d3.
    destruct (text_call_ok _ _ _ E2) as [bytes ->].
    change (download_keys (?a :: ?b :: ?c :: made))
      with (download_keys [a; b; c] ++ download_keys made).
    rewrite (IH made E). reflexivity.
Qed.

Lemma plan_calls_keys e made :
  plan_calls e = map Ok made -> download_keys made = plan_keys.
Proof.
  unfold plan_calls. destruct made as [|d1 [|d2 [|d3 made]]]; try discriminate.
  cbn [map]. intros E. injection E as E1 E2. subst d1.
  destruct (text_call_ok _ _ _ E2) as [bytes ->]. reflexivity.
Qed.

Lemma pdf_button_has_data e k :
  pdf_data (advice e) (plan_title e) <> NoData -> has_data (pdf_button e k).
Proof.
  unfold has_data, pdf_button, pdf_data. cbn [data].
  destruct (fst (generate_pdf (advice e) (plan_title e))) as [[b|]|x];
    intros N;
    [exists b; reflexivity | destruct (N eq_refl) | destruct (N eq_refl)].
Qed.

Lemma json_button_has_data e k :
  export_text (export_json (entry_value e)) <> None ->
  has_data (json_button e k).
Proof.
  unfold has_data, json_button, export_text. cbn [data marshall_file].
  destruct (utf8_encode (export_json (entry_value e))) as [b|]; intros N;
    [exists b; reflexivity | destruct (N eq_refl)].
Qed.

(** When the exports succeed, every call has its arguments and every
    button its data. *)
Lemma entry_calls_made es :
  (forall e, In e es ->
     pdf_data (advice e) (plan_title e) <> NoData
     /\ export_text (advice e) <> None
     /\ export_text (export_json (entry_value e)) <> None) ->
  exists made,
    flat_map entry_calls es = map Ok made /\ Forall has_data made.
Proof.
  induction es as [|e es IH]; intros H.
  - exists []. split; [reflexivity | constructor].
  - destruct IH as [made [E F]]. { intros x I. apply H. right. exact I. }
    destruct (H e (or_introl eq_refl)) as [P [T J]].
    destruct (export_text (advice e)) as [b|] eqn:X; [|destruct (T eq_refl)].
    exists (pdf_button e (lit "pdf_" ++ timestamp e)
            :: text_button e (Bytes b) (lit "text_" ++ timestamp e)
            :: json_button e (lit "json_" ++ timestamp e) :: made).
    split.
    + cbn [flat_map map]. rewrite E. unfold entry_calls, text_call, text_data.
      rewrite X. reflexivity.
    + constructor; [apply pdf_button_has_data, P|].
      constructor; [exists b; reflexivity|].
      constructor; [apply json_button_has_data, J | exact F].
Qed.

Lemma plan_calls_made e :
  pdf_data (advice e) (plan_title e) <> NoData ->
  export_text (advice e) <> None ->
  exists made, plan_calls e = map Ok made /\ Forall has_data made.
Proof.
  intros P T.
  destruct (export_text (advice e)) as [b|] eqn:X; [|destruct (T eq_refl)].
  exists [pdf_button e (lit "pdf_export");
          text_button e (Bytes b) (lit "text_export")].
  split.
  - unfold plan_calls, text_call, text_data. rewrite X. reflexivity.
  - constructor; [apply pdf_button_has_data, P|].
    constructor; [exists b; reflexivity | constructor].
Qed.

(** The three prefixes tell the keys of the buttons apart. *)
Lemma pdf_key_inj (a b : pystr) : lit "pdf_" ++ a = lit "pdf_" ++ b -> a = b.
Proof. apply app_inv_head. Qed.

Lemma text_key_inj (a b : pystr) : lit "text_" ++ a = lit "text_" ++ b -> a = b.
Proof. apply app_inv_head. Qed.

Lemma json_key_inj (a b : pystr) : lit "json_" ++ a = lit "json_" ++ b -> a = b.
Proof. apply app_inv_head. Qed.

Lemma pdf_is_not_text (a b : pystr) : lit "pdf_" ++ a <> lit "text_" ++ b.
Proof. intros H. discriminate H. Qed.

Lemma pdf_is_not_json (a b : pystr) : lit "pdf_" ++ a <> lit "json_" ++ b.
Proof. intros H. discriminate H. Qed.

Lemma text_is_not_json (a b : pystr) : lit "text_" ++ a <> lit "json_" ++ b.
Proof. intros H. discriminate H. Qed.

Lemma in_entry_keys (k : pystr) es :
  (In (lit "pdf_" ++ k) (flat_map entry_keys es) <-> In k (map timestamp es))
  /\ (In (lit "text_" ++ k) (flat_map entry_keys es) <-> In k (map timestamp es))
  /\ (In (lit "json_" ++ k) (flat_map entry_keys es) <-> In k (map timestamp es)).
Proof.
  rewrite !in_flat_map, in_map_iff. unfold entry_keys.
  split; [|split]; split.
  - intros [e [I [H|[H|[H|[]]]]]].
    + exists e. split; [|exact I]. apply pdf_key_inj, H.
    + symmetry in H. apply pdf_is_not_text in H. destruct H.
    + symmetry in H. apply pdf_is_not_json in H. destruct H.
  - intros [e [<- I]]. exists e. split; [exact I | left; reflexivity].
  - intros [e [I [H|[H|[H|[]]]]]].
    + apply pdf_is_not_text in H. destruct H.
    + exists e. split; [|exact I]. apply text_key_inj, H.
    + symmetry in H. apply text_is_not_json in H. destruct H.
  - intros [e [<- I]]. exists e. split; [exact I | right; left; reflexivity].
  - intros [e [I [H|[H|[H|[]]]]]].
    + apply pdf_is_not_json in H. destruct H.
    + apply text_is_not_json in H. destruct H.
    + exists e. split; [|exact I]. apply json_key_inj, H.
  - intros [e [<- I]]. exists e. split; [exact I | right; right; left; reflexivity].
Qed.

Lemma entry_keys_distinct es :
  NoDup (flat_map entry_keys es) <-> NoDup (map timestamp es).
Proof.
  induction es as [|e es IH]; simpl.
  - split; intros _; constructor.
  - destruct (in_entry_keys (timestamp e) es) as [P [T J]].
    rewrite !NoDup_cons_iff, IH. cbn [In]. rewrite P, T, J. split.
    + intros [_ [_ [H N]]]. split; assumption.
    + intros [H N]. split; [|split; [|split; [exact H | exact N]]].
      * intros [X|[X|X]].
        -- symmetry in X. apply pdf_is_not_text in X. exact X.
        -- symmetry in X. apply pdf_is_not_json in X. exact X.
        -- apply H, X.
      * intros [X|X].
        -- symmetry in X. apply text_is_not_json in X. exact X.
        -- apply H, X.
Qed.

Lemma timestamps_reversed (h : list entry) :
  (NoDup (map timestamp (rev h)) <-> NoDup (map timestamp h))
  /\ (forall k, In k (map timestamp (rev h)) <-> In k (map timestamp h)).
Proof.
  rewrite map_rev. split.
  - split; intros H.
    + rewrite <- (rev_involutive (map timestamp h)). apply NoDup_rev, H.
    + apply NoDup_rev, H.
  - intros k. symmetry. apply in_rev.
Qed.

(** The keys that a page asks for are pairwise distinct exactly for
    timestamps that are, none of them the word [export]. *)
Lemma page_keys_distinct st :
  NoDup (match latest st with None => [] | Some _ => plan_keys end
         ++ flat_map entry_keys (history_reversed st))
  <-> distinct_timestamps st.
Proof.
  unfold distinct_timestamps, history_reversed.
  destruct (timestamps_reversed (history st)) as [R I].
  destruct (latest st) as [e|] eqn:La.
  - destruct (in_entry_keys (lit "export") (rev (history st))) as [P [T _]].
    change plan_keys
      with [lit "pdf_" ++ lit "export"; lit "text_" ++ lit "export"].
    cbn [app]. rewrite !NoDup_cons_iff, entry_keys_distinct, R. cbn [In].
    rewrite P, T, I. split.
    + intros [_ [X N]]. split; assumption.
    + intros [N X]. split; [|split; assumption].
      intros [Y|Y]; [symmetry in Y; apply pdf_is_not_text in Y; exact Y | apply X, Y].
  - cbn [app]. rewrite entry_keys_distinct, R.
    unfold latest in La. destruct (history st); [|discriminate].
    simpl. split; [intros N; split; [exact N | intros []] | intros [N _]; exact N].
Qed.

Lemma page_calls_keys st made :
  page_calls st = map Ok made ->
  download_keys made
  = match latest st with None => [] | Some _ => plan_keys end
    ++ flat_map entry_keys (history_reversed st).
Proof.
  unfold page_calls. intros E.
  destruct (latest st) as [e|].
  - unfold plan_calls at 1 in E. cbn [app] in E.
    destruct made as [|d1 [|d2 made]]; try discriminate.
    cbn [map] in E. injection E as E1 E2 E.
    assert (P : plan_calls e = map Ok [d1; d2]).
    { unfold plan_calls. cbn [map]. rewrite E1, E2. reflexivity. }
    change (d1 :: d2 :: made) with ([d1; d2] ++ made).
    rewrite download_keys_app, (plan_calls_keys e _ P),
      (entry_calls_keys _ made E).
    reflexivity.
  - cbn [app] in E |- *. apply entry_calls_keys, E.
Qed.

Lemma page_calls_made st :
  exports_succeed st ->
  exists made,
    page_calls st = map Ok made /\ Forall has_data made.
Proof.
  intros H. unfold page_calls.
  destruct (entry_calls_made (history_reversed st)) as [items [Ei Fi]].
  { intros e I. apply H. apply in_rev. exact I. }
  destruct (latest st) as [e|] eqn:L.
  - destruct (H e (latest_in_history st e L)) as [P [T _]].
    destruct (plan_calls_made e P T) as [plan [Ep Fp]].
    exists (plan ++ items). rewrite map_app, Ep, Ei.
    split; [reflexivity | apply Forall_app; split; assumption].
  - exists items. split; assumption.
Qed.

(** X19: the buttons of a page that is displayed have keys of their own,
    and the page is displayed only if the timestamps of the history are
    pairwise distinct and none of them is the word [export].  When every
    document is generated and every advice and entry can be encoded, that
    is all it takes; and then two entries stamped alike end the display
    with the exception for a key given twice. *)
Theorem download_keys_distinct (st : session) :
  (forall ds, history_downloads st = Ok ds ->
     NoDup (download_keys ds) /\ distinct_timestamps st)
  /\ (exports_succeed st ->
      (distinct_timestamps st -> exists ds, history_downloads st = Ok ds)
      /\ (~ distinct_timestamps st ->
          exists k, history_downloads st = Raise (duplicate_element_key k))).
Proof.
  rewrite history_downloads_calls.
  assert (A : forall ds, create (page_calls st) [] = Ok ds ->
              NoDup (download_keys ds) /\ distinct_timestamps st).
  { intros ds S. destruct (create_ok _ _ _ S) as [made [E [-> [_ N]]]].
    specialize (N (NoDup_nil _)). split; [exact N|].
    apply page_keys_distinct. cbn [app] in N.
    rewrite <- (page_calls_keys st made E). exact N. }
  split; [exact A|].
  intros H. destruct (page_calls_made st H) as [made [E F]].
  destruct (create_made made [] F) as [G C]. rewrite <- E in G, C.
  split.
  - intros D. exists ([] ++ made). apply G. cbn [app].
    rewrite (page_calls_keys st made E). apply page_keys_distinct, D.
  - intros D. destruct C as [[ds S]|C]; [|exact C].
    destruct (D (proj2 (A ds S))).
Qed.

(** The payload of the PDF button is never a text. *)
Lemma pdf_data_bytes content title :
  pdf_data content title = NoData
  \/ exists buffer,
       pdf_data content title = Bytes buffer
       /\ fst (generate_pdf content title) = Ok (Some buffer).
Proof.
  unfold pdf_data.
  destruct (fst (generate_pdf content title)) as [[buffer|]|x];
    [right; exists buffer; split; reflexivity | left; reflexivity
     | left; reflexivity].
Qed.

(** X20: whatever the bulk export offers carries the whole history: the
    JSON text decodes to the list of the entries, the text bytes decode to
    the flattened history, and the PDF is built from the bulk title and
    the lines of the flattened history; a PDF that could not be generated
    is not offered. *)
Theorem bulk_download_carries_history
    (format : export_format) (st : session) (d : download) :
  Forall code_point (combined_content (history st)) ->
  bulk_download format st = Ok (Some d) ->
  match format with
  | FormatJSON =>
      exists text,
        data d = Str text
        /\ json_loads text = Some (history_value (history st))
  | FormatText =>
      exists bytes,
        data d = Bytes bytes
        /\ utf8_decode bytes = Some (combined_content (history st))
  | FormatPDF =>
      exists buffer story,
        data d = Bytes buffer
        /\ doc_build story = Ok buffer
        /\ paragraph_texts story
           = lit "<b>Full Career History</b>"
               :: split_lines (combined_content (history st))
  end.
Proof.
  intros C. unfold bulk_download.
  destruct (history st) as [|e0 h0] eqn:Hh; [discriminate|].
  rewrite <- Hh in C |- *. clear e0 h0 Hh. destruct format.
  - intros E. injection E as <-. eexists. split; [reflexivity|].
    apply json_loads_export, history_value_unique_keys.
  - unfold text_data, export_text.
    destruct (utf8_encode (combined_content (history st))) as [b|] eqn:U;
      [|discriminate].
    intros E. injection E as <-. exists b. split; [reflexivity|].
    apply (utf8_encode_decodes _ C b U).
  - destruct (pdf_data_bytes (combined_content (history st))
                (lit "Full Career History")) as [N|[buffer [B G]]].
    + rewrite N. discriminate.
    + rewrite B. intros E. injection E as <-.
      destruct (generate_pdf_story _ _ buffer G) as [story [D P]].
      exists buffer, story. split; [reflexivity|]. split; [exact D | exact P].
Qed.

(** ** The guard and the advice client, as they are *)

(** X21: up to three errors, the guard decides on the interval since the
    last request taken modulo one day: it denies exactly when that
    remainder is below five seconds, whether the clock reading is days
    later or earlier than the last request. *)
Theorem rate_limit_modulo_a_day (n : Z) (last now : datetime) :
  (n <= 3)%Z ->
  (throttle_guard n (Some last) now = DenyRateLimited
   <-> ((now - last) mod day_us < five_seconds_us)%Z)
  /\ (throttle_guard n (Some last) now = Allow
      <-> (five_seconds_us <= (now - last) mod day_us)%Z).
Proof.
  unfold throttle_guard, timedelta_seconds, day_us, five_seconds_us.
  intros Hn.
  destruct (Z.ltb_spec 3 n) as [Hc|_]; [lia|].
  pose proof (Z.mod_pos_bound (now - last) 86400000000 ltac:(lia)) as Hm.
  remember ((now - last) mod 86400000000)%Z as m eqn:Em. clear Em.
  pose proof (Z.div_mod m 1000000 ltac:(lia)) as Hdm.
  pose proof (Z.mod_pos_bound m 1000000 ltac:(lia)) as Hmb.
  destruct (Z.ltb_spec (m / 1000000) 5) as [Hq|Hq];
    split; split; intros; try reflexivity; try discriminate; lia.
Qed.

(** X22: [get_career_advice] leaves the session as it is and shows
    nothing.  It returns the text of the service when there is one, never
    the empty text; and whenever the service raises or answers with no
    text, what leaves the function is the [AttributeError] of the lookup
    in its first handler, whatever the service raised. *)
Theorem get_career_advice_contract
    (service : pystr -> reply) (st : session)
    (interests skills education goals : pystr) :
  let '(st1, out, r) :=
    get_career_advice service st interests skills education goals in
  st1 = st /\ out = []
  /\ match r with
     | Ok text =>
         text <> []
         /\ service (build_prompt interests skills education goals) = Text text
     | Raise e =>
         e = attribute_error
         /\ failure_of (service (build_prompt interests skills education goals))
            <> None
     end.
Proof.
  unfold get_career_advice.
  destruct (service _) as [[|c t]|e]; simpl;
    repeat split; discriminate.
Qed.

Lemma truthy_of_length v : 3 <= len v -> truthy v = true.
Proof. destruct v; simpl; [lia | reflexivity]. Qed.

(** X23: the stored inputs of an entry can be submitted again as they
    are: the empty-field check and the validator accept them, and the
    sanitizer leaves each of them unchanged. *)
Theorem stored_inputs_resubmit (e : entry) :
  stored_ok e ->
  all_filled (inputs e) = true
  /\ clean_profile (inputs e) = inputs e
  /\ validate_inputs (items (inputs e)) = [].
Proof.
  intros [_ [F _]].
  assert (U := F _ _ (or_introl eq_refl)).
  assert (E := F _ _ (or_intror (or_introl eq_refl))).
  assert (S := F _ _ (or_intror (or_intror (or_introl eq_refl)))).
  assert (G := F _ _ (or_intror (or_intror (or_intror (or_introl eq_refl))))).
  assert (I := F _ _ (or_intror (or_intror (or_intror (or_intror (or_introl eq_refl)))))).
  destruct U as [Ul [Ua [Ub Uc]]], E as [El [Ea [Eb Ec]]],
           S as [Sl [Sa [Sb Sc]]], G as [Gl [Ga [Gb Gc]]],
           I as [Il [Ia [Ib Ic]]].
  assert (C : clean_profile (inputs e) = inputs e).
  { unfold clean_profile.
    rewrite !clean_input_fixed by assumption.
    destruct (inputs e). reflexivity. }
  split; [|split; [exact C|]].
  - unfold all_filled. cbn [forallb].
    rewrite !truthy_of_length by lia. reflexivity.
  - apply validate_inputs_nil. split.
    + intros f v Hin. apply (F f v Hin).
    + change (dict_get (items (inputs e)) (lit "user_name") [])
        with (user_name (inputs e)).
      apply re_search_all_allowed, Ua.
Qed.

End App.

(** * The properties on the sample inputs *)

(** A name of two characters gets the "too short" message and not the
    other one; a name with an exclamation mark is not valid, and the
    validator says so. *)
Lemma validate_inputs_lengths_at_short_name :
  distinct_titles title_unchanged (items short_name)
  /\ In (lit "user_name", lit "Al") (items short_name)
  /\ In (too_short_msg title_unchanged (lit "user_name"))
       (validate_inputs ascii_only ascii_only title_unchanged (items
           short_name))
  /\ ~ In (too_long_msg title_unchanged (lit "user_name"))
         (validate_inputs ascii_only ascii_only title_unchanged (items
             short_name))
  /\ NoDup (map fst (items marked_name))
  /\ validate_inputs ascii_only ascii_only title_unchanged (items marked_name)
      = [invalid_name_msg]
  /\ ~ all_fields_valid ascii_only ascii_only (items marked_name).
Proof.
  pose proof (items_distinct_titles title_unchanged short_name) as D.
  assert (I : In (lit "user_name", lit "Al") (items short_name)).
  { left. reflexivity. }
  destruct (validate_inputs_lengths ascii_only ascii_only title_unchanged
      (items short_name)) as [L _].
  destruct (L D (lit "user_name") (lit "Al") I) as [S [G _]].
  assert (K : NoDup (map fst (items marked_name))).
  { simpl.
    repeat (constructor; [simpl; intros H; repeat destruct H as [H|H];
                          try discriminate H; exact H|]).
    constructor. }
  assert (M : validate_inputs ascii_only ascii_only title_unchanged (items
      marked_name) = [invalid_name_msg])
    by reflexivity.
  destruct (validate_inputs_lengths ascii_only ascii_only title_unchanged
      (items marked_name)) as [_ V].
  split; [exact D|]. split; [exact I|]. split; [|split; [|split; [|split]]].
  - apply S. simpl. lia.
  - intros H. apply G in H. simpl in H. lia.
  - exact K.
  - exact M.
  - intros X. apply (V K) in X. rewrite M in X. discriminate X.
Defined.

(** Four errors stop a valid submission; none lets it through the error
    rule. *)
Lemma throttle_error_ceiling_at_four :
  (3 < api_errors over_ceiling)%Z
  /\ form_handling ascii_only ascii_only title_unchanged fixed_stamp
       over_ceiling (submit jane 0%Z (Text path_one))
     = stopped_for_errors over_ceiling
  /\ (api_errors required_states <= 3)%Z
  /\ form_handling ascii_only ascii_only title_unchanged fixed_stamp
       required_states (submit jane 0%Z (Text path_one))
     <> stopped_for_errors required_states.
Proof.
  assert (A : (3 < api_errors over_ceiling)%Z) by reflexivity.
  assert (B : (api_errors required_states <= 3)%Z) by discriminate.
  split; [exact A|]. split.
  - apply (throttle_error_ceiling ascii_only ascii_only title_unchanged
      fixed_stamp over_ceiling
             (submit jane 0%Z (Text path_one))).
    exact A.
  - split; [exact B|].
    apply (throttle_error_ceiling ascii_only ascii_only title_unchanged
        fixed_stamp required_states
             (submit jane 0%Z (Text path_one))).
    exact B.
Defined.

(** Two seconds after a stored request the guard answers, although the
    name of the form is too short. *)
Lemma form_handling_order_at_short_name :
  throttle_guard (api_errors stored_once) (last_request stored_once)
    (now_check (submit short_name (2 * second_us)%Z (Text path_one)))
  = DenyRateLimited
  /\ shown
       (form_handling ascii_only ascii_only title_unchanged fixed_stamp
           stored_once
          (submit short_name (2 * second_us)%Z (Text path_one)))
     = [UiWarning please_wait_msg]
  /\ ending
       (form_handling ascii_only ascii_only title_unchanged fixed_stamp
           stored_once
          (submit short_name (2 * second_us)%Z (Text path_one)))
     = Stop.
Proof.
  assert (G : throttle_guard (api_errors stored_once)
                (last_request stored_once)
                (now_check (submit short_name (2 * second_us)%Z (Text
                    path_one)))
              = DenyRateLimited) by reflexivity.
  split; [exact G|].
  destruct (form_handling_order ascii_only ascii_only title_unchanged
      fixed_stamp stored_once
              (submit short_name (2 * second_us)%Z (Text path_one)))
    as [_ [H _]].
  exact (H G).
Defined.

(** C4, as the specification states it: the validator would reject before
    the guard is asked.  In the session that the start button and one
    accepted submission leave, a complete form with a name of two
    characters, submitted two seconds later, is refused by the validator;
    yet the run shows the guard's warning and stops, and none of the
    validator's messages. *)
Lemma throttle_before_validation :
  script_runs ascii_only ascii_only title_unchanged fixed_stamp
    every_paragraph_parses builds key_given_twice data_missing required_states
    [press_start; submits (submit jane 0%Z (Text path_one))]
  = stored_once
  /\ all_filled short_name = true
  /\ validate_inputs ascii_only ascii_only title_unchanged
       (items (clean_profile ascii_only ascii_only short_name))
     = [lit "User Name too short (min 3 chars)"]
  /\ shown
       (form_handling ascii_only ascii_only title_unchanged fixed_stamp
           stored_once
          (submit short_name (2 * second_us)%Z (Text path_one)))
     = [UiWarning please_wait_msg]
  /\ ending
       (form_handling ascii_only ascii_only title_unchanged fixed_stamp
           stored_once
          (submit short_name (2 * second_us)%Z (Text path_one)))
     = Stop
  /\ ~ validator_rejects_first ascii_only ascii_only title_unchanged
         (form_handling ascii_only ascii_only title_unchanged fixed_stamp).
Proof.
  split; [reflexivity|]. split; [reflexivity|]. split; [reflexivity|].
  split; [reflexivity|]. split; [reflexivity|].
  intros V.
  specialize (V stored_once
                (submit short_name (2 * second_us)%Z (Text path_one))
                eq_refl).
  assert (N : validate_inputs ascii_only ascii_only title_unchanged
                (items
                   (clean_profile ascii_only ascii_only
                      (form (submit short_name (2 * second_us)%Z
                               (Text path_one))))) <> []) by discriminate.
  specialize (V N). discriminate V.
Qed.

(** An empty response and a service that raises both leave the history
    of a new session empty, and the session as it was. *)
Lemma failed_advice_is_not_appended_at_empty :
  advice_call_fails ascii_only ascii_only title_unchanged required_states
      (submit jane 0%Z (Text []))
  /\ advice_call_fails ascii_only ascii_only title_unchanged required_states
       (submit jane 0%Z (Raises unavailable))
  /\ history
       (state (form_handling ascii_only ascii_only title_unchanged fixed_stamp
           required_states
                 (submit jane 0%Z (Text []))))
     = []
  /\ script_run ascii_only ascii_only title_unchanged fixed_stamp
       every_paragraph_parses builds key_given_twice data_missing
           required_states
       (submit jane 0%Z (Raises unavailable))
     = required_states.
Proof.
  assert (E : advice_call_fails ascii_only ascii_only title_unchanged
      required_states
                (submit jane 0%Z (Text []))).
  { split; [reflexivity | discriminate]. }
  assert (R : advice_call_fails ascii_only ascii_only title_unchanged
      required_states
                (submit jane 0%Z (Raises unavailable))).
  { split; [reflexivity | discriminate]. }
  split; [exact E|]. split; [exact R|]. split.
  - apply (failed_advice_is_not_appended ascii_only ascii_only title_unchanged
      fixed_stamp
             every_paragraph_parses builds key_given_twice data_missing
                 required_states
             (submit jane 0%Z (Text [])) E).
  - apply (failed_advice_is_not_appended ascii_only ascii_only title_unchanged
      fixed_stamp
             every_paragraph_parses builds key_given_twice data_missing
                 required_states
             (submit jane 0%Z (Raises unavailable)) R).
Defined.

(** The validator refuses the short name and the session stays new. *)
Lemma rejected_keeps_session_at_short_name :
  rejected ascii_only ascii_only title_unchanged required_states
    (submit short_name 0%Z (Text path_one)) = Some ValidationErrors
  /\ state (form_handling ascii_only ascii_only title_unchanged fixed_stamp
              required_states (submit short_name 0%Z (Text path_one)))
     = required_states.
Proof.
  assert (R : rejected ascii_only ascii_only title_unchanged required_states
                (submit short_name 0%Z (Text path_one)) = Some ValidationErrors)
    by reflexivity.
  split; [exact R|].
  apply (rejected_keeps_session ascii_only ascii_only title_unchanged
      fixed_stamp required_states
           (submit short_name 0%Z (Text path_one)) ValidationErrors R).
Defined.

(** Two successful requests six seconds apart: two entries, the second
    one latest and first in the reversed iteration. *)
Lemma history_of_successes_at_two :
  history started = []
  /\ successes ascii_only ascii_only title_unchanged fixed_stamp
       every_paragraph_parses builds key_given_twice data_missing started
       [ submit jane 0%Z (Text path_one);
         submit jane (6 * second_us)%Z (Text (lit "## Path 2")) ]
     = Some [jane_entry path_one; jane_entry (lit "## Path 2")]
  /\ latest
       (session_after ascii_only ascii_only title_unchanged fixed_stamp
          every_paragraph_parses builds key_given_twice data_missing started
          [ submit jane 0%Z (Text path_one);
            submit jane (6 * second_us)%Z (Text (lit "## Path 2")) ])
     = Some (jane_entry (lit "## Path 2"))
  /\ history_reversed
       (session_after ascii_only ascii_only title_unchanged fixed_stamp
          every_paragraph_parses builds key_given_twice data_missing started
          [ submit jane 0%Z (Text path_one);
            submit jane (6 * second_us)%Z (Text (lit "## Path 2")) ])
     = [jane_entry (lit "## Path 2"); jane_entry path_one].
Proof.
  assert (E : history started = []) by reflexivity.
  assert (S : successes ascii_only ascii_only title_unchanged fixed_stamp
                every_paragraph_parses builds key_given_twice data_missing
                    started
                [ submit jane 0%Z (Text path_one);
                  submit jane (6 * second_us)%Z (Text (lit "## Path 2")) ]
              = Some [jane_entry path_one; jane_entry (lit "## Path 2")])
    by reflexivity.
  split; [exact E|]. split; [exact S|].
  destruct (history_of_successes ascii_only ascii_only title_unchanged
      fixed_stamp
              every_paragraph_parses builds key_given_twice data_missing _ _ _
                  E S) as [_ [_ [_ [L [R _]]]]].
  split; [exact L | exact R].
Defined.

(** A heading and a line of text: the document is built from the title,
    a heading and a body paragraph; and when reportlab cannot build it,
    there is no document and the failure is shown. *)
Lemma generate_pdf_blocks_at_two_lines :
  parses every_paragraph_parses (specified_story two_lines (lit "Plan"))
  /\ specified_story two_lines (lit "Plan")
     = [ Paragraph (lit "<b>Plan</b>") Title; Spacer 1 12;
         Paragraph (lit "# Plan") Heading2; Spacer 1 3;
         Paragraph (lit "Study.") BodyText; Spacer 1 3 ]
  /\ generate_pdf every_paragraph_parses builds two_lines (lit "Plan") = (Ok (Some pdf_bytes), [])
  /\ exists e,
       generate_pdf every_paragraph_parses build_fails two_lines (lit "Plan")
       = (Ok None, [UiError (pdf_failed_msg e)]).
Proof.
  assert (Pa : parses every_paragraph_parses
                 (specified_story two_lines (lit "Plan"))).
  { intros text s _. reflexivity. }
  split; [exact Pa|]. split; [reflexivity|]. split.
  - apply (generate_pdf_blocks every_paragraph_parses builds two_lines (lit "Plan")).
    split; [exact Pa | reflexivity].
  - apply (generate_pdf_blocks every_paragraph_parses build_fails two_lines
             (lit "Plan")).
    right. eexists. reflexivity.
Defined.

(** An advice of [e] with an acute accent, a newline and a quote comes
    back as it was; the accented letter is not escaped, and the line of
    the advice is one line, indented by two spaces. *)
Lemma export_json_entry_at_e_acute :
  escape_char 233%N = [233%N]
  /\ json_loads (export_json (entry_value (jane_entry [233%N; 10%N; 34%N])))
     = Some (entry_value (jane_entry [233%N; 10%N; 34%N]))
  /\ nth 10 (split_lines
               (export_json (entry_value (jane_entry [233%N; 10%N; 34%N])))) []
     = lit "  " ++ quoted "advice" ++ lit ": "
       ++ [34%N; 233%N; 92%N; 110%N; 92%N; 34%N; 34%N].
Proof.
  destruct (export_json_entry (jane_entry [233%N; 10%N; 34%N]))
    as [[loaded [inp [L [E _]]]] [K Ls]].
  split; [|split].
  - apply K. discriminate.
  - rewrite L, E. reflexivity.
  - rewrite Ls. reflexivity.
Defined.

(** The scenario of the rate limit: of two valid requests two seconds
    apart the second is stopped with the warning, and the history keeps its
    one entry. *)
Example two_seconds_apart :
  shown
    (form_handling ascii_only ascii_only title_unchanged fixed_stamp
       (script_run ascii_only ascii_only title_unchanged fixed_stamp
          every_paragraph_parses builds key_given_twice data_missing
              required_states
          (submit jane 0%Z (Text path_one)))
       (submit jane (2 * second_us)%Z (Text path_one)))
  = [UiWarning please_wait_msg]
  /\ history
       (session_after ascii_only ascii_only title_unchanged fixed_stamp
          every_paragraph_parses builds key_given_twice data_missing
              required_states
          [submit jane 0%Z (Text path_one);
           submit jane (2 * second_us)%Z (Text path_one)])
     = [jane_entry path_one].
Proof. split; reflexivity. Qed.

(** * The further properties on the sample inputs *)

(** A word with an accented letter is exported and read back. *)
Lemma export_text_decodes_at_cafe :
  Forall encodable cafe
  /\ exists bytes,
       export_text cafe = Some bytes /\ utf8_decode bytes = Some cafe.
Proof.
  assert (H : Forall encodable cafe).
  { repeat constructor; unfold code_point; lia. }
  split; [exact H|].
  destruct (export_text_decodes cafe H) as [bytes [E [D _]]].
  exists bytes. split; assumption.
Defined.

(** A lone surrogate cannot be exported; ASCII text is its own export. *)
Lemma export_text_fails_at_surrogate :
  Exists surrogate lone_surrogate
  /\ export_text lone_surrogate = None
  /\ export_text (lit "plan") = Some (lit "plan").
Proof.
  assert (S : Exists surrogate lone_surrogate).
  { left. reflexivity. }
  split; [exact S|]. split.
  - apply (export_text_fails_on_surrogates lone_surrogate), S.
  - apply (export_text_fails_on_surrogates (lit "plan")).
    repeat constructor.
Defined.

(** The letter J of a cleaned name is no HTML character. *)
Lemma clean_input_no_html_at_jane :
  In 74%N (clean_input ascii_only ascii_only (Some (lit "<Jane>")))
  /\ html_special 74%N = false.
Proof.
  assert (I : In 74%N (clean_input ascii_only ascii_only (Some (lit "<Jane>")))).
  { left. reflexivity. }
  split; [exact I|].
  apply (clean_input_no_html ascii_only ascii_only (Some (lit "<Jane>")) 74%N I).
Defined.

(** The one error of the form with the short name is a length message of
    one of its fields. *)
Lemma validation_of_cleaned_form_at_short_name :
  exists field,
    In field (map fst (items short_name))
    /\ (lit "User Name too short (min 3 chars)"
        = too_short_msg title_unchanged field
        \/ lit "User Name too short (min 3 chars)"
           = too_long_msg title_unchanged field).
Proof.
  destruct (validation_of_cleaned_form ascii_only ascii_only title_unchanged
      short_name) as [_ [_ K]].
  apply (K (lit "User Name too short (min 3 chars)")).
  left. reflexivity.
Defined.

(** Before anything is pressed the session is the initial one. *)
Lemma last_request_follows_history_at_start :
  show_main
    (script_runs ascii_only ascii_only title_unchanged fixed_stamp
       every_paragraph_parses builds key_given_twice data_missing
           required_states []) = false
  /\ script_runs ascii_only ascii_only title_unchanged fixed_stamp
       every_paragraph_parses builds key_given_twice data_missing
           required_states [] = required_states.
Proof.
  assert (M : show_main
                (script_runs ascii_only ascii_only title_unchanged fixed_stamp
                   every_paragraph_parses builds key_given_twice data_missing
                       required_states []) = false) by reflexivity.
  split; [exact M|].
  apply (last_request_follows_history ascii_only ascii_only title_unchanged
      fixed_stamp
           every_paragraph_parses builds key_given_twice data_missing []), M.
Defined.

(** The entry that the start button and one submission leave is valid. *)
Lemma history_entries_are_valid_at_jane :
  In (jane_entry path_one)
    (history
       (script_runs ascii_only ascii_only title_unchanged fixed_stamp
          every_paragraph_parses builds key_given_twice data_missing
              required_states
          [press_start; submits (submit jane 0%Z (Text path_one))]))
  /\ stored_ok ascii_only ascii_only (jane_entry path_one).
Proof.
  assert (I : In (jane_entry path_one)
                (history
                   (script_runs ascii_only ascii_only title_unchanged
                       fixed_stamp
                      every_paragraph_parses builds key_given_twice
                          data_missing required_states
                      [press_start; submits (submit jane 0%Z (Text
                          path_one))]))).
  { left. reflexivity. }
  split; [exact I|].
  apply (history_entries_are_valid ascii_only ascii_only title_unchanged
      fixed_stamp
           every_paragraph_parses builds key_given_twice data_missing _ _ I).
Defined.

(** With four errors counted, two valid submissions change nothing. *)
Lemma lockout_is_permanent_at_four :
  (3 < api_errors over_ceiling)%Z
  /\ session_after ascii_only ascii_only title_unchanged fixed_stamp
       every_paragraph_parses builds key_given_twice data_missing over_ceiling
       [submit jane 0%Z (Text path_one);
        submit jane (6 * second_us)%Z (Text path_one)]
     = over_ceiling.
Proof.
  assert (A : (3 < api_errors over_ceiling)%Z) by reflexivity.
  split; [exact A|].
  apply (lockout_is_permanent ascii_only ascii_only title_unchanged fixed_stamp
           every_paragraph_parses builds key_given_twice data_missing
               over_ceiling _ A).
Defined.

(** A service that raises, in a session on the main page: the flag stays
    down and nothing is stored. *)
Lemma error_flag_never_raised_at_unavailable :
  error
    (script_runs ascii_only ascii_only title_unchanged fixed_stamp
       every_paragraph_parses builds key_given_twice data_missing
           required_states
       [press_start; submits (submit jane 0%Z (Raises unavailable))])
  = false
  /\ script_runs ascii_only ascii_only title_unchanged fixed_stamp
       every_paragraph_parses builds key_given_twice data_missing
           required_states
       [press_start; submits (submit jane 0%Z (Raises unavailable))]
     = started.
Proof.
  split; [|reflexivity].
  apply (error_flag_never_raised ascii_only ascii_only title_unchanged
      fixed_stamp
           every_paragraph_parses builds key_given_twice data_missing
               required_states press_start
           [press_start; submits (submit jane 0%Z (Raises unavailable))]).
Defined.

(** Two seconds after a stored request the next one is stopped. *)
Lemma too_soon_after_a_stored_request_at_two_seconds :
  rejected ascii_only ascii_only title_unchanged started
    (submit jane 0%Z (Text path_one)) = None
  /\ (0 <= 2 * second_us - 0 < five_seconds_us)%Z
  /\ ending
       (form_handling ascii_only ascii_only title_unchanged fixed_stamp
          (script_run ascii_only ascii_only title_unchanged fixed_stamp
             every_paragraph_parses builds key_given_twice data_missing started
             (submit jane 0%Z (Text path_one)))
          (submit jane (2 * second_us)%Z (Text path_one)))
     = Stop.
Proof.
  assert (R : rejected ascii_only ascii_only title_unchanged started
                (submit jane 0%Z (Text path_one)) = None) by reflexivity.
  assert (T : (0 <= 2 * second_us - 0 < five_seconds_us)%Z).
  { split; [discriminate | reflexivity]. }
  split; [exact R|]. split; [exact T|].
  apply (too_soon_after_a_stored_request ascii_only ascii_only title_unchanged
      fixed_stamp
           every_paragraph_parses builds key_given_twice data_missing started
           (submit jane 0%Z (Text path_one))
           (submit jane (2 * second_us)%Z (Text path_one)) R eq_refl T).
Defined.

(** The start button on the welcome page opens the main page and leaves
    the history empty. *)
Lemma welcome_page_runs_at_start :
  show_main required_states = false
  /\ show_main
       (script ascii_only ascii_only title_unchanged fixed_stamp
          every_paragraph_parses builds key_given_twice data_missing
              required_states press_start) = true
  /\ history
       (script ascii_only ascii_only title_unchanged fixed_stamp
          every_paragraph_parses builds key_given_twice data_missing
              required_states press_start) = [].
Proof.
  assert (M : show_main required_states = false) by reflexivity.
  destruct (welcome_page_runs ascii_only ascii_only title_unchanged fixed_stamp
              every_paragraph_parses builds key_given_twice data_missing
                  required_states press_start) as [_ W].
  destruct (W M) as [S [H _]].
  split; [exact M|]. split; [apply S; reflexivity | exact H].
Defined.

(** The document of a heading and a line has their two texts after the
    title. *)
Lemma pdf_paragraphs_are_the_content_at_two_lines :
  fst (generate_pdf every_paragraph_parses builds two_lines (lit "Plan"))
  = Ok (Some pdf_bytes)
  /\ exists story lines,
       builds story = Ok pdf_bytes
       /\ join newline lines = two_lines
       /\ length lines = 2.
Proof.
  assert (G : fst (generate_pdf every_paragraph_parses builds two_lines
                     (lit "Plan")) = Ok (Some pdf_bytes)) by reflexivity.
  split; [exact G|].
  destruct (pdf_paragraphs_are_the_content every_paragraph_parses builds
              two_lines (lit "Plan") pdf_bytes G)
    as [story [lines [D [_ [J [L _]]]]]].
  exists story, lines. split; [exact D|]. split; [exact J | exact L].
Defined.

(** The flattened history of two entries: header, empty line, advice,
    empty line, header, empty line, advice. *)
Lemma combined_content_lines_at_two :
  [jane_entry (lit "a"); jane_entry (lit "b")] <> []
  /\ split_lines (combined_content [jane_entry (lit "a"); jane_entry (lit "b")])
     = [lit "Jane Doe (03 Nov 2026 09:31)"; []; lit "a"; [];
        lit "Jane Doe (03 Nov 2026 09:31)"; []; lit "b"].
Proof.
  assert (N : [jane_entry (lit "a"); jane_entry (lit "b")] <> [])
    by discriminate.
  split; [exact N|].
  rewrite (combined_content_lines _ N). reflexivity.
Defined.

(** The backslash that escapes a newline is a printable character. *)
Lemma export_json_lines_at_newline :
  In 92%N (encode_basestring [10%N]) /\ (32 <= 92)%N.
Proof.
  assert (I : In 92%N (encode_basestring [10%N])).
  { right. left. reflexivity. }
  split; [exact I|].
  destruct export_json_lines as [_ [_ P]].
  apply (P [10%N] 92%N I).
Defined.

(** A history with the same export as the history of one entry is that
    history. *)
Lemma export_json_keeps_history_at_one :
  export_json (history_value [jane_entry path_one])
  = export_json (history_value (history stored_once))
  /\ [jane_entry path_one] = history stored_once.
Proof.
  assert (E : export_json (history_value [jane_entry path_one])
              = export_json (history_value (history stored_once)))
    by reflexivity.
  split; [exact E|].
  apply (export_json_keeps_history [jane_entry path_one]), E.
Defined.

(** The PDF beside the current plan is named after the timestamp, with
    underscores for its spaces. *)
Lemma download_file_names_at_stored_once :
  latest_downloads every_paragraph_parses builds key_given_twice data_missing
      stored_once
  = Ok [pdf_button every_paragraph_parses builds (jane_entry path_one)
          (lit "pdf_export");
        text_button (jane_entry path_one)
          (Bytes (lit "## Path 1" ++ newline ++ lit "Study."))
          (lit "text_export")]
  /\ file_name
       (pdf_button every_paragraph_parses builds (jane_entry path_one) (lit "pdf_export"))
     = lit "career_plan_03_Nov_2026_09:31.pdf"
  /\ ~ In 32%N
       (file_name
          (pdf_button every_paragraph_parses builds (jane_entry path_one)
             (lit "pdf_export"))).
Proof.
  assert (L : latest_downloads every_paragraph_parses builds key_given_twice
      data_missing stored_once
              = Ok [pdf_button every_paragraph_parses builds
                      (jane_entry path_one) (lit "pdf_export");
                    text_button (jane_entry path_one)
                      (Bytes (lit "## Path 1" ++ newline ++ lit "Study."))
                      (lit "text_export")]) by reflexivity.
  split; [exact L|]. split; [reflexivity|].
  apply (download_file_names every_paragraph_parses builds key_given_twice
      data_missing stored_once _ _ (or_introl L)).
  left. reflexivity.
Defined.

(** One stored entry: the page has its five buttons.  Two entries of the
    same minute: the display ends at the PDF button of the older one, whose
    key the newer one has. *)
Lemma download_keys_distinct_at_stamped_alike :
  exports_succeed every_paragraph_parses builds stored_once
  /\ distinct_timestamps stored_once
  /\ (exists ds,
         history_downloads every_paragraph_parses builds key_given_twice
             data_missing stored_once = Ok ds)
  /\ exports_succeed every_paragraph_parses builds stamped_alike
  /\ ~ distinct_timestamps stamped_alike
  /\ (exists k,
         history_downloads every_paragraph_parses builds key_given_twice
             data_missing stamped_alike = Raise (key_given_twice k))
  /\ history_downloads every_paragraph_parses builds key_given_twice
      data_missing stamped_alike
     = Raise (key_given_twice (lit "pdf_03 Nov 2026 09:31")).
Proof.
  assert (E1 : exports_succeed every_paragraph_parses builds stored_once).
  { intros e [<-|[]].
    split; [|split]; intros X; vm_compute in X; discriminate X. }
  assert (T1 : distinct_timestamps stored_once).
  { split; [repeat constructor; intros [] | intros [X|[]]; discriminate X]. }
  assert (E2 : exports_succeed every_paragraph_parses builds stamped_alike).
  { intros e [<-|[<-|[]]];
      (split; [|split]); intros X; vm_compute in X; discriminate X. }
  assert (T2 : ~ distinct_timestamps stamped_alike).
  { intros [N _]. inversion N as [|? ? X _]. apply X. left. reflexivity. }
  split; [exact E1|]. split; [exact T1|]. split.
  - apply (download_keys_distinct every_paragraph_parses builds
      key_given_twice data_missing stored_once); assumption.
  - split; [exact E2|]. split; [exact T2|]. split; [|reflexivity].
    apply (download_keys_distinct every_paragraph_parses builds
        key_given_twice data_missing stamped_alike); assumption.
Defined.

(** The bulk text export of one entry decodes to its block. *)
Lemma bulk_download_carries_history_at_text :
  Forall code_point (combined_content (history stored_once))
  /\ match bulk_download every_paragraph_parses builds FormatText stored_once
      with
     | Ok (Some d) =>
         exists bytes,
           data d = Bytes bytes
           /\ utf8_decode bytes = Some (combined_content (history stored_once))
     | _ => False
     end.
Proof.
  assert (C : Forall code_point (combined_content (history stored_once))).
  { apply Forall_forall. intros c H. unfold code_point.
    assert (B : forallb (fun c => (c <? 1114112)%N)
                  (combined_content (history stored_once)) = true)
      by reflexivity.
    rewrite forallb_forall in B. apply N.ltb_lt, B, H. }
  split; [exact C|].
  destruct (bulk_download every_paragraph_parses builds FormatText stored_once)
    as [[d|]|x] eqn:E; try discriminate E.
  apply (bulk_download_carries_history every_paragraph_parses builds
           FormatText stored_once d C E).
Defined.

(** One day and two seconds after the last request the remainder is two
    seconds, and the guard denies. *)
Lemma rate_limit_modulo_a_day_at_a_day :
  (0 <= 3)%Z
  /\ ((day_us + 2000000 - 0) mod day_us < five_seconds_us)%Z
  /\ throttle_guard 0 (Some 0%Z) (day_us + 2000000)%Z = DenyRateLimited.
Proof.
  assert (A : (0 <= 3)%Z) by discriminate.
  assert (B : ((day_us + 2000000 - 0) mod day_us < five_seconds_us)%Z)
    by reflexivity.
  split; [exact A|]. split; [exact B|].
  apply (rate_limit_modulo_a_day 0%Z 0%Z (day_us + 2000000)%Z A), B.
Defined.

Lemma jane_entry_stored_ok (a : pystr) :
  a <> [] -> stored_ok ascii_only ascii_only (jane_entry a).
Proof.
  intros Na. split; [reflexivity|]. split; [|exact Na].
  intros f v H. simpl in H.
  repeat (destruct H as [H|H];
          [ apply (f_equal snd) in H; simpl in H; subst v;
            split; [unfold len; simpl; lia|];
            split; [repeat constructor|];
            split; reflexivity |]).
  destruct H.
Defined.

(** The inputs of the stored entry pass the form handler's checks again,
    unchanged. *)
Lemma stored_inputs_resubmit_at_jane :
  stored_ok ascii_only ascii_only (jane_entry path_one)
  /\ clean_profile ascii_only ascii_only jane = jane
  /\ validate_inputs ascii_only ascii_only title_unchanged (items jane) = [].
Proof.
  assert (S : stored_ok ascii_only ascii_only (jane_entry path_one)).
  { apply jane_entry_stored_ok. discriminate. }
  split; [exact S|].
  destruct (stored_inputs_resubmit ascii_only ascii_only title_unchanged
              (jane_entry path_one) S) as [_ [C V]].
  split; [exact C | exact V].
Defined.
